(** * NaturalToSql: the retrieval-augmented SQL generation pipeline

    A shallow embedding of [backend/app/services/llm_service.py]
    (class [EnhancedLLMService]) and [backend/app/services/rag_service.py]
    (class [RAGService]), with the properties of the generation
    orchestrator, the response cleaner, the rule-based fallback, the
    knowledge curator, the context retriever and the feedback loop.

    Conventions.
    - A Python [str] is a Rocq [string]; its characters are read as the code
      points U+0000..U+00FF, on which [str.lower], [str.strip] and the
      [\s], [\d] classes of [re] are modelled exactly.
    - A call that can raise returns a [result]; [try]/[except Exception]
      is [try_except].
    - The ChromaDB collection is a finite map from document ids to
      documents; the calls made to the collection and to the language
      model are recorded in a log, so that "is never invoked" is a
      statement about that log.
    - The functions print progress lines.  The definitions of the first
      part leave this output out: they are the functions on a stdout that
      takes every text.  [Module Console] has the functions of the
      orchestrator with every [print], on a stdout that can refuse a text;
      the two readings are compared in [console_generate_sql]. *)

From Stdlib Require Import ZArith NArith String Ascii List Bool Lia DecimalString.
From stdpp Require Import gmap strings sorting.
Import ListNotations.

Local Open Scope string_scope.
Local Open Scope list_scope.

(** ** Python string operations *)

Module PyStr.

(** [str.isspace] on one character (code points below 256):
    TAB..CR, FS..US, SPACE, NEL and NBSP. *)
Definition is_space (c : ascii) : bool :=
  let n := N_of_ascii c in
  (((9 <=? n) && (n <=? 13)) || ((28 <=? n) && (n <=? 32))
   || (n =? 133) || (n =? 160))%N.

(** The class [\d] of [re] on a [str] pattern: decimal digits. *)
Definition is_digit (c : ascii) : bool :=
  let n := N_of_ascii c in ((48 <=? n) && (n <=? 57))%N.

Definition is_upper (c : ascii) : bool :=
  let n := N_of_ascii c in
  (((65 <=? n) && (n <=? 90))
   || ((192 <=? n) && (n <=? 222) && negb (n =? 215)))%N.

Definition lower_char (c : ascii) : ascii :=
  if is_upper c then ascii_of_N (N_of_ascii c + 32) else c.

(** [s.lower()] *)
Fixpoint lower (s : string) : string :=
  match s with
  | EmptyString => EmptyString
  | String c s' => String (lower_char c) (lower s')
  end.

(** [s.lstrip()] *)
Fixpoint lstrip (s : string) : string :=
  match s with
  | EmptyString => EmptyString
  | String c s' => if is_space c then lstrip s' else s
  end.

Definition is_empty (s : string) : bool :=
  match s with EmptyString => true | String _ _ => false end.

(** [s.rstrip()] *)
Fixpoint rstrip (s : string) : string :=
  match s with
  | EmptyString => EmptyString
  | String c s' =>
      let r := rstrip s' in
      if is_empty r && is_space c then EmptyString else String c r
  end.

(** [s.strip()] *)
Definition strip (s : string) : string := rstrip (lstrip s).

(** [s.startswith(p)] *)
Fixpoint startswith (p s : string) : bool :=
  match p, s with
  | EmptyString, _ => true
  | String _ _, EmptyString => false
  | String a p', String b s' => Ascii.eqb a b && startswith p' s'
  end.

(** [sub in s] *)
Fixpoint contains (sub s : string) : bool :=
  match s with
  | EmptyString => startswith sub EmptyString
  | String _ s' => startswith sub s || contains sub s'
  end.

(** [s.endswith(suf)] *)
Fixpoint endswith (suf s : string) : bool :=
  match s with
  | EmptyString => is_empty suf
  | String _ s' => String.eqb suf s || endswith suf s'
  end.

(** [s.split(sep)] for a non-empty separator, scanning left to right for
    non-overlapping occurrences.  [split_from sep skip s] returns the piece
    that is being read and the pieces after it; [skip] counts the
    characters of a separator that was just found and is still to be
    passed over. *)
Fixpoint split_from (sep : string) (skip : nat) (s : string)
  : string * list string :=
  match s with
  | EmptyString => (EmptyString, [])
  | String c s' =>
      match skip with
      | S k => split_from sep k s'
      | O =>
          if startswith sep s then
            let '(h, t) := split_from sep (String.length sep - 1) s' in
            (EmptyString, h :: t)
          else
            let '(h, t) := split_from sep 0 s' in
            (String c h, t)
      end
  end.

Definition split (sep s : string) : list string :=
  let '(h, t) := split_from sep 0 s in h :: t.

(** [sep.join(l)] *)
Fixpoint join (sep : string) (l : list string) : string :=
  match l with
  | [] => EmptyString
  | [x] => x
  | x :: l' => x +:+ sep +:+ join sep l'
  end.

(** The longest prefix of [s] whose characters satisfy [p], and the rest. *)
Fixpoint span (p : ascii -> bool) (s : string) : string * string :=
  match s with
  | EmptyString => (EmptyString, EmptyString)
  | String c s' =>
      if p c then let '(a, b) := span p s' in (String c a, b)
      else (EmptyString, s)
  end.

(** [s[n:]] *)
Fixpoint drop (n : nat) (s : string) : string :=
  match n, s with
  | O, _ => s
  | S _, EmptyString => EmptyString
  | S k, String _ s' => drop k s'
  end.

(** [s[:n]] *)
Fixpoint take (n : nat) (s : string) : string :=
  match n, s with
  | O, _ => EmptyString
  | S _, EmptyString => EmptyString
  | S k, String c s' => String c (take k s')
  end.

(** [s.find(sub)], with [None] for -1 *)
Fixpoint find (sub s : string) : option nat :=
  if startswith sub s then Some 0
  else
    match s with
    | EmptyString => None
    | String _ s' => option_map S (find sub s')
    end.

(** [str(n)] for an [int] *)
Definition str_of_int (z : Z) : string := NilZero.string_of_int (Z.to_int z).

End PyStr.

Import PyStr.

(** ** Exceptions and fallible computations *)

(** The exceptions the services can meet; [except Exception] catches
    every one of them. *)
Inductive exn : Type :=
  | IndexError
  | AttributeError
  | UnicodeEncodeError (msg : string)
  | BackendError (msg : string).

Inductive result (A : Type) : Type :=
  | Returns (a : A)
  | Raises (e : exn).
Arguments Returns {A} a.
Arguments Raises {A} e.

#[global] Instance result_ret : MRet result := fun A a => Returns a.
#[global] Instance result_bind : MBind result := fun A B f m =>
  match m with
  | Returns a => f a
  | Raises e => Raises e
  end.

Notation "x <- c1 ; c2" := (mbind (fun x => c2) c1)
  (at level 20, c1 at level 100, c2 at level 200, only parsing).

(** [l[i]] for a non-negative index *)
Definition index {A : Type} (l : list A) (i : nat) : result A :=
  match nth_error l i with
  | Some x => Returns x
  | None => Raises IndexError
  end.

(** ** llm_service.py: response cleaning and rule-based fallback *)

(** The line feed, written [\n] in the source. *)
Definition nl : string := String (ascii_of_nat 10) EmptyString.

(** [response.content] of a model response: a [str], or a value of another
    type (LangChain also allows a list of content parts), which has no
    [strip] method. *)
Inductive Content : Type :=
  | ContentStr (s : string)
  | ContentOther.

(** The test of the loop of [_clean_sql_response], on a stripped line:
    [line and (not line.startswith('--') or line.startswith('-- '))]. *)
Definition keep_line (line : string) : bool :=
  negb (is_empty line)
  && (negb (startswith "--" line) || startswith "-- " line).

(** The loop [for line in lines: ...] building [sql_lines]. *)
Fixpoint sql_lines_of (lines : list string) : list string :=
  match lines with
  | [] => []
  | line :: rest =>
      let line := strip line in
      if keep_line line then line :: sql_lines_of rest
      else sql_lines_of rest
  end.

(** The markdown branch of [_clean_sql_response]. *)
Definition unfence (sql : string) : result string :=
  if contains "```sql" sql then
    a <- index (split "```sql" sql) 1 ;
    b <- index (split "```" a) 0 ;
    mret (strip b)
  else if contains "```" sql then
    a <- index (split "```" sql) 1 ;
    mret (strip a)
  else mret sql.

(** The last step of [_clean_sql_response]: ensure a final semicolon. *)
Definition ensure_semicolon (sql : string) : string :=
  if negb (endswith ";" (rstrip sql)) then rstrip sql +:+ ";" else sql.

Definition clean_str (response : string) : result string :=
  let sql := strip response in
  sql <- unfence sql ;
  let lines := split nl sql in
  let sql_lines := sql_lines_of lines in
  let sql := join nl sql_lines in
  mret (ensure_semicolon sql).

Definition _clean_sql_response (response : Content) : result string :=
  match response with
  | ContentStr s => clean_str s
  | ContentOther => Raises AttributeError
  end.

(** [re.search(r'under\s+(\d+)', s)], returning [group(1)].  The classes
    [\s] and [\d] are disjoint, so the greedy [\s+] never has to give a
    character back: a match at a position is "under", the longest run of
    whitespace (at least one), the longest run of digits (at least one). *)
Definition match_under_at (s : string) : option string :=
  if startswith "under" s then
    let '(ws, r) := span is_space (drop 5 s) in
    if is_empty ws then None
    else
      let '(ds, _) := span is_digit r in
      if is_empty ds then None else Some ds
  else None.

Fixpoint search_under (s : string) : option string :=
  match match_under_at s with
  | Some d => Some d
  | None =>
      match s with
      | EmptyString => None
      | String _ s' => search_under s'
      end
  end.

Definition drop_all_tables_sql : string :=
  "-- Drop all tables (CASCADE handles dependencies)" +:+ nl +:+
  "    DROP TABLE IF EXISTS orders CASCADE;" +:+ nl +:+
  "    DROP TABLE IF EXISTS users CASCADE;" +:+ nl +:+
  "    DROP TABLE IF EXISTS query_history CASCADE;".

Definition city_filter_sql : string :=
  "SELECT * FROM users WHERE city = 'New York' LIMIT 10;".

Definition age_filter_sql (age : string) : string :=
  "SELECT * FROM users WHERE age < " +:+ age +:+ " LIMIT 10;".

Definition generic_fallback_sql (question : string) : string :=
  "-- Fallback query for: " +:+ question +:+ nl +:+
  "SELECT * FROM users LIMIT 10;".

Definition _fallback_sql (question : string) : string :=
  let question_lower := lower question in
  if (contains "delete" question_lower || contains "drop" question_lower)
     && contains "table" question_lower then
    if contains "all" question_lower then drop_all_tables_sql
    else "-- Example: DROP TABLE table_name CASCADE;" +:+ nl +:+
         "SELECT 'Specify which table to drop' as message;"
  else if contains "users" question_lower && contains "city" question_lower then
    city_filter_sql
  else if contains "orders" question_lower
          && (contains "amount" question_lower || contains "price" question_lower) then
    "SELECT * FROM orders WHERE amount > 100 ORDER BY amount DESC LIMIT 10;"
  else if contains "count" question_lower && contains "users" question_lower then
    "SELECT COUNT(*) as user_count FROM users;"
  else if contains "join" question_lower
          || (contains "users" question_lower && contains "orders" question_lower) then
    "SELECT u.name, o.product, o.amount FROM users u JOIN orders o ON u.id = o.user_id LIMIT 10;"
  else if contains "under" question_lower && contains "age" question_lower then
    match search_under question_lower with
    | Some age => age_filter_sql age
    | None => "SELECT * FROM users WHERE age < 25 LIMIT 10;"
    end
  else generic_fallback_sql question.

(** ** The world of the services: collection, history, call log *)

(** A metadata value as the services write it. *)
Inductive MetaValue : Type :=
  | MStr (s : string)
  | MBool (b : bool)
  | MList (l : list string).

Definition Metadata : Type := list (string * MetaValue).

(** A document of the collection, stored under its id. *)
Record Document : Type := {
  doc_content : string;
  doc_metadata : Metadata
}.

(** An entry of [knowledge_items]: a dict with the keys "id", "content"
    and "metadata". *)
Record KnowledgeItem : Type := {
  item_id : string;
  item_content : string;
  item_metadata : Metadata
}.

(** An entry of the context list: a dict with the keys "content" and
    "metadata". *)
Record ContextItem : Type := {
  content : string;
  metadata : Metadata
}.

(** The answer of [collection.query]: one list per query text. *)
Record QueryResult : Type := {
  documents : list (list string);
  metadatas : list (list Metadata)
}.

(** A row of the [query_history] table. *)
Record QueryHistory : Type := {
  natural_query : string;
  generated_sql : string;
  history_status : string
}.

(** The calls that leave the process. *)
Inductive Call : Type :=
  | CallCount
  | CallAdd (ids : list string)
  | CallGet (ids : list string)
  | CallQuery (query_texts : list string) (n_results : Z)
  | CallInvoke (prompt : string).

Record World : Type := {
  collection : gmap string Document;
  history : list QueryHistory;
  calls : list Call
}.

(** A computation reads and updates the world, and returns or raises;
    what it did to the world before raising stays done. *)
Definition M (A : Type) : Type := World -> result A * World.

#[global] Instance M_ret : MRet M := fun A a w => (Returns a, w).
#[global] Instance M_bind : MBind M := fun A B f m w =>
  match m w with
  | (Returns a, w') => f a w'
  | (Raises e, w') => (Raises e, w')
  end.

(** [try: body except Exception as e: handler e] *)
Definition try_except {A : Type} (body : M A) (handler : exn -> M A) : M A :=
  fun w =>
    match body w with
    | (Returns a, w') => (Returns a, w')
    | (Raises e, w') => handler e w'
    end.

Definition lift {A : Type} (r : result A) : M A := fun w => (r, w).

Definition log (c : Call) : M unit :=
  fun w => (Returns tt,
            {| collection := collection w; history := history w;
               calls := calls w ++ [c] |}).

Definition get_collection : M (gmap string Document) :=
  fun w => (Returns (collection w), w).

Definition put_collection (m : gmap string Document) : M unit :=
  fun w => (Returns tt,
            {| collection := m; history := history w; calls := calls w |}).

Definition is_nil {A : Type} (l : list A) : bool :=
  match l with [] => true | _ :: _ => false end.

(** [str(e)] *)
Definition exn_message (e : exn) : string :=
  match e with
  | IndexError => "list index out of range"
  | AttributeError => "object has no attribute 'strip'"
  | UnicodeEncodeError msg => msg
  | BackendError msg => msg
  end.

(** ** rag_service.py *)

(** A column as [inspector.get_columns] describes it; [col_type] is the
    type as the f-string renders it. *)
Record Column : Type := {
  col_name : string;
  col_type : string;
  col_nullable : bool
}.

Definition relationship_items : list KnowledgeItem :=
  [
    {| item_id := "users_orders_relationship";
       item_content := "users and orders tables are related through user_id. orders.user_id is a foreign key referencing users.id. To get user information with their orders, use JOIN: SELECT u.name, o.product FROM users u JOIN orders o ON u.id = o.user_id";
       item_metadata := [("type", MStr "relationship"); ("tables", MStr "users,orders")] |}
  ].

Definition query_patterns : list KnowledgeItem :=
  [
    {| item_id := "basic_select";
       item_content := "To show all records from a table: SELECT * FROM table_name LIMIT 10";
       item_metadata := [("type", MStr "pattern"); ("intent", MStr "basic_select")] |};
    {| item_id := "filter_by_column";
       item_content := "To filter records by a column value: SELECT * FROM table_name WHERE column_name = 'value'";
       item_metadata := [("type", MStr "pattern"); ("intent", MStr "filter")] |};
    {| item_id := "count_records";
       item_content := "To count records: SELECT COUNT(*) FROM table_name. To count by group: SELECT column_name, COUNT(*) FROM table_name GROUP BY column_name";
       item_metadata := [("type", MStr "pattern"); ("intent", MStr "count")] |};
    {| item_id := "join_tables";
       item_content := "To join users with orders: SELECT u.name, u.email, o.product, o.amount FROM users u JOIN orders o ON u.id = o.user_id";
       item_metadata := [("type", MStr "pattern"); ("intent", MStr "join")] |};
    {| item_id := "aggregation";
       item_content := "For aggregations like sum, average: SELECT SUM(amount) as total, AVG(amount) as average FROM orders. Group by user: SELECT u.name, SUM(o.amount) as total FROM users u JOIN orders o ON u.id = o.user_id GROUP BY u.id, u.name";
       item_metadata := [("type", MStr "pattern"); ("intent", MStr "aggregation")] |};
    {| item_id := "sorting";
       item_content := "To sort results: SELECT * FROM table_name ORDER BY column_name ASC/DESC. For latest records: ORDER BY date_column DESC LIMIT 10";
       item_metadata := [("type", MStr "pattern"); ("intent", MStr "sorting")] |}
  ].

Definition examples : list KnowledgeItem :=
  [
    {| item_id := "users_by_city";
       item_content := "To find users from a specific city: SELECT * FROM users WHERE city = 'New York'. To find users from multiple cities: SELECT * FROM users WHERE city IN ('New York', 'Chicago')";
       item_metadata := [("type", MStr "example"); ("intent", MStr "location_filter")] |};
    {| item_id := "orders_by_amount";
       item_content := "To find orders above certain amount: SELECT * FROM orders WHERE amount > 500. To find expensive orders with user info: SELECT u.name, o.product, o.amount FROM users u JOIN orders o ON u.id = o.user_id WHERE o.amount > 500";
       item_metadata := [("type", MStr "example"); ("intent", MStr "amount_filter")] |};
    {| item_id := "recent_orders";
       item_content := "To find recent orders: SELECT * FROM orders ORDER BY order_date DESC LIMIT 10. To find orders from specific date: SELECT * FROM orders WHERE order_date >= '2024-01-01'";
       item_metadata := [("type", MStr "example"); ("intent", MStr "recent_data")] |};
    {| item_id := "user_order_summary";
       item_content := "To get user order summary: SELECT u.name, COUNT(o.id) as order_count, SUM(o.amount) as total_spent FROM users u LEFT JOIN orders o ON u.id = o.user_id GROUP BY u.id, u.name";
       item_metadata := [("type", MStr "example"); ("intent", MStr "user_summary")] |};
    {| item_id := "top_customers";
       item_content := "To find top customers by spending: SELECT u.name, SUM(o.amount) as total_spent FROM users u JOIN orders o ON u.id = o.user_id GROUP BY u.id, u.name ORDER BY total_spent DESC LIMIT 10";
       item_metadata := [("type", MStr "example"); ("intent", MStr "top_customers")] |};
    {| item_id := "age_filter";
       item_content := "To filter users by age: SELECT * FROM users WHERE age > 25. To find users in age range: SELECT * FROM users WHERE age BETWEEN 25 AND 50";
       item_metadata := [("type", MStr "example"); ("intent", MStr "age_filter")] |}
  ].

Definition postgres_tips : list KnowledgeItem :=
  [
    {| item_id := "postgres_string_matching";
       item_content := "For PostgreSQL string matching: Use LIKE for patterns (LIKE '%pattern%'), ILIKE for case-insensitive matching, or ~ for regex matching";
       item_metadata := [("type", MStr "tip"); ("intent", MStr "string_matching")] |};
    {| item_id := "postgres_date_functions";
       item_content := "PostgreSQL date functions: Use CURRENT_DATE for today, EXTRACT(YEAR FROM date_column) for year, DATE_TRUNC('month', date_column) for month grouping";
       item_metadata := [("type", MStr "tip"); ("intent", MStr "date_functions")] |};
    {| item_id := "postgres_limits";
       item_content := "Always use LIMIT in PostgreSQL for large result sets. For pagination, use LIMIT with OFFSET: SELECT * FROM table LIMIT 10 OFFSET 20";
       item_metadata := [("type", MStr "tip"); ("intent", MStr "pagination")] |}
  ].

(** [_get_table_description] *)
Definition _get_table_description (table_name : string) : string :=
  if String.eqb table_name "users" then
    "customer information including personal details and location"
  else if String.eqb table_name "orders" then
    "purchase records with product details and amounts"
  else if String.eqb table_name "query_history" then
    "system log of generated SQL queries"
  else "data records".

Definition col_desc (col : Column) : string :=
  let d := col_name col +:+ " (" +:+ col_type col in
  let d := if negb (col_nullable col) then d +:+ ", NOT NULL" else d in
  let d := if String.eqb (col_name col) "id" then d +:+ ", PRIMARY KEY" else d in
  d +:+ ")".

Definition schema_item (table_name : string) (columns : list Column)
  : KnowledgeItem :=
  {| item_id := table_name +:+ "_schema";
     item_content :=
       table_name +:+ " table contains columns: " +:+
       join ", " (map col_desc columns) +:+
       ". This table is used for storing " +:+
       _get_table_description table_name +:+ ".";
     item_metadata := [("type", MStr "schema"); ("table", MStr table_name)] |}.

(** The metadata cleaning of [populate_knowledge_base]: scalars are kept,
    a list becomes its comma-joined string. *)
Definition clean_metadata_value (value : MetaValue) : MetaValue :=
  match value with
  | MStr s => MStr s
  | MBool b => MBool b
  | MList l => MStr (join "," l)
  end.

Definition clean_metadata (metadata : Metadata) : Metadata :=
  map (fun kv => (fst kv, clean_metadata_value (snd kv))) metadata.

(** [collection.add] of one record when the call does not fail: an id
    that is already stored is left as it is. *)
Definition store_doc (m : gmap string Document) (rec : string * Document)
  : gmap string Document :=
  match m !! fst rec with
  | Some _ => m
  | None => <[fst rec := snd rec]> m
  end.

(** Documents by increasing distance to the query text. *)
Definition closer (dist : string -> nat) (a b : Document) : Prop :=
  (dist (doc_content a) <= dist (doc_content b))%nat.

#[global] Instance closer_dec (dist : string -> nat) : RelDecision (closer dist) :=
  fun a b => le_dec (dist (doc_content a)) (dist (doc_content b)).

Definition rank (dist : string -> nat) (docs : list Document) : list Document :=
  merge_sort (closer dist) docs.

(** The metadata of a learned example. *)
Definition learned_metadata : Metadata :=
  [("type", MStr "learned_example"); ("success", MBool true)].

(** The [n] documents of the collection nearest to the text, nearest
    first. *)
Definition nearest (distance : string -> string -> nat)
    (m : gmap string Document) (text : string) (n : Z) : list Document :=
  firstn (Z.to_nat n) (rank (distance text) (map snd (map_to_list m))).

(** What [EnhancedLLMService] uses of its [self.rag]. *)
Record RAG : Type := {
  rag_retrieve_context : string -> Z -> M (list ContextItem);
  rag_add_successful_query : string -> string -> M unit
}.

Section RAGService.

(** What lies outside the repository: the outcome of the database
    introspection helpers, the JSON serializer, the embedding distance of
    the collection, Python's string hash, and which calls to the
    collection fail. *)
Variable Row : Type.
Variable schema_info : list (string * list Column).
Variable sample_data : list (string * list Row).
Variable json_dumps : list Row -> result string.
Variable hash : string -> Z.
Variable distance : string -> string -> nat.
Variable count_raises : gmap string Document -> bool.
Variable add_raises :
  gmap string Document -> list string -> list Metadata -> list string -> bool.
Variable get_raises : gmap string Document -> list string -> bool.
Variable query_raises : gmap string Document -> list string -> Z -> bool.

(** [self.collection.count()] *)
Definition collection_count : M nat :=
  _ <- log CallCount;
  m <- get_collection;
  if count_raises m then lift (Raises (BackendError "count"))
  else mret (size m).

(** [self.collection.add(documents=, metadatas=, ids=)] *)
Definition collection_add (docs : list string) (metas : list Metadata)
    (ids : list string) : M unit :=
  _ <- log (CallAdd ids);
  m <- get_collection;
  if add_raises m docs metas ids
     || negb (length docs =? length ids)%nat
     || negb (length metas =? length ids)%nat
  then lift (Raises (BackendError "add"))
  else
    put_collection
      (foldl store_doc m
         (zip ids (zip_with Build_Document docs metas))).

(** [self.collection.get(ids=)['ids']] *)
Definition collection_get (ids : list string) : M (list string) :=
  _ <- log (CallGet ids);
  m <- get_collection;
  if get_raises m ids then lift (Raises (BackendError "get"))
  else mret (List.filter (fun i => bool_decide (is_Some (m !! i))) ids).

(** [self.collection.query(query_texts=, n_results=)] *)
Definition collection_query (query_texts : list string) (n_results : Z)
  : M QueryResult :=
  _ <- log (CallQuery query_texts n_results);
  m <- get_collection;
  if query_raises m query_texts n_results
  then lift (Raises (BackendError "query"))
  else
    let found t := nearest distance m t n_results in
    mret {| documents := map (fun t => map doc_content (found t)) query_texts;
            metadatas := map (fun t => map doc_metadata (found t)) query_texts |}.

(** The loop over [sample_data.items()]. *)
Fixpoint sample_items (data : list (string * list Row)) : list KnowledgeItem :=
  match data with
  | [] => []
  | (table_name, samples) :: rest =>
      if is_nil samples then sample_items rest
      else
        match json_dumps (firstn 3 samples) with
        | Returns sample_str =>
            {| item_id := table_name +:+ "_samples";
               item_content :=
                 "Sample data from " +:+ table_name +:+ " table: " +:+ sample_str;
               item_metadata :=
                 [("type", MStr "sample_data"); ("table", MStr table_name)] |}
            :: sample_items rest
        | Raises _ => sample_items rest
        end
  end.

Definition knowledge_items : list KnowledgeItem :=
  map (fun tc => schema_item (fst tc) (snd tc)) schema_info
  ++ sample_items sample_data
  ++ relationship_items
  ++ query_patterns
  ++ examples
  ++ postgres_tips.

(** The loop of the [except] branch: the items one by one, counting the
    successes. *)
Fixpoint add_individually (items : list KnowledgeItem) (success_count : nat)
  : M nat :=
  match items with
  | [] => mret success_count
  | item :: rest =>
      n <- try_except
             (_ <- collection_add [item_content item]
                     [clean_metadata (item_metadata item)]
                     [item_id item];
              mret (S success_count))
             (fun _ => mret success_count);
      add_individually rest n
  end.

Definition populate_knowledge_base : M unit :=
  n <- collection_count;
  if (0 <? n)%nat then
    _ <- collection_count;
    mret tt
  else
    try_except
      (collection_add (map item_content knowledge_items)
         (map clean_metadata (map item_metadata knowledge_items))
         (map item_id knowledge_items))
      (fun _ => _ <- add_individually knowledge_items 0; mret tt).

Definition retrieve_context (query : string) (top_k : Z)
  : M (list ContextItem) :=
  try_except
    (results <- collection_query [query] top_k;
     if negb (is_nil (documents results)) then
       docs0 <- lift (index (documents results) 0);
       if negb (is_nil docs0) then
         metas0 <- lift (index (metadatas results) 0);
         mret (zip_with Build_ContextItem docs0 metas0)
       else mret []
     else mret [])
    (fun _ => mret []).

(** [f"learned_{hash(question + sql)}"] *)
Definition query_id (question sql : string) : string :=
  "learned_" +:+ str_of_int (hash (question +:+ sql)).

Definition learned_document (question sql : string) : string :=
  "Question: '" +:+ question +:+ "' generates SQL: " +:+ sql.

Definition add_successful_query (question sql : string) : M unit :=
  try_except
    (let query_id := query_id question sql in
     already <- try_except
                  (existing <- collection_get [query_id];
                   mret (negb (is_nil existing)))
                  (fun _ => mret false);
     if already : bool then mret tt
     else
       collection_add [learned_document question sql]
         [learned_metadata]
         [query_id])
    (fun _ => mret tt).

(** The methods of the service that [EnhancedLLMService] calls. *)
Definition rag_service : RAG :=
  {| rag_retrieve_context := retrieve_context;
     rag_add_successful_query := add_successful_query |}.

End RAGService.

(** ** llm_service.py: the orchestrator *)

(** [_build_rag_prompt] *)
Definition _build_rag_prompt (question : string) (context : list ContextItem)
  : string :=
  let context_sections := map (fun item => "- " +:+ content item) context in
  let context_text := join nl context_sections in
  join nl
    [ "You are a PostgreSQL expert. Generate accurate SQL queries based on the provided database knowledge.";
      "";
      "RELEVANT DATABASE KNOWLEDGE:";
      context_text;
      "";
      "IMPORTANT RULES:";
      "1. Return ONLY the SQL query, no explanations or markdown";
      "2. Use proper PostgreSQL syntax";
      "3. Include appropriate JOINs when querying multiple tables";
      "4. Add LIMIT clause for SELECT * queries (typically LIMIT 10)";
      "5. Use table aliases for better readability";
      "6. For aggregations, use proper GROUP BY clauses";
      "7. Use single quotes for string literals";
      "8. End query with semicolon";
      "";
      "USER QUESTION: " +:+ question;
      "";
      "SQL QUERY:" ].

(** The statement returned when no model is configured. *)
Definition no_model_sql (question : string) : string :=
  "-- No API key configured" +:+ nl +:+
  "-- Generated from: " +:+ question +:+ nl +:+
  "SELECT * FROM users LIMIT 5;".

(** [QueryResponse] of the endpoint. *)
Record QueryResponse : Type := {
  sql : string;
  status : string;
  error : option string
}.

Section LLMService.

(** [self.rag] *)
Variable rag : RAG.

(** [self.llm]: [None], or a model; the function gives, for a prompt,
    the [content] of the response of [invoke], or the exception that
    [invoke] raises. *)
Variable llm : option (string -> result Content).

(** Whether [db.commit()] of the endpoint fails. *)
Variable commit_raises : bool.

(** [self.llm.invoke(prompt).content] *)
Definition llm_invoke (model : string -> result Content) (prompt : string)
  : M Content :=
  _ <- log (CallInvoke prompt);
  lift (model prompt).

(** The body of the [try] block of [generate_sql], its output left out
    (with its output: [Console.generate_sql_try]). *)
Definition generate_sql_try (question : string) : M string :=
  match llm with
  | None => mret (no_model_sql question)
  | Some model =>
      context <- rag_retrieve_context rag question 3;
      let prompt := _build_rag_prompt question context in
      response <- llm_invoke model prompt;
      sql <- lift (_clean_sql_response response);
      mret sql
  end.

(** [generate_sql], its output left out (with its output:
    [Console.generate_sql]). *)
Definition generate_sql (question db_uri : string) : M string :=
  try_except (generate_sql_try question)
             (fun _ => mret (_fallback_sql question)).

Definition learn_from_query (question sql : string) (success : bool)
  : M unit :=
  if success then rag_add_successful_query rag question sql
  else mret tt.

(** [db.add(history); db.commit()] *)
Definition save_history (h : QueryHistory) : M unit :=
  fun w =>
    if commit_raises then (Raises (BackendError "commit"), w)
    else (Returns tt,
          {| collection := collection w; history := history w ++ [h];
             calls := calls w |}).

(** [generate_sql_endpoint] of the API, its output left out (with its
    output: [Console.generate_sql_endpoint]). *)
Definition generate_sql_endpoint (natural_query db_uri : string)
  : M QueryResponse :=
  try_except
    (sql <- generate_sql natural_query db_uri;
     _ <- save_history {| natural_query := natural_query;
                          generated_sql := sql;
                          history_status := "success" |};
     mret {| sql := sql; status := "success"; error := None |})
    (fun e => mret {| sql := ""; status := "error";
                      error := Some (exn_message e) |}).

End LLMService.

(** ** Console output

    Every function of [llm_service.py] prints progress lines.  [print]
    writes the text and then the line feed to [sys.stdout], and
    [sys.stdout] raises when it cannot take a text: [UnicodeEncodeError]
    when its encoding has no form for one of the characters.  The
    definitions above leave the output out: they are the functions as they
    run on a stdout that takes every text.  [Module Console] has the
    functions with their output, line by line; the first [print] of
    [generate_sql] comes before its [try] block, and the handler of the
    [try] block prints too.  A printed text is a list of code points, so
    that the symbols of the log lines, which are not below U+0100, can be
    written. *)

Module Console.

Definition Text : Type := list N.

(** The code points of a [str]. *)
Definition text (s : string) : Text := map N_of_ascii (list_ascii_of_string s).

(** The symbols that open the log lines. *)
Definition direct_hit : Text := [0x1F3AF%N].
Definition cross_mark : Text := [0x274C%N].
Definition check_mark : Text := [0x2705%N].
Definition magnifying_glass : Text := [0x1F50D%N].
Definition books : Text := [0x1F4DA%N].
Definition clipboard : Text := [0x1F4CB%N].
Definition warning_sign : Text := [0x26A0%N; 0xFE0F%N].
Definition memo : Text := [0x1F4DD%N].
Definition robot : Text := [0x1F916%N].
Definition party_popper : Text := [0x1F389%N].
Definition pushpin : Text := [0x1F4CD%N].
Definition arrows : Text := [0x1F504%N].
Definition hammer : Text := [0x1F528%N].
Definition broom : Text := [0x1F9F9%N].
Definition wrench : Text := [0x1F527%N].

(** [str(n)] for a length or a count. *)
Definition str_of_nat (n : nat) : string := str_of_int (Z.of_nat n).

(** Line 81, printed before the [try] block of [generate_sql]. *)
Definition start_line (question : string) : Text :=
  direct_hit ++ text (" Starting SQL generation for: '" +:+ question +:+ "'").

(** Line 86. *)
Definition no_key_line : Text :=
  cross_mark ++ text " LLM is None - no API key configured".

(** Lines 208 and 240, printed by [_fallback_sql]. *)
Definition fallback_start_line (question : string) : Text :=
  arrows ++ text (" Generating fallback SQL for: '" +:+ question +:+ "'").
Definition fallback_done_line (fallback : string) : Text :=
  clipboard ++ text (" Generated fallback: " +:+ fallback).

(** Line 19 of [sql_generator.py], printed by the handler of the
    endpoint. *)
Definition endpoint_error_line (e : exn) : Text :=
  text ("SQL Generation Error: " +:+ exn_message e).

Section Output.

(** [sys.stdout.write]: the text is taken, or an exception is raised. *)
Variable stdout : Text -> result unit.

(** [type(e).__name__] *)
Variable type_name : exn -> string.

(** For a response content that is not a [str] (a list of content
    parts): [str(content)], [str(content[:100])] and
    [str(type(content))]. *)
Variable other_str : string.
Variable other_slice_str : string.
Variable other_type_str : string.

(** [print(t)]: [file.write(t)], then [file.write("\n")]. *)
Definition print (t : Text) : M unit :=
  _ <- lift (stdout t);
  lift (stdout (text nl)).

(** Lines 128 to 136, printed by the handler of [generate_sql]
    ([traceback.print_exc()] writes to [sys.stderr], which escapes what it
    cannot encode); the lines of [_fallback_sql] are among them. *)
Definition handler_lines (e : exn) (question : string) : list Text :=
  [ cross_mark ++ text " EXCEPTION in generate_sql:";
    text ("   Error: " +:+ exn_message e);
    text ("   Type: " +:+ type_name e);
    pushpin ++ text " Full traceback:";
    fallback_start_line question;
    fallback_done_line (_fallback_sql question);
    arrows ++ text (" Returning fallback: " +:+ _fallback_sql question) ].

(** [_build_rag_prompt], lines 139 to 170. *)
Definition _build_rag_prompt (question : string) (context : list ContextItem)
  : M string :=
  _ <- print (hammer ++ text (" Building prompt with " +:+
                              str_of_nat (length context) +:+ " context items"));
  let prompt := _build_rag_prompt question context in
  _ <- print (check_mark ++ text " Prompt built successfully");
  mret prompt.

(** [_clean_sql_response], lines 172 to 202. *)
Definition _clean_sql_response (response : Content) : M string :=
  _ <- print (broom ++ text (" Cleaning SQL response: '" +:+
                             match response with
                             | ContentStr s => take 100 s
                             | ContentOther => other_slice_str
                             end +:+ "...'"));
  match response with
  | ContentOther => lift (Raises AttributeError)
  | ContentStr s =>
      let sql := strip s in
      sql <- (if contains "```sql" sql then
                a <- lift (index (split "```sql" sql) 1);
                b <- lift (index (split "```" a) 0);
                _ <- print (wrench ++ text " Removed SQL markdown formatting");
                mret (strip b)
              else if contains "```" sql then
                a <- lift (index (split "```" sql) 1);
                _ <- print (wrench ++ text " Removed generic markdown formatting");
                mret (strip a)
              else mret sql);
      let lines := split nl sql in
      let sql_lines := sql_lines_of lines in
      let sql := join nl sql_lines in
      sql <- (if negb (endswith ";" (rstrip sql)) then
                _ <- print (wrench ++ text " Added semicolon");
                mret (rstrip sql +:+ ";")
              else mret sql);
      _ <- print (check_mark ++ text (" SQL cleaned: '" +:+ sql +:+ "'"));
      mret sql
  end.

(** [_fallback_sql], lines 206 to 241. *)
Definition _fallback_sql (question : string) : M string :=
  _ <- print (fallback_start_line question);
  let fallback := _fallback_sql question in
  _ <- print (fallback_done_line fallback);
  mret fallback.

(** The loop of lines 98 and 99, over [enumerate(context[:2])]; [n] is
    [i + 1]. *)
Fixpoint print_preview (n : nat) (items : list ContextItem) : M unit :=
  match items with
  | [] => mret tt
  | item :: rest =>
      _ <- print (text ("   " +:+ str_of_nat n +:+ ". " +:+
                        take 100 (content item) +:+ "..."));
      print_preview (S n) rest
  end.

Variable rag : RAG.
Variable llm : option (string -> result Content).
Variable commit_raises : bool.

(** The body of the [try] block of [generate_sql], lines 84 to 125. *)
Definition generate_sql_try (question : string) : M string :=
  match llm with
  | None =>
      _ <- print no_key_line;
      mret (no_model_sql question)
  | Some model =>
      _ <- print (check_mark ++ text " LLM is available, proceeding with RAG + Gemini");
      _ <- print (magnifying_glass ++ text (" Retrieving context for: " +:+ question));
      context <- rag_retrieve_context rag question 3;
      _ <- print (books ++ text (" Retrieved " +:+ str_of_nat (length context) +:+
                                 " context items"));
      _ <- (if (0 <? length context)%nat then
              _ <- print (clipboard ++ text " Context preview:");
              print_preview 1 (firstn 2 context)
            else print (warning_sign ++ text " No context retrieved from RAG"));
      prompt <- _build_rag_prompt question context;
      _ <- print (memo ++ text (" Built prompt (length: " +:+
                                str_of_nat (String.length prompt) +:+ " chars)"));
      _ <- print (memo ++ text (" Prompt preview: " +:+ take 200 prompt +:+ "..."));
      _ <- print (robot ++ text " Calling Gemini API...");
      response <- llm_invoke model prompt;
      _ <- print (robot ++ text (" RAW Gemini response: '" +:+
                                 match response with
                                 | ContentStr s => s
                                 | ContentOther => other_str
                                 end +:+ "'"));
      _ <- print (robot ++ text (" Response type: " +:+
                                 match response with
                                 | ContentStr _ => "<class 'str'>"
                                 | ContentOther => other_type_str
                                 end));
      sql <- _clean_sql_response response;
      _ <- print (check_mark ++ text (" CLEANED SQL: '" +:+ sql +:+ "'"));
      _ <- print (check_mark ++ text (" SQL length: " +:+
                                      str_of_nat (String.length sql) +:+ " chars"));
      _ <- (if contains "Fallback query for:" sql then
              print (warning_sign ++ text " This is a FALLBACK query, not AI-generated!")
            else print (party_popper ++ text " This is AI-GENERATED SQL!"));
      mret sql
  end.

(** [generate_sql], lines 79 to 137. *)
Definition generate_sql (question db_uri : string) : M string :=
  _ <- print (start_line question);
  try_except (generate_sql_try question)
    (fun e =>
       _ <- print (cross_mark ++ text " EXCEPTION in generate_sql:");
       _ <- print (text ("   Error: " +:+ exn_message e));
       _ <- print (text ("   Type: " +:+ type_name e));
       _ <- print (pushpin ++ text " Full traceback:");
       fallback <- _fallback_sql question;
       _ <- print (arrows ++ text (" Returning fallback: " +:+ fallback));
       mret fallback).

(** [generate_sql_endpoint] of the API, lines 14 to 33 of
    [sql_generator.py]. *)
Definition generate_sql_endpoint (natural_query db_uri : string)
  : M QueryResponse :=
  try_except
    (sql <- generate_sql natural_query db_uri;
     _ <- save_history commit_raises
            {| natural_query := natural_query;
               generated_sql := sql;
               history_status := "success" |};
     mret {| sql := sql; status := "success"; error := None |})
    (fun e =>
       _ <- print (endpoint_error_line e);
       mret {| sql := ""; status := "error"; error := Some (exn_message e) |}).

(** [stdout] takes the line [t]: the text and the line feed. *)
Definition accepted (t : Text) : Prop :=
  stdout t = Returns tt /\ stdout (text nl) = Returns tt.

End Output.

(** Two digits of a code point in hexadecimal, lower case. *)
Definition hex_digit (n : N) : ascii :=
  match String.get (N.to_nat n) "0123456789abcdef" with
  | Some c => c
  | None => "0"%char
  end.

Fixpoint hex (width : nat) (n : N) : string :=
  match width with
  | O => ""
  | S k => hex k (n / 16)%N +:+ String (hex_digit (n mod 16)%N) ""
  end.

(** The character as [str] of a [UnicodeEncodeError] shows it. *)
Definition escape (c : N) : string :=
  if (c <? 256)%N then "\x" +:+ hex 2 c
  else if (c <? 65536)%N then "\u" +:+ hex 4 c
  else "\U" +:+ hex 8 c.

(** The run of rejected code points at the head of a text. *)
Fixpoint rejected_run (encodes : N -> bool) (t : Text) : nat :=
  match t with
  | [] => 0
  | c :: rest => if encodes c then 0 else S (rejected_run encodes rest)
  end.

(** The first code point that the encoding rejects: its position, the
    code point and the length of the run of rejected code points that
    begins there. *)
Fixpoint first_rejected (encodes : N -> bool) (pos : nat) (t : Text)
  : option (nat * N * nat) :=
  match t with
  | [] => None
  | c :: rest =>
      if encodes c then first_rejected encodes (S pos) rest
      else Some (pos, c, S (rejected_run encodes rest))
  end.

(** [str(e)] of the [UnicodeEncodeError] of a codec. *)
Definition encode_error (encoding reason : string) (pos : nat) (c : N)
    (run : nat) : string :=
  "'" +:+ encoding +:+ "' codec can't encode " +:+
  (if (run =? 1)%nat then
     "character '" +:+ escape c +:+ "' in position " +:+ str_of_nat pos
   else
     "characters in position " +:+ str_of_nat pos +:+ "-" +:+
     str_of_nat (pos + run - 1)) +:+
  ": " +:+ reason.

(** A stdout with a strict encoder: it takes the texts made of the code
    points that the encoding has, and raises on the others. *)
Definition codec_stdout (encoding reason : string) (encodes : N -> bool)
  : Text -> result unit :=
  fun t =>
    match first_rejected encodes 0 t with
    | None => Returns tt
    | Some (pos, c, run) =>
        Raises (UnicodeEncodeError (encode_error encoding reason pos c run))
    end.

(** UTF-8 has every code point but the surrogates; ASCII has those below
    128. *)
Definition utf8_stdout : Text -> result unit :=
  codec_stdout "utf-8" "surrogates not allowed"
    (fun c => negb ((0xD800 <=? c) && (c <=? 0xDFFF))%N).

Definition ascii_stdout : Text -> result unit :=
  codec_stdout "ascii" "ordinal not in range(128)" (fun c => (c <? 128)%N).

(** The names of the exception types, with [Exception] for the
    exceptions of the services outside. *)
Definition exn_type_name (e : exn) : string :=
  match e with
  | IndexError => "IndexError"
  | AttributeError => "AttributeError"
  | UnicodeEncodeError _ => "UnicodeEncodeError"
  | BackendError _ => "Exception"
  end.

End Console.

(** ** Vocabulary of the specification *)

(** "Ends with [;], ignoring trailing whitespace": the test that
    [_clean_sql_response] itself applies.  A terminated string is not
    empty. *)
Definition terminated (s : string) : bool := endswith ";" (rstrip s).

(** "Stripped of markdown fencing": no fence marker is left. *)
Definition fence_free (s : string) : bool := negb (contains "```" s).

(** [s] is empty or begins with a character that is not whitespace:
    [s.lstrip() == s]. *)
Definition lstripped (s : string) : bool :=
  match s with
  | EmptyString => true
  | String c _ => negb (is_space c)
  end.

(** A line as the loop of [_clean_sql_response] keeps it, of a text that
    has no fence marker: stripped, kept by the test of the loop, without
    line feed and without fence marker. *)
Definition kept_line (l : string) : bool :=
  lstripped l && String.eqb (rstrip l) l && keep_line l
  && negb (contains nl l) && negb (contains "```" l).





(** The keyword rules of the fallback generator, on the lower-cased
    question, in the order in which [_fallback_sql] tests them. *)
Definition rule_drop (ql : string) : bool :=
  (contains "delete" ql || contains "drop" ql) && contains "table" ql.
Definition rule_city (ql : string) : bool :=
  contains "users" ql && contains "city" ql.
Definition rule_amount (ql : string) : bool :=
  contains "orders" ql && (contains "amount" ql || contains "price" ql).
Definition rule_count (ql : string) : bool :=
  contains "count" ql && contains "users" ql.
Definition rule_join (ql : string) : bool :=
  contains "join" ql || (contains "users" ql && contains "orders" ql).
Definition rule_age (ql : string) : bool :=
  contains "under" ql && contains "age" ql.

Definition matches_no_rule (question : string) : bool :=
  let ql := lower question in
  negb (rule_drop ql) && negb (rule_city ql) && negb (rule_amount ql)
  && negb (rule_count ql) && negb (rule_join ql) && negb (rule_age ql).

(** A world with an empty collection, no history and no call made, and a
    retrieval service over it that finds nothing and learns nothing. *)
Definition empty_world : World :=
  {| collection := ∅; history := []; calls := [] |}.

Definition silent_rag : RAG :=
  {| rag_retrieve_context := fun _ _ => mret [];
     rag_add_successful_query := fun _ _ => mret tt |}.

(** A computation only adds to the collection. *)
Definition grows {A : Type} (c : M A) : Prop :=
  forall w, collection w ⊆ collection (snd (c w)).

(** What a computation answers and what it leaves in the collection are
    decided by the collection it starts from (not by the history or by the
    calls made before). *)
Definition store_determined {A : Type} (c : M A) : Prop :=
  forall w1 w2,
    collection w1 = collection w2 ->
    fst (c w1) = fst (c w2)
    /\ collection (snd (c w1)) = collection (snd (c w2)).

Definition regular {A : Type} (c : M A) : Prop :=
  grows c /\ store_determined c.

(** A backend on which no call fails, a hash and a distance, for the
    examples. *)
Definition never_add :
  gmap string Document -> list string -> list Metadata -> list string -> bool :=
  fun _ _ _ _ => false.
Definition never_get : gmap string Document -> list string -> bool :=
  fun _ _ => false.
Definition never_query : gmap string Document -> list string -> Z -> bool :=
  fun _ _ _ => false.
Definition never_count : gmap string Document -> bool := fun _ => false.
Definition length_hash (s : string) : Z := Z.of_nat (String.length s).
Definition length_distance (text doc : string) : nat :=
  String.length text + String.length doc.

(** A world whose collection holds one document. *)
Definition one_document_world : World :=
  {| collection :=
       {[ "basic_select" :=
            {| doc_content := "To show all records from a table: SELECT * FROM table_name LIMIT 10";
               doc_metadata := [("type", MStr "pattern"); ("intent", MStr "basic_select")] |} ]};
     history := [];
     calls := [] |}.

(** ** Vocabulary of the further properties *)

(** Every character of [s] satisfies [p]. *)
Fixpoint all_chars (p : ascii -> bool) (s : string) : bool :=
  match s with
  | EmptyString => true
  | String c s' => p c && all_chars p s'
  end.

(** The three fixed parts of the prompt: before the context block,
    between the block and the question, and after the question. *)
Definition prompt_header : string :=
  "You are a PostgreSQL expert. Generate accurate SQL queries based on the provided database knowledge." +:+ nl +:+
  nl +:+
  "RELEVANT DATABASE KNOWLEDGE:".

Definition prompt_rules : string :=
  nl +:+
  nl +:+
  "IMPORTANT RULES:" +:+ nl +:+
  "1. Return ONLY the SQL query, no explanations or markdown" +:+ nl +:+
  "2. Use proper PostgreSQL syntax" +:+ nl +:+
  "3. Include appropriate JOINs when querying multiple tables" +:+ nl +:+
  "4. Add LIMIT clause for SELECT * queries (typically LIMIT 10)" +:+ nl +:+
  "5. Use table aliases for better readability" +:+ nl +:+
  "6. For aggregations, use proper GROUP BY clauses" +:+ nl +:+
  "7. Use single quotes for string literals" +:+ nl +:+
  "8. End query with semicolon" +:+ nl.

(** A metadata value that the collection accepts: a scalar. *)
Definition is_scalar (v : MetaValue) : bool :=
  match v with
  | MList _ => false
  | MStr _ | MBool _ => true
  end.

Definition scalar_metadata (metadata : Metadata) : Prop :=
  Forall (fun kv => is_scalar (snd kv) = true) metadata.

(** A computation keeps a property of the collection. *)
Definition preserves {A : Type} (I : gmap string Document -> Prop) (c : M A)
  : Prop :=
  forall w, I (collection w) -> I (collection (snd (c w))).

(** Every stored document has scalar metadata. *)
Definition all_scalar (m : gmap string Document) : Prop :=
  map_Forall (fun _ d => scalar_metadata (doc_metadata d)) m.

(** ** rag_service.py: statistics *)






Section Statistics.

Variable count_raises : gmap string Document -> bool.
Variable get_raises : gmap string Document -> list string -> bool.



End Statistics.

(** ** llm_service.py: setting up the model *)





Section LLMSetup.

(** [settings.google_api_key] *)
Variable google_api_key : option string.

(** [ChatGoogleGenerativeAI(model=, temperature=0, google_api_key=)]: the
    client for a model name and a key, or the exception of the
    constructor. *)
Variable ChatGoogleGenerativeAI :
  string -> string -> result (string -> result Content).






End LLMSetup.




(** ** rag_service.py: reading the relational database *)

(** A value of a row as the driver gives it: a [decimal.Decimal], a
    [datetime.date] or [datetime.datetime] (given by the text of its
    [isoformat()]), [None], or a value of another type. *)
Inductive DbValue : Type :=
  | DbDecimal (d : string)
  | DbDate (is_datetime : bool) (iso : string)
  | DbNone
  | DbOther (v : string).

(** A value ready for [json.dumps]: [JFloat d] stands for [float] of the
    decimal [d]. *)
Inductive JsonValue : Type :=
  | JFloat (d : string)
  | JString (s : string)
  | JNull
  | JOther (v : string).

(** A sample row after [_convert_row_to_json]. *)
Definition JsonRow : Type := list (string * JsonValue).

(** The branches of [_convert_row_to_json], in the order of the source.
    A [datetime] is a [date], so it takes the second branch. *)
Definition convert_value (value : DbValue) : JsonValue :=
  match value with
  | DbDecimal d => JFloat d
  | DbDate _ iso => JString iso
  | DbNone => JNull
  | DbOther v => JOther v
  end.

Definition _convert_row_to_json (row : list (string * DbValue)) : JsonRow :=
  map (fun kv => (fst kv, convert_value (snd kv))) row.

(** What the database answers.  [connect_raises] tells whether creating
    the engine or opening the connection fails.  [execute done query] is
    the answer to [conn.execute(text(query))] with the rows read, on a
    connection on which the statements [done] were executed before, in
    this order: what a statement gets can depend on what the connection
    has been through (PostgreSQL refuses every statement that follows a
    failed one until the transaction is rolled back). *)
Record Database : Type := {
  connect_raises : bool;
  get_table_names : result (list string);
  get_columns : string -> result (list Column);
  primary_key_flag : string -> string -> option bool;
  execute : list string -> string -> result (list (list (string * DbValue)))
}.

(** [d[key] = value] on a dict kept in insertion order. *)
Fixpoint dict_set {V : Type} (key : string) (value : V) (d : list (string * V))
  : list (string * V) :=
  match d with
  | [] => [(key, value)]
  | (k, v) :: rest =>
      if String.eqb k key then (k, value) :: rest
      else (k, v) :: dict_set key value rest
  end.

(** The value of a [try] block whose [except] branch returns a default. *)
Definition or_default {A : Type} (r : result A) (default : A) : A :=
  match r with
  | Returns a => a
  | Raises _ => default
  end.

Section DatabaseReaders.

Variable db : Database.

(** The loop of [_get_schema_info]. *)
Fixpoint collect_columns (names : list string)
    (schema_info : list (string * list Column))
  : result (list (string * list Column)) :=
  match names with
  | [] => Returns schema_info
  | table_name :: rest =>
      columns <- get_columns db table_name;
      collect_columns rest (dict_set table_name columns schema_info)
  end.

Definition _get_schema_info : list (string * list Column) :=
  or_default
    (if connect_raises db then Raises (BackendError "connect")
     else
       names <- get_table_names db;
       collect_columns names [])
    [].

(** One of the two inner [try] blocks of [_get_sample_data], on the
    connection that has executed [done]. *)
Definition sample_of (done : list string) (query : string) : list JsonRow :=
  or_default
    (rows <- execute db done query;
     mret (map _convert_row_to_json rows))
    [].

(** The two queries run on one connection, the second after the first,
    with no rollback between them. *)
Definition _get_sample_data : list (string * list JsonRow) :=
  or_default
    (if connect_raises db then Raises (BackendError "connect")
     else
       let sample_data := [] in
       let sample_data :=
         dict_set "users" (sample_of [] "SELECT * FROM users LIMIT 3")
           sample_data in
       let sample_data :=
         dict_set "orders"
           (sample_of ["SELECT * FROM users LIMIT 3"]
              "SELECT * FROM orders LIMIT 3")
           sample_data in
       Returns sample_data)
    [("users", []); ("orders", [])].

End DatabaseReaders.

(** [populate_knowledge_base] with the schema and the samples that the
    service reads from the database. *)
Definition populate_from_database (db : Database)
    (json_dumps : list JsonRow -> result string)
    (count_raises : gmap string Document -> bool)
    (add_raises :
       gmap string Document -> list string -> list Metadata -> list string -> bool)
  : M unit :=
  populate_knowledge_base JsonRow (_get_schema_info db) (_get_sample_data db)
    json_dumps count_raises add_raises.

(** ** sql_generator.py: reloading the schema *)

(** What an endpoint gives to the web framework: a value, or an
    [HTTPException] with its status code and detail. *)
Inductive http_result (A : Type) : Type :=
  | HttpOk (a : A)
  | HttpError (status_code : nat) (detail : string).
Arguments HttpOk {A} a.
Arguments HttpError {A} status_code detail.

(** A column of the "tables" list of [reload_schema]; the primary key
    flag is [col.get("primary_key", False)]. *)
Record ReloadedColumn : Type := {
  reloaded_col_name : string;
  reloaded_col_type : string;
  reloaded_col_nullable : bool;
  reloaded_col_primary_key : bool
}.

Record ReloadedTable : Type := {
  reloaded_name : string;
  reloaded_columns : list ReloadedColumn
}.

Record ReloadResponse : Type := {
  reload_success : bool;
  reload_message : string;
  reload_tables : list ReloadedTable
}.

Section ReloadSchema.

Variable db : Database.
Variable json_dumps : list JsonRow -> result string.
Variable count_raises : gmap string Document -> bool.
Variable add_raises :
  gmap string Document -> list string -> list Metadata -> list string -> bool.

Definition reloaded_column (table_name : string) (col : Column) : ReloadedColumn :=
  {| reloaded_col_name := col_name col;
     reloaded_col_type := col_type col;
     reloaded_col_nullable := col_nullable col;
     reloaded_col_primary_key :=
       match primary_key_flag db table_name (col_name col) with
       | Some flag => flag
       | None => false
       end |}.

(** The loop building [schema_info] in [reload_schema]. *)
Fixpoint inspect_tables (names : list string) : result (list ReloadedTable) :=
  match names with
  | [] => Returns []
  | table_name :: rest =>
      columns <- get_columns db table_name;
      tables <- inspect_tables rest;
      mret ({| reloaded_name := table_name;
               reloaded_columns := map (reloaded_column table_name) columns |}
            :: tables)
  end.

(** The part of [reload_schema] after the knowledge base. *)
Definition inspect_schema : result (list ReloadedTable) :=
  if connect_raises db then Raises (BackendError "connect")
  else
    names <- get_table_names db;
    inspect_tables names.

Definition reload_schema : World -> http_result ReloadResponse * World :=
  fun w =>
    let '(_, w1) :=
      try_except (populate_from_database db json_dumps count_raises add_raises)
        (fun _ => mret tt) w in
    match inspect_schema with
    | Returns schema_info =>
        (HttpOk
           {| reload_success := true;
              reload_message :=
                "Schema reloaded successfully. Found " +:+
                str_of_int (Z.of_nat (length schema_info)) +:+ " tables.";
              reload_tables := schema_info |},
         w1)
    | Raises e =>
        (HttpError 500 ("Schema reload failed: " +:+ exn_message e), w1)
    end.

End ReloadSchema.

(** The sixteen items that do not come from the database. *)
Definition static_items : list KnowledgeItem :=
  relationship_items ++ query_patterns ++ examples ++ postgres_tips.

(** A database that cannot be reached, and one with the two sample
    tables. *)
Definition unreachable_database : Database :=
  {| connect_raises := true;
     get_table_names := Raises (BackendError "connection refused");
     get_columns := fun _ => Raises (BackendError "connection refused");
     primary_key_flag := fun _ _ => None;
     execute := fun _ _ => Raises (BackendError "connection refused") |}.

(** The statements that a PostgreSQL connection over the given tables
    refuses: a query of a table that does not exist, and every statement
    that follows a refused one. *)
Definition table_of (query : string) : string :=
  if String.eqb query "SELECT * FROM users LIMIT 3" then "users"
  else if String.eqb query "SELECT * FROM orders LIMIT 3" then "orders"
  else "".

Fixpoint aborted (tables : list string) (done : list string) : bool :=
  match done with
  | [] => false
  | query :: rest =>
      negb (existsb (String.eqb (table_of query)) tables) || aborted tables rest
  end.

Definition postgres_execute
    (tables : list (string * list (list (string * DbValue))))
    (done : list string) (query : string)
  : result (list (list (string * DbValue))) :=
  if aborted (map fst tables) done then
    Raises (BackendError "current transaction is aborted, commands ignored until end of transaction block")
  else
    match List.find (fun t => String.eqb (fst t) (table_of query)) tables with
    | Some t => Returns (snd t)
    | None => Raises (BackendError "relation does not exist")
    end.

(** A database with the table [users] and without the table [orders], and
    one with the table [orders] and without the table [users]. *)
Definition sample_database : Database :=
  {| connect_raises := false;
     get_table_names := Returns ["users"; "orders"];
     get_columns := fun table_name =>
       if String.eqb table_name "users" then
         Returns [{| col_name := "id"; col_type := "INTEGER"; col_nullable := false |};
                  {| col_name := "city"; col_type := "VARCHAR(50)"; col_nullable := true |}]
       else if String.eqb table_name "orders" then
         Returns [{| col_name := "id"; col_type := "INTEGER"; col_nullable := false |};
                  {| col_name := "amount"; col_type := "NUMERIC(10, 2)";
                     col_nullable := true |}]
       else Raises (BackendError "no such table");
     primary_key_flag := fun _ _ => None;
     execute := postgres_execute
       [("users", [[("id", DbOther "1"); ("balance", DbDecimal "999.99");
                    ("created_at", DbDate true "2024-01-15T10:30:00")]])] |}.


(** A computation leaves the history table as it is. *)
Definition keeps_history {A : Type} (c : M A) : Prop :=
  forall w, history (snd (c w)) = history w.

(** * Properties *)

(** ** Facts on the string operations *)

#[local] Arguments String.append _ _ : simpl nomatch.

Section StringFacts.

Lemma append_nil_r (s : string) : s +:+ "" = s.
Proof. induction s as [|c s IH]; simpl; [reflexivity | now rewrite IH]. Qed.

Lemma append_assoc (a b c : string) : (a +:+ b) +:+ c = a +:+ b +:+ c.
Proof. induction a as [|x a IH]; simpl; [reflexivity | now rewrite IH]. Qed.

Lemma is_empty_true (s : string) : is_empty s = true <-> s = "".
Proof. destruct s; simpl; split; congruence. Qed.

Lemma is_empty_false (s : string) : is_empty s = false <-> s <> "".
Proof. destruct s; simpl; split; congruence. Qed.

Lemma startswith_spec (p s : string) :
  startswith p s = true <-> exists r, s = p +:+ r.
Proof.
  revert s. induction p as [|a p IH]; intros s; simpl.
  - split; [intros _; now exists s | reflexivity].
  - destruct s as [|b s].
    + split; [discriminate | intros [r Hr]; discriminate].
    + rewrite andb_true_iff, Ascii.eqb_eq, IH. split.
      * intros [-> [r ->]]. now exists r.
      * intros [r Hr]. injection Hr as -> ->. split; [reflexivity | now exists r].
Qed.


Lemma startswith_refl (p : string) : startswith p p = true.
Proof. apply startswith_spec. exists "". now rewrite append_nil_r. Qed.

Lemma startswith_app_r (p s r : string) :
  startswith p s = true -> startswith p (s +:+ r) = true.
Proof.
  rewrite !startswith_spec. intros [x ->]. exists (x +:+ r).
  now rewrite append_assoc.
Qed.

Lemma startswith_trans (a b c : string) :
  startswith a b = true -> startswith b c = true -> startswith a c = true.
Proof.
  rewrite !startswith_spec. intros [x ->] [y ->]. exists (x +:+ y).
  now rewrite append_assoc.
Qed.

Lemma contains_spec (sub s : string) :
  contains sub s = true <-> exists a b, s = a +:+ sub +:+ b.
Proof.
  induction s as [|c s IH]; simpl.
  - rewrite startswith_spec. split.
    + intros [r Hr]. exists "", r. exact Hr.
    + intros [a [b Hab]]. destruct a; simpl in Hab; [now exists b | discriminate].
  - rewrite orb_true_iff, startswith_spec, IH. split.
    + intros [[r Hr] | [a [b Hab]]].
      * exists "", r. exact Hr.
      * exists (String c a), b. simpl. now rewrite Hab.
    + intros [a [b Hab]]. destruct a as [|x a]; simpl in Hab.
      * left. now exists b.
      * right. injection Hab as _ ->. now exists a, b.
Qed.

(** A string that occurs inside a part of [s] occurs inside [s]. *)
Lemma contains_inside (sub x a b : string) :
  contains sub x = true -> contains sub (a +:+ x +:+ b) = true.
Proof.
  rewrite !contains_spec. intros [u [v ->]]. exists (a +:+ u), (v +:+ b).
  now rewrite !append_assoc.
Qed.

Lemma not_contains_inside (sub x s a b : string) :
  s = a +:+ x +:+ b -> contains sub s = false -> contains sub x = false.
Proof.
  intros -> H. destruct (contains sub x) eqn:E; [|reflexivity].
  now rewrite (contains_inside _ _ a b E) in H.
Qed.

(** What contains the longer marker contains the shorter one. *)
Lemma contains_weaken (sub ext s : string) :
  contains (sub +:+ ext) s = true -> contains sub s = true.
Proof.
  rewrite !contains_spec. intros [a [b ->]]. exists a, (ext +:+ b).
  now rewrite append_assoc.
Qed.

Lemma lstrip_suffix (s : string) : exists w, s = w +:+ lstrip s.
Proof.
  induction s as [|c s [w IH]]; simpl.
  - now exists "".
  - destruct (is_space c).
    + exists (String c w). simpl. now rewrite <- IH.
    + now exists "".
Qed.

Lemma rstrip_prefix (s : string) : exists w, s = rstrip s +:+ w.
Proof.
  induction s as [|c s [w IH]]; simpl.
  - now exists "".
  - destruct (is_empty (rstrip s) && is_space c).
    + now exists (String c s).
    + exists w. simpl. now rewrite <- IH.
Qed.

Lemma strip_inside (s : string) : exists a b, s = a +:+ strip s +:+ b.
Proof.
  unfold strip. destruct (lstrip_suffix s) as [a Ha].
  destruct (rstrip_prefix (lstrip s)) as [b Hb].
  exists a, b. now rewrite <- Hb.
Qed.

Lemma strip_not_contains (sub s : string) :
  contains sub s = false -> contains sub (strip s) = false.
Proof.
  destruct (strip_inside s) as [a [b H]]. now apply not_contains_inside with (a := a) (b := b).
Qed.

End StringFacts.

Section StripFacts.

Lemma append_empty (x y : string) : x +:+ y = "" -> y = "".
Proof. destruct x; simpl; [tauto | discriminate]. Qed.

Lemma rstrip_app_keep (x y : string) :
  rstrip y <> "" -> rstrip (x +:+ y) = x +:+ rstrip y.
Proof.
  intros Hy. induction x as [|c x IH]; simpl; [reflexivity|].
  rewrite IH. destruct (is_empty (x +:+ rstrip y)) eqn:E.
  - apply is_empty_true, append_empty in E. contradiction.
  - reflexivity.
Qed.

Lemma rstrip_last_nonspace (x : string) (c : ascii) :
  is_space c = false -> rstrip (x +:+ String c "") = x +:+ String c "".
Proof.
  intros Hc. assert (H : rstrip (String c "") = String c "") by (simpl; now rewrite Hc).
  rewrite rstrip_app_keep; rewrite H; [reflexivity | discriminate].
Qed.

Lemma rstrip_idem (s : string) : rstrip (rstrip s) = rstrip s.
Proof.
  induction s as [|c s IH]; simpl; [reflexivity|].
  destruct (is_empty (rstrip s) && is_space c) eqn:E; simpl; [reflexivity|].
  now rewrite IH, E.
Qed.

Lemma lstripped_lstrip (s : string) : lstripped (lstrip s) = true.
Proof.
  induction s as [|c s IH]; simpl; [reflexivity|].
  destruct (is_space c) eqn:E; [exact IH | simpl; now rewrite E].
Qed.

Lemma lstrip_id (s : string) : lstripped s = true -> lstrip s = s.
Proof.
  destruct s as [|c s]; simpl; [reflexivity|].
  intros H. apply negb_true_iff in H. now rewrite H.
Qed.

Lemma lstripped_rstrip (s : string) :
  lstripped s = true -> lstripped (rstrip s) = true.
Proof.
  destruct s as [|c s]; simpl; [reflexivity|]. intros H.
  apply negb_true_iff in H. rewrite H, andb_false_r. simpl. now rewrite H.
Qed.

Lemma lstripped_strip (s : string) : lstripped (strip s) = true.
Proof. apply lstripped_rstrip, lstripped_lstrip. Qed.

Lemma strip_id (s : string) :
  lstripped s = true -> rstrip s = s -> strip s = s.
Proof. intros H1 H2. unfold strip. now rewrite (lstrip_id _ H1). Qed.

Lemma rstrip_strip (s : string) : rstrip (strip s) = strip s.
Proof. apply rstrip_idem. Qed.

Lemma strip_idem (s : string) : strip (strip s) = strip s.
Proof. apply strip_id; [apply lstripped_strip | apply rstrip_strip]. Qed.

Lemma lstripped_app (x y : string) :
  x <> "" -> lstripped x = true -> lstripped (x +:+ y) = true.
Proof. destruct x; simpl; [congruence | tauto]. Qed.

Lemma endswith_refl (suf : string) : endswith suf suf = true.
Proof.
  destruct suf as [|c suf]; simpl; [reflexivity|].
  change (String.eqb (String c suf) (String c suf) || endswith (String c suf) suf = true).
  now rewrite String.eqb_refl.
Qed.

Lemma endswith_app (suf x y : string) :
  endswith suf y = true -> endswith suf (x +:+ y) = true.
Proof.
  intros H. induction x as [|c x IH]; simpl; [exact H|].
  rewrite IH. apply orb_true_r.
Qed.

Lemma terminated_nonempty (s : string) : terminated s = true -> s <> "".
Proof. intros H ->. discriminate. Qed.

Lemma terminated_app (x y : string) :
  terminated y = true -> terminated (x +:+ y) = true.
Proof.
  unfold terminated. intros H.
  rewrite rstrip_app_keep; [now apply endswith_app|].
  intros E. rewrite E in H. discriminate.
Qed.

Lemma terminated_ensure_semicolon (s : string) :
  terminated (ensure_semicolon s) = true.
Proof.
  unfold ensure_semicolon, terminated.
  destruct (endswith ";" (rstrip s)) eqn:E; simpl; [exact E|].
  rewrite rstrip_last_nonspace by reflexivity.
  apply endswith_app. reflexivity.
Qed.

End StripFacts.

(** ** Facts on [split] and [join] *)

Section SplitFacts.

Variable sep : string.

(** The piece being read is a prefix of the text, when no separator is
    being passed over. *)
Lemma split_from_head_prefix (s : string) :
  startswith (fst (split_from sep 0 s)) s = true.
Proof.
  induction s as [|c s IH]; [reflexivity|].
  simpl. destruct (startswith sep (String c s)); [destruct (split_from sep (String.length sep - 1) s); reflexivity|].
  destruct (split_from sep 0 s) as [h t]. simpl in *.
  now rewrite Ascii.eqb_refl.
Qed.

(** Every piece is a part of the text. *)
Lemma split_from_inside (s : string) (skip : nat) :
  Forall (fun p => exists a b, s = a +:+ p +:+ b)
         (fst (split_from sep skip s) :: snd (split_from sep skip s)).
Proof.
  revert skip. induction s as [|c s IH]; intros skip.
  - simpl. constructor; [now exists "", "" | constructor].
  - assert (Hlift : forall k, Forall (fun p => exists a b, String c s = a +:+ p +:+ b)
              (fst (split_from sep k s) :: snd (split_from sep k s))).
    { intros k. eapply Forall_impl; [apply IH|].
      intros p [a [b ->]]. now exists (String c a), b. }
    simpl. destruct skip as [|k]; [|apply Hlift].
    destruct (startswith sep (String c s)).
    + specialize (Hlift (String.length sep - 1)).
      destruct (split_from sep (String.length sep - 1) s) as [h t]. simpl in *.
      constructor; [now exists "", (String c s) | exact Hlift].
    + specialize (Hlift 0). pose proof (split_from_head_prefix s) as Hp.
      destruct (split_from sep 0 s) as [h t]. simpl in *.
      apply Forall_cons in Hlift as [_ Ht].
      constructor; [|exact Ht].
      apply startswith_spec in Hp as [r ->]. now exists "", r.
Qed.

Lemma split_inside (s : string) :
  Forall (fun p => exists a b, s = a +:+ p +:+ b) (split sep s).
Proof.
  unfold split. pose proof (split_from_inside s 0) as H.
  now destruct (split_from sep 0 s).
Qed.

Lemma split_not_contains (sub s : string) :
  contains sub s = false ->
  Forall (fun p => contains sub p = false) (split sep s).
Proof.
  intros H. eapply Forall_impl; [apply split_inside|].
  intros p [a [b E]]. now apply not_contains_inside with (s := s) (a := a) (b := b).
Qed.

Hypothesis sep_nonempty : sep <> "".

(** No piece contains the separator. *)
Lemma split_from_sep_free (s : string) (skip : nat) :
  Forall (fun p => contains sep p = false)
         (fst (split_from sep skip s) :: snd (split_from sep skip s)).
Proof.
  revert skip. induction s as [|c s IH]; intros skip.
  - simpl. constructor; [|constructor].
    destruct sep; [contradiction | reflexivity].
  - simpl. destruct skip as [|k]; [|apply IH].
    destruct (startswith sep (String c s)) eqn:E.
    + specialize (IH (String.length sep - 1)).
      destruct (split_from sep (String.length sep - 1) s) as [h t]. simpl in *.
      constructor; [|exact IH]. destruct sep; [contradiction | reflexivity].
    + specialize (IH 0). pose proof (split_from_head_prefix s) as Hp.
      destruct (split_from sep 0 s) as [h t]. simpl in *.
      apply Forall_cons in IH as [Hh Ht].
      constructor; [|exact Ht].
      simpl. rewrite Hh, orb_false_r.
      destruct (startswith sep (String c h)) eqn:E'; [|reflexivity].
      rewrite <- E. symmetry. eapply startswith_trans; [exact E'|].
      simpl. now rewrite Ascii.eqb_refl.
Qed.

Lemma split_sep_free (s : string) :
  Forall (fun p => contains sep p = false) (split sep s).
Proof.
  unfold split. pose proof (split_from_sep_free s 0) as H.
  now destruct (split_from sep 0 s).
Qed.

End SplitFacts.

Section ContainsFacts.

Lemma startswith_app_char (sub x y : string) (c : ascii) :
  contains (String c "") sub = false ->
  startswith sub (x +:+ String c y) = startswith sub x.
Proof.
  revert x. induction sub as [|b sub IH]; intros x H; [reflexivity|].
  simpl in H. apply orb_false_iff in H as [Hb Hsub].
  rewrite andb_true_r in Hb.
  destruct x as [|a x]; simpl.
  - rewrite Ascii.eqb_sym in Hb. now rewrite Hb.
  - now rewrite IH.
Qed.

(** A character that does not occur in [sub] cuts every text in two
    parts, as far as occurrences of [sub] go. *)
Lemma contains_app_char (sub x y : string) (c : ascii) :
  sub <> "" ->
  contains (String c "") sub = false ->
  contains sub (x +:+ String c y) = contains sub x || contains sub y.
Proof.
  intros Hne Hc.
  assert (H0 : startswith sub "" = false) by (destruct sub; [contradiction | reflexivity]).
  induction x as [|a x IH]; simpl.
  - change (String c y) with ("" +:+ String c y) at 1.
    now rewrite startswith_app_char, H0.
  - change (String a (x +:+ String c y)) with (String a x +:+ String c y) at 1.
    now rewrite startswith_app_char, IH, orb_assoc.
Qed.

Lemma rstrip_not_contains (sub s : string) :
  contains sub s = false -> contains sub (rstrip s) = false.
Proof.
  destruct (rstrip_prefix s) as [w H]. intros Hs.
  now apply not_contains_inside with (s := s) (a := "") (b := w).
Qed.

Lemma contains_join (sub : string) (c : ascii) (ls : list string) :
  sub <> "" ->
  contains (String c "") sub = false ->
  Forall (fun l => contains sub l = false) ls ->
  contains sub (join (String c "") ls) = false.
Proof.
  intros Hne Hc. induction 1 as [|l ls Hl Hls IH]; simpl.
  - destruct sub; [contradiction | reflexivity].
  - destruct ls as [|l' ls']; [exact Hl|].
    change (String c "" +:+ join (String c "") (l' :: ls'))
      with (String c (join (String c "") (l' :: ls'))).
    now rewrite contains_app_char, Hl, IH.
Qed.

Lemma contains_ensure_semicolon (sub s : string) :
  sub <> "" ->
  contains ";" sub = false ->
  contains sub s = false ->
  contains sub (ensure_semicolon s) = false.
Proof.
  intros Hne Hc Hs. unfold ensure_semicolon.
  destruct (negb (endswith ";" (rstrip s))); [|exact Hs].
  rewrite contains_app_char, rstrip_not_contains by assumption.
  destruct sub; [contradiction | reflexivity].
Qed.

End ContainsFacts.

(** ** The cleaner: totality, termination, fences *)

Section CleanFacts.

Lemma split_from_found (sep s : string) :
  sep <> "" -> contains sep s = true -> snd (split_from sep 0 s) <> [].
Proof.
  intros Hne. induction s as [|c s IH]; simpl.
  - destruct sep; [contradiction | discriminate].
  - destruct (startswith sep (String c s)); simpl.
    + intros _. now destruct (split_from sep (String.length sep - 1) s).
    + intros H. specialize (IH H). now destruct (split_from sep 0 s).
Qed.

Lemma index_split_0 (sep s : string) :
  index (split sep s) 0 = Returns (fst (split_from sep 0 s)).
Proof. unfold split. now destruct (split_from sep 0 s). Qed.

Lemma index_split_1 (sep s : string) :
  sep <> "" -> contains sep s = true ->
  exists a, index (split sep s) 1 = Returns a
            /\ In a (split sep s).
Proof.
  intros Hne H. pose proof (split_from_found sep s Hne H) as Hs.
  unfold split. destruct (split_from sep 0 s) as [h [|a t]]; [contradiction|].
  exists a. split; [reflexivity | right; now left].
Qed.

Lemma In_split_0 (sep s : string) : In (fst (split_from sep 0 s)) (split sep s).
Proof. unfold split. destruct (split_from sep 0 s). now left. Qed.

(** The markdown branch never raises on a string, and leaves no fence
    marker. *)
Lemma unfence_returns (s : string) :
  exists x, unfence s = Returns x /\ contains "```" x = false.
Proof.
  unfold unfence. destruct (contains "```sql" s) eqn:Esql.
  - destruct (index_split_1 "```sql" s) as [a [-> _]]; [discriminate | assumption |].
    cbn. rewrite index_split_0. cbn. eexists. split; [reflexivity|].
    apply strip_not_contains.
    pose proof (split_sep_free "```" ltac:(discriminate) a) as H.
    rewrite Forall_forall in H. apply H. apply list_elem_of_In, In_split_0.
  - destruct (contains "```" s) eqn:E.
    + destruct (index_split_1 "```" s) as [a [-> Ha]]; [discriminate | assumption |].
      cbn. eexists. split; [reflexivity|].
      apply strip_not_contains.
      pose proof (split_sep_free "```" ltac:(discriminate) s) as H.
      rewrite Forall_forall in H. apply H. now apply list_elem_of_In.
    + now exists s.
Qed.

Lemma unfence_fence_free (s : string) :
  contains "```" s = false -> unfence s = Returns s.
Proof.
  intros H. unfold unfence. rewrite H.
  destruct (contains "```sql" s) eqn:E; [|reflexivity].
  apply (contains_weaken "```" "sql") in E. congruence.
Qed.


Lemma sql_lines_of_not_contains (sub : string) (lines : list string) :
  Forall (fun l => contains sub l = false) lines ->
  Forall (fun l => contains sub l = false) (sql_lines_of lines).
Proof.
  induction 1 as [|l lines Hl Hls IH]; simpl; [constructor|].
  destruct (keep_line (strip l)); [|exact IH].
  constructor; [now apply strip_not_contains | exact IH].
Qed.

(** The steps after the markdown branch keep a text free of fences. *)
Lemma finish_fence_free (s : string) :
  contains "```" s = false ->
  contains "```" (ensure_semicolon (join nl (sql_lines_of (split nl s)))) = false.
Proof.
  intros H. apply contains_ensure_semicolon; [discriminate | reflexivity |].
  apply contains_join; [discriminate | reflexivity |].
  apply sql_lines_of_not_contains. now apply split_not_contains.
Qed.

(** [_clean_sql_response] on a string: it returns, what it returns is
    terminated and has no fence marker. *)
Lemma clean_str_returns (r : string) :
  exists y, clean_str r = Returns y
            /\ terminated y = true /\ fence_free y = true.
Proof.
  unfold clean_str. destruct (unfence_returns (strip r)) as [x [-> Hx]].
  cbn. eexists. split; [reflexivity|]. split.
  - apply terminated_ensure_semicolon.
  - unfold fence_free. now rewrite finish_fence_free.
Qed.

End CleanFacts.

(** ** The cleaner: a cleaned text is a fixed point *)

Section CleanIdempotent.

Lemma kept_line_spec (l : string) :
  kept_line l = true <->
  lstripped l = true /\ rstrip l = l /\ keep_line l = true
  /\ contains nl l = false /\ contains "```" l = false.
Proof.
  unfold kept_line. rewrite !andb_true_iff, !negb_true_iff, String.eqb_eq. tauto.
Qed.

Lemma keep_line_nonempty (l : string) : keep_line l = true -> l <> "".
Proof. intros H ->. discriminate. Qed.

Lemma split_from_nl_line (x : string) :
  contains nl x = false -> split_from nl 0 x = (x, []).
Proof.
  induction x as [|c x IH]; [reflexivity|].
  intros H. simpl in H. apply orb_false_iff in H as [Hc Hx].
  simpl. rewrite Hc, (IH Hx). reflexivity.
Qed.

Lemma split_from_nl_app (x y : string) :
  contains nl x = false ->
  split_from nl 0 (x +:+ nl +:+ y) = (x, split nl y).
Proof.
  induction x as [|c x IH]; intros H.
  - unfold split. cbn. now destruct (split_from nl 0 y).
  - simpl in H. apply orb_false_iff in H as [Hc Hx].
    change (String c x +:+ nl +:+ y) with (String c (x +:+ nl +:+ y)).
    cbn [split_from].
    replace (startswith nl (String c (x +:+ nl +:+ y))) with false
      by (symmetry; exact Hc).
    now rewrite (IH Hx).
Qed.

Lemma split_join_nl (ls : list string) :
  ls <> [] ->
  Forall (fun l => contains nl l = false) ls ->
  split nl (join nl ls) = ls.
Proof.
  intros Hne H. induction H as [|l ls Hl Hls IH]; [contradiction|].
  destruct ls as [|l' ls'].
  - simpl. unfold split. now rewrite split_from_nl_line.
  - change (join nl (l :: l' :: ls')) with (l +:+ nl +:+ join nl (l' :: ls')).
    unfold split at 1. rewrite split_from_nl_app by assumption.
    now rewrite IH.
Qed.

Lemma sql_lines_of_kept (ls : list string) :
  Forall (fun l => kept_line l = true) ls -> sql_lines_of ls = ls.
Proof.
  induction 1 as [|l ls Hl Hls IH]; simpl; [reflexivity|].
  apply kept_line_spec in Hl as (H1 & H2 & H3 & _).
  rewrite (strip_id _ H1 H2), H3, IH. reflexivity.
Qed.

(** The lines that the loop keeps. *)
Lemma sql_lines_of_all_kept (s : string) :
  contains "```" s = false ->
  Forall (fun l => kept_line l = true) (sql_lines_of (split nl s)).
Proof.
  intros Hs.
  pose proof (split_not_contains nl "```" s Hs) as Hf.
  pose proof (split_sep_free nl ltac:(discriminate) s) as Hn.
  induction (split nl s) as [|l ls IH]; simpl; [constructor|].
  apply Forall_cons in Hf as [Hf1 Hf2]. apply Forall_cons in Hn as [Hn1 Hn2].
  destruct (keep_line (strip l)) eqn:E; [|now apply IH].
  constructor; [|now apply IH].
  apply kept_line_spec. repeat split.
  - apply lstripped_strip.
  - apply rstrip_strip.
  - exact E.
  - now apply strip_not_contains.
  - now apply strip_not_contains.
Qed.

Lemma join_nonempty (ls : list string) :
  ls <> [] -> Forall (fun l => kept_line l = true) ls -> join nl ls <> "".
Proof.
  intros Hne H. destruct H as [|l ls Hl Hls]; [contradiction|].
  apply kept_line_spec in Hl as (_ & _ & H3 & _).
  apply keep_line_nonempty in H3.
  destruct ls; simpl; [exact H3|]. destruct l; [contradiction | discriminate].
Qed.

Lemma lstripped_join (ls : list string) :
  Forall (fun l => kept_line l = true) ls -> lstripped (join nl ls) = true.
Proof.
  intros H. destruct H as [|l ls Hl Hls]; [reflexivity|].
  apply kept_line_spec in Hl as (H1 & _ & H3 & _).
  apply keep_line_nonempty in H3.
  destruct ls; simpl; [exact H1|]. now apply lstripped_app.
Qed.

Lemma rstrip_join (ls : list string) :
  Forall (fun l => kept_line l = true) ls -> rstrip (join nl ls) = join nl ls.
Proof.
  induction 1 as [|l ls Hl Hls IH]; [reflexivity|].
  destruct ls as [|l' ls'].
  - simpl. now apply kept_line_spec in Hl as (_ & H2 & _).
  - change (join nl (l :: l' :: ls')) with (l +:+ nl +:+ join nl (l' :: ls')).
    assert (Hj : join nl (l' :: ls') <> "") by (now apply join_nonempty).
    assert (Hn : rstrip (nl +:+ join nl (l' :: ls')) = nl +:+ join nl (l' :: ls')).
    { rewrite rstrip_app_keep; rewrite IH; [reflexivity | exact Hj]. }
    rewrite rstrip_app_keep; rewrite Hn; [reflexivity | discriminate].
Qed.

Lemma join_fence_free (ls : list string) :
  Forall (fun l => kept_line l = true) ls -> contains "```" (join nl ls) = false.
Proof.
  intros H. apply contains_join; [discriminate | reflexivity |].
  eapply Forall_impl; [exact H|]. intros l Hl.
  now apply kept_line_spec in Hl as (_ & _ & _ & _ & H5).
Qed.

(** A terminated text made of kept lines is returned as it is. *)
Lemma clean_str_fixed (ls : list string) :
  ls <> [] ->
  Forall (fun l => kept_line l = true) ls ->
  endswith ";" (join nl ls) = true ->
  clean_str (join nl ls) = Returns (join nl ls).
Proof.
  intros Hne Hk He. unfold clean_str.
  rewrite (strip_id _ (lstripped_join ls Hk) (rstrip_join ls Hk)).
  rewrite (unfence_fence_free _ (join_fence_free ls Hk)). cbn.
  rewrite split_join_nl; [|exact Hne|].
  - rewrite (sql_lines_of_kept ls Hk). unfold ensure_semicolon.
    now rewrite (rstrip_join ls Hk), He.
  - eapply Forall_impl; [exact Hk|]. intros l Hl.
    now apply kept_line_spec in Hl as (_ & _ & _ & H4 & _).
Qed.

Lemma keep_line_semicolon (l : string) :
  keep_line l = true -> keep_line (l +:+ ";") = true.
Proof.
  unfold keep_line.
  destruct l as [|a [|b [|c l]]];
    cbn [startswith is_empty String.append negb andb orb]; try discriminate.
  - destruct (Ascii.eqb "-" a); cbn; [|reflexivity].
    intros _. reflexivity.
  - destruct (Ascii.eqb "-" a), (Ascii.eqb "-" b); cbn; congruence.
  - destruct (Ascii.eqb "-" a), (Ascii.eqb "-" b), (Ascii.eqb " " c); cbn; congruence.
Qed.

Lemma kept_line_semicolon (l : string) :
  kept_line l = true -> kept_line (l +:+ ";") = true.
Proof.
  rewrite !kept_line_spec. intros (H1 & H2 & H3 & H4 & H5). repeat split.
  - apply lstripped_app; [now apply keep_line_nonempty | exact H1].
  - now apply rstrip_last_nonspace.
  - now apply keep_line_semicolon.
  - rewrite contains_app_char, H4; [reflexivity | discriminate | reflexivity].
  - rewrite contains_app_char, H5; [reflexivity | discriminate | reflexivity].
Qed.

(** Appending the semicolon to the text appends it to the last line. *)
Lemma join_semicolon (ls : list string) :
  ls <> [] ->
  Forall (fun l => kept_line l = true) ls ->
  exists ls', ls' <> []
              /\ Forall (fun l => kept_line l = true) ls'
              /\ join nl ls +:+ ";" = join nl ls'.
Proof.
  intros Hne H. induction H as [|l ls Hl Hls IH]; [contradiction|].
  destruct ls as [|l2 ls2].
  - exists [l +:+ ";"]. split; [discriminate | split; [|reflexivity]].
    constructor; [now apply kept_line_semicolon | constructor].
  - destruct IH as (ls' & Hne' & Hk' & Hj'); [discriminate|].
    exists (l :: ls'). split; [discriminate | split; [now constructor|]].
    change (join nl (l :: l2 :: ls2)) with (l +:+ nl +:+ join nl (l2 :: ls2)).
    rewrite !append_assoc, Hj'. destruct ls'; [contradiction | reflexivity].
Qed.

(** What the cleaner returns, it returns again when it is given it. *)
Lemma clean_str_idempotent (x y : string) :
  clean_str x = Returns y -> clean_str y = Returns y.
Proof.
  unfold clean_str at 1. destruct (unfence_returns (strip x)) as [s [-> Hs]].
  cbn. intros [= <-].
  pose proof (sql_lines_of_all_kept s Hs) as Hk.
  destruct (sql_lines_of (split nl s)) as [|l ls] eqn:E; [reflexivity|].
  remember (l :: ls) as kept eqn:Ekept.
  assert (Hne : kept <> []) by (subst kept; discriminate).
  unfold ensure_semicolon. rewrite (rstrip_join kept Hk).
  destruct (endswith ";" (join nl kept)) eqn:He; cbn [negb].
  - now apply clean_str_fixed.
  - destruct (join_semicolon kept Hne Hk) as (ls' & Hne' & Hk' & Hj).
    rewrite Hj. apply clean_str_fixed; [assumption | assumption |].
    rewrite <- Hj. apply endswith_app. reflexivity.
Qed.

End CleanIdempotent.

(** ** The cleaner: the text inside the fence *)

Section FenceFacts.





Lemma find_nil_Some (sep s : string) :
  find sep s = Some 0 -> startswith sep s = true.
Proof.
  destruct s as [|c s]; cbn [find].
  - now destruct (startswith sep "").
  - destruct (startswith sep (String c s)); [reflexivity|].
    destruct (find sep s); discriminate.
Qed.







Lemma bind_Returns {A B : Type} (a : A) (f : A -> result B) :
  mbind f (Returns a) = f a.
Proof. reflexivity. Qed.



















End FenceFacts.

(** ** The rule-based fallback *)

Section FallbackFacts.

Lemma fallback_rules (question : string) :
  _fallback_sql question =
  let ql := lower question in
  if rule_drop ql then
    if contains "all" ql then drop_all_tables_sql
    else "-- Example: DROP TABLE table_name CASCADE;" +:+ nl +:+
         "SELECT 'Specify which table to drop' as message;"
  else if rule_city ql then city_filter_sql
  else if rule_amount ql then
    "SELECT * FROM orders WHERE amount > 100 ORDER BY amount DESC LIMIT 10;"
  else if rule_count ql then "SELECT COUNT(*) as user_count FROM users;"
  else if rule_join ql then
    "SELECT u.name, o.product, o.amount FROM users u JOIN orders o ON u.id = o.user_id LIMIT 10;"
  else if rule_age ql then
    match search_under ql with
    | Some age => age_filter_sql age
    | None => "SELECT * FROM users WHERE age < 25 LIMIT 10;"
    end
  else generic_fallback_sql question.
Proof. reflexivity. Qed.

Lemma digit_not_backquote (c : ascii) :
  is_digit c = true -> Ascii.eqb "`" c = false.
Proof.
  intros H. destruct (Ascii.eqb_spec "`" c) as [<-|]; [discriminate | reflexivity].
Qed.

Lemma span_digits_no_backquote (s : string) :
  contains "`" (fst (span is_digit s)) = false.
Proof.
  induction s as [|c s IH]; [reflexivity|].
  cbn [span]. destruct (is_digit c) eqn:E; [|reflexivity].
  destruct (span is_digit s) as [a b]. cbn [fst] in *.
  cbn [contains startswith]. now rewrite (digit_not_backquote c E), IH.
Qed.

Lemma match_under_at_digits (s d : string) :
  match_under_at s = Some d -> contains "`" d = false.
Proof.
  unfold match_under_at. destruct (startswith "under" s); [|discriminate].
  destruct (span is_space (drop 5 s)) as [ws r].
  destruct (is_empty ws); [discriminate|].
  pose proof (span_digits_no_backquote r) as H.
  destruct (span is_digit r) as [ds rest]. cbn [fst] in H.
  destruct (is_empty ds); [discriminate|]. now intros [= <-].
Qed.

Lemma search_under_digits (s d : string) :
  search_under s = Some d -> contains "`" d = false.
Proof.
  induction s as [|c s IH]; cbn [search_under].
  - destruct (match_under_at "") eqn:E; [|discriminate].
    intros [= <-]. now apply match_under_at_digits in E.
  - destruct (match_under_at (String c s)) eqn:E; [|exact IH].
    intros [= <-]. now apply match_under_at_digits in E.
Qed.

Lemma no_backquote_fence_free (s : string) :
  contains "`" s = false -> contains "```" s = false.
Proof.
  intros H. destruct (contains "```" s) eqn:E; [|reflexivity].
  apply (contains_weaken "`" "``") in E. congruence.
Qed.

(** Every statement of the fallback generator is terminated. *)
Lemma fallback_terminated (question : string) :
  terminated (_fallback_sql question) = true.
Proof.
  rewrite fallback_rules. cbv zeta.
  destruct (rule_drop _); [destruct (contains "all" _); reflexivity|].
  destruct (rule_city _); [reflexivity|].
  destruct (rule_amount _); [reflexivity|].
  destruct (rule_count _); [reflexivity|].
  destruct (rule_join _); [reflexivity|].
  destruct (rule_age _).
  - destruct (search_under _); [|reflexivity].
    unfold age_filter_sql. rewrite <- append_assoc. now apply terminated_app.
  - unfold generic_fallback_sql. rewrite <- !append_assoc. now apply terminated_app.
Qed.

Lemma echo_fence_free (before question after : string) (c : ascii) :
  contains (String c "") "```" = false ->
  contains "```" before = false ->
  contains "```" after = false ->
  contains "```" question = false ->
  contains "```" (before +:+ String " " question +:+ String c after) = false.
Proof.
  intros Hc Hb Ha Hq.
  rewrite <- append_assoc.
  rewrite (contains_app_char "```" _ after c) by (discriminate || assumption).
  rewrite (contains_app_char "```" before question " ") by (discriminate || reflexivity).
  now rewrite Hb, Hq, Ha.
Qed.

(** The fallback statements have a fence marker only when the question
    has one. *)
Lemma fallback_fence_free (question : string) :
  fence_free question = true -> fence_free (_fallback_sql question) = true.
Proof.
  unfold fence_free. rewrite !negb_true_iff. intros Hq.
  rewrite fallback_rules. cbv zeta.
  destruct (rule_drop _); [destruct (contains "all" _); reflexivity|].
  destruct (rule_city _); [reflexivity|].
  destruct (rule_amount _); [reflexivity|].
  destruct (rule_count _); [reflexivity|].
  destruct (rule_join _); [reflexivity|].
  destruct (rule_age _).
  - destruct (search_under _) as [age|] eqn:E; [|reflexivity].
    apply search_under_digits, no_backquote_fence_free in E.
    exact (echo_fence_free "SELECT * FROM users WHERE age <" age "LIMIT 10;" " "
             eq_refl eq_refl eq_refl E).
  - exact (echo_fence_free "-- Fallback query for:" question
             "SELECT * FROM users LIMIT 10;" (ascii_of_nat 10)
             eq_refl eq_refl eq_refl Hq).
Qed.

Lemma no_model_terminated (question : string) :
  terminated (no_model_sql question) = true.
Proof.
  unfold no_model_sql. rewrite <- !append_assoc. now apply terminated_app.
Qed.

Lemma no_model_fence_free (question : string) :
  fence_free question = true -> fence_free (no_model_sql question) = true.
Proof.
  unfold fence_free. rewrite !negb_true_iff. intros Hq.
  exact (echo_fence_free ("-- No API key configured" +:+ nl +:+ "-- Generated from:")
           question "SELECT * FROM users LIMIT 5;" (ascii_of_nat 10)
           eq_refl eq_refl eq_refl Hq).
Qed.

End FallbackFacts.

(** ** The orchestrator *)

Section OrchestratorFacts.

Variable rag : RAG.

Lemma generate_sql_try_no_model (question : string) (w : World) :
  generate_sql_try rag None question w = (Returns (no_model_sql question), w).
Proof. reflexivity. Qed.

(** With a model, the [try] block is the chain retrieval, prompt,
    invocation, cleaning. *)
Lemma generate_sql_try_model (model : string -> result Content)
    (question : string) (w : World) :
  generate_sql_try rag (Some model) question w =
  match rag_retrieve_context rag question 3 w with
  | (Raises e, w1) => (Raises e, w1)
  | (Returns context, w1) =>
      let prompt := _build_rag_prompt question context in
      let w2 := snd (log (CallInvoke prompt) w1) in
      match model prompt with
      | Raises e => (Raises e, w2)
      | Returns response =>
          match _clean_sql_response response with
          | Raises e => (Raises e, w2)
          | Returns sql => (Returns sql, w2)
          end
      end
  end.
Proof.
  unfold generate_sql_try, mbind, M_bind.
  destruct (rag_retrieve_context rag question 3 w) as [[context|e] w1]; [|reflexivity].
  unfold llm_invoke, mbind, M_bind, log, lift. cbn [snd].
  destruct (model _) as [response|e]; [|reflexivity].
  destruct (_clean_sql_response response); reflexivity.
Qed.

Lemma generate_sql_cases (llm : option (string -> result Content))
    (question db_uri : string) (w : World) :
  generate_sql rag llm question db_uri w =
  match generate_sql_try rag llm question w with
  | (Returns s, w') => (Returns s, w')
  | (Raises _, w') => (Returns (_fallback_sql question), w')
  end.
Proof. reflexivity. Qed.

(** What the [try] block returns with a model is a cleaned response. *)
Lemma generate_sql_try_cleaned (model : string -> result Content)
    (question : string) (w w' : World) (s : string) :
  generate_sql_try rag (Some model) question w = (Returns s, w') ->
  exists r, clean_str r = Returns s.
Proof.
  rewrite generate_sql_try_model.
  destruct (rag_retrieve_context rag question 3 w) as [[context|e] w1]; [|discriminate].
  cbv zeta. destruct (model _) as [[r|]|e]; try discriminate.
  cbn [_clean_sql_response]. destruct (clean_str r) as [y|e] eqn:E; [|discriminate].
  intros [= <- _]. now exists r.
Qed.

End OrchestratorFacts.

(** ** The claims on [llm_service.py] *)

(** On a stdout that takes every text, whatever exception the [try]
    block raises is absorbed and the call returns the rule-based fallback
    of the question; the block raises when the retrieval call raises, when
    the model invocation raises, and when the cleaning of the response
    raises. *)
Lemma generate_sql_absorbs (rag : RAG)
    (llm : option (string -> result Content)) (question db_uri : string)
    (w : World) :
  (exists s w', generate_sql rag llm question db_uri w = (Returns s, w'))
  /\ (forall e w',
        generate_sql_try rag llm question w = (Raises e, w') ->
        generate_sql rag llm question db_uri w
        = (Returns (_fallback_sql question), w'))
  /\ (forall model e w1,
        llm = Some model ->
        rag_retrieve_context rag question 3 w = (Raises e, w1) ->
        generate_sql rag llm question db_uri w
        = (Returns (_fallback_sql question), w1))
  /\ (forall model context w1 e,
        llm = Some model ->
        rag_retrieve_context rag question 3 w = (Returns context, w1) ->
        model (_build_rag_prompt question context) = Raises e ->
        generate_sql rag llm question db_uri w
        = (Returns (_fallback_sql question),
           snd (log (CallInvoke (_build_rag_prompt question context)) w1)))
  /\ (forall model context w1 response e,
        llm = Some model ->
        rag_retrieve_context rag question 3 w = (Returns context, w1) ->
        model (_build_rag_prompt question context) = Returns response ->
        _clean_sql_response response = Raises e ->
        generate_sql rag llm question db_uri w
        = (Returns (_fallback_sql question),
           snd (log (CallInvoke (_build_rag_prompt question context)) w1))).
Proof.
  rewrite generate_sql_cases. repeat split.
  - destruct (generate_sql_try rag llm question w) as [[s|e] w']; eauto.
  - intros e w' ->. reflexivity.
  - intros model e w1 -> H. now rewrite generate_sql_try_model, H.
  - intros model context w1 e -> H1 H2.
    rewrite generate_sql_try_model, H1. cbv zeta. now rewrite H2.
  - intros model context w1 response e -> H1 H2 H3.
    rewrite generate_sql_try_model, H1. cbv zeta. now rewrite H2, H3.
Qed.

(** C2 (amended).  On every path of [generate_sql] the returned string is
    terminated (it ends with [;] once trailing whitespace is ignored) and
    is not empty.  On the model path it has no fence marker, whatever the
    question; on every path it has no fence marker when the question has
    none: the placeholder and the generic fallback repeat the question as
    it is. *)
Theorem generate_sql_terminated (rag : RAG)
    (llm : option (string -> result Content)) (question db_uri : string)
    (w w' : World) (s : string) :
  generate_sql rag llm question db_uri w = (Returns s, w') ->
  terminated s = true
  /\ s <> ""
  /\ (forall model,
        llm = Some model ->
        generate_sql_try rag llm question w = (Returns s, w') ->
        fence_free s = true)
  /\ (fence_free question = true -> fence_free s = true).
Proof.
  intros H.
  assert (Hmodel : forall model, llm = Some model ->
            generate_sql_try rag llm question w = (Returns s, w') ->
            terminated s = true /\ fence_free s = true).
  { intros model -> Ht. apply generate_sql_try_cleaned in Ht as [r Hr].
    destruct (clean_str_returns r) as (y & Hy & H1 & H2).
    rewrite Hr in Hy. injection Hy as <-. now split. }
  assert (Hall : terminated s = true
                 /\ (fence_free question = true -> fence_free s = true)).
  { rewrite generate_sql_cases in H.
    destruct (generate_sql_try rag llm question w) as [[s0|e] w0] eqn:E.
    - injection H as <- <-. destruct llm as [model|].
      + destruct (Hmodel model eq_refl eq_refl) as [H1 H2]. now split.
      + rewrite generate_sql_try_no_model in E. injection E as <- _.
        split; [apply no_model_terminated | apply no_model_fence_free].
    - injection H as <- _.
      split; [apply fallback_terminated | apply fallback_fence_free]. }
  destruct Hall as [Ht Hf]. repeat split.
  - exact Ht.
  - now apply terminated_nonempty.
  - intros model Hl Hr. now destruct (Hmodel model Hl Hr).
  - exact Hf.
Qed.

Lemma generate_sql_terminated_witness :
  terminated "SELECT 1;" = true
  /\ "SELECT 1;" <> ""
  /\ (forall model,
        Some (fun _ : string => Returns (ContentStr "```sql SELECT 1 ```")) = Some model ->
        generate_sql_try silent_rag
          (Some (fun _ => Returns (ContentStr "```sql SELECT 1 ```")))
          "first row" empty_world
        = (Returns "SELECT 1;",
           snd (log (CallInvoke (_build_rag_prompt "first row" [])) empty_world)) ->
        fence_free "SELECT 1;" = true)
  /\ (fence_free "first row" = true -> fence_free "SELECT 1;" = true).
Proof.
  apply (generate_sql_terminated silent_rag
           (Some (fun _ => Returns (ContentStr "```sql SELECT 1 ```")))
           "first row" "" empty_world
           (snd (log (CallInvoke (_build_rag_prompt "first row" [])) empty_world))).
  reflexivity.
Defined.

(** C2, as stated, fails on the placeholder path: for the question made of
    one fence marker, the returned statement is terminated but still holds
    the marker. *)
Lemma generate_sql_fence_counterexample :
  generate_sql silent_rag None "```" "" empty_world
  = (Returns (no_model_sql "```"), empty_world)
  /\ terminated (no_model_sql "```") = true
  /\ fence_free (no_model_sql "```") = false.
Proof. repeat split. Qed.

(** C3 (amended).  The fallback generator lower-cases the question once
    and tests its keyword rules in order, the first match winning.  For
    "delete all tables" it gives the cascade drop of the three known
    tables.  The city filter is given to the questions that have "users"
    and "city" (and do not match the drop rule); the age filter, with the
    threshold that the pattern extracts and 25 when it extracts none, to
    the questions that have "under" and "age" and match no earlier rule,
    such as "users with age under 18".  A question that matches no rule
    gets the template with the question as a comment, selecting from
    [users] with the default limit; "show me users in new york" (no
    "city") and "users under 18" (no "age") are such questions. *)
Theorem fallback_precedence :
  _fallback_sql "delete all tables" = drop_all_tables_sql
  /\ _fallback_sql "show me users in new york"
     = generic_fallback_sql "show me users in new york"
  /\ _fallback_sql "users under 18" = generic_fallback_sql "users under 18"
  /\ _fallback_sql "users with age under 18" = age_filter_sql "18"
  /\ (forall question,
        rule_drop (lower question) = false ->
        rule_city (lower question) = true ->
        _fallback_sql question = city_filter_sql)
  /\ (forall question,
        rule_drop (lower question) = false ->
        rule_city (lower question) = false ->
        rule_amount (lower question) = false ->
        rule_count (lower question) = false ->
        rule_join (lower question) = false ->
        rule_age (lower question) = true ->
        _fallback_sql question
        = match search_under (lower question) with
          | Some age => age_filter_sql age
          | None => age_filter_sql "25"
          end)
  /\ (forall question,
        matches_no_rule question = true ->
        _fallback_sql question
        = "-- Fallback query for: " +:+ question +:+ nl +:+
          "SELECT * FROM users LIMIT 10;").
Proof.
  repeat split.
  - intros question H1 H2. rewrite fallback_rules. cbv zeta. now rewrite H1, H2.
  - intros question H1 H2 H3 H4 H5 H6. rewrite fallback_rules. cbv zeta.
    rewrite H1, H2, H3, H4, H5, H6. now destruct (search_under _).
  - intros question H. unfold matches_no_rule in H. cbv zeta in H.
    rewrite !andb_true_iff, !negb_true_iff in H.
    destruct H as [[[[[H1 H2] H3] H4] H5] H6].
    rewrite fallback_rules. cbv zeta. now rewrite H1, H2, H3, H4, H5, H6.
Qed.

Lemma fallback_precedence_witness :
  _fallback_sql "Which USERS live in my city?" = city_filter_sql
  /\ _fallback_sql "people of age under 30"
     = match search_under (lower "people of age under 30") with
       | Some age => age_filter_sql age
       | None => age_filter_sql "25"
       end
  /\ _fallback_sql "list everything"
     = "-- Fallback query for: " +:+ "list everything" +:+ nl +:+
       "SELECT * FROM users LIMIT 10;".
Proof.
  split; [|split].
  - apply (proj1 (proj2 (proj2 (proj2 (proj2 fallback_precedence))))); reflexivity.
  - apply (proj1 (proj2 (proj2 (proj2 (proj2 (proj2 fallback_precedence))))));
      reflexivity.
  - apply (proj2 (proj2 (proj2 (proj2 (proj2 (proj2 fallback_precedence))))));
      reflexivity.
Defined.

(** C3, as stated, fails on two of its examples: "show me users in new
    york" does not get the city filter and "users under 18" does not get
    an age filter. *)
Lemma fallback_examples_counterexample :
  _fallback_sql "show me users in new york" <> city_filter_sql
  /\ _fallback_sql "users under 18" <> age_filter_sql "18".
Proof. split; discriminate. Qed.




(** C6.  On an input that already ends with [;], trailing whitespace
    ignored, the cleaner is idempotent: cleaning what it returned returns
    the same text.  (Lemma [clean_str_idempotent] shows it for every
    input.) *)
Theorem clean_idempotent (x : string) :
  terminated x = true ->
  (y <- _clean_sql_response (ContentStr x); _clean_sql_response (ContentStr y))
  = _clean_sql_response (ContentStr x).
Proof.
  intros _. cbn [_clean_sql_response].
  destruct (clean_str_returns x) as (y & Hy & _). rewrite Hy.
  rewrite bind_Returns. now apply clean_str_idempotent with (x := x).
Qed.

Lemma clean_idempotent_witness :
  terminated ("```sql" +:+ nl +:+ "SELECT name FROM users ;" +:+ nl +:+ "```;  ") = true
  /\ (y <- _clean_sql_response
             (ContentStr ("```sql" +:+ nl +:+ "SELECT name FROM users ;" +:+ nl +:+ "```;  "));
      _clean_sql_response (ContentStr y))
     = _clean_sql_response
         (ContentStr ("```sql" +:+ nl +:+ "SELECT name FROM users ;" +:+ nl +:+ "```;  ")).
Proof.
  split; [reflexivity|].
  apply (clean_idempotent ("```sql" +:+ nl +:+ "SELECT name FROM users ;" +:+ nl +:+ "```;  ")).
  reflexivity.
Defined.

(** ** Computations on the world *)

Section MonadFacts.

Lemma regular_ret {A : Type} (a : A) : regular (mret a : M A).
Proof. split; [intros w; reflexivity | intros w1 w2 H; now split]. Qed.

Lemma regular_lift {A : Type} (r : result A) : regular (lift r).
Proof. split; [intros w; reflexivity | intros w1 w2 H; now split]. Qed.

Lemma regular_log (c : Call) : regular (log c).
Proof. split; [intros w; reflexivity | intros w1 w2 H; now split]. Qed.

Lemma regular_get_collection : regular get_collection.
Proof.
  split; [intros w; reflexivity | intros w1 w2 H].
  unfold get_collection. cbn. now rewrite H.
Qed.

Lemma regular_bind {A B : Type} (c : M A) (f : A -> M B) :
  regular c -> (forall a, regular (f a)) -> regular (mbind f c).
Proof.
  intros [Hg Hd] Hf. split.
  - intros w. unfold mbind, M_bind. specialize (Hg w).
    destruct (c w) as [[a|e] w']; cbn [snd] in *; [|exact Hg].
    etransitivity; [exact Hg | apply (Hf a)].
  - intros w1 w2 H. unfold mbind, M_bind. specialize (Hd w1 w2 H).
    destruct (c w1) as [[a1|e1] w1'], (c w2) as [[a2|e2] w2'];
      cbn [fst snd] in *; destruct Hd as [Hr Hc]; try discriminate.
    + injection Hr as ->. now apply (Hf a2).
    + injection Hr as ->. now split.
Qed.

Lemma regular_try_except {A : Type} (body : M A) (handler : exn -> M A) :
  regular body -> (forall e, regular (handler e)) ->
  regular (try_except body handler).
Proof.
  intros [Hg Hd] Hh. split.
  - intros w. unfold try_except. specialize (Hg w).
    destruct (body w) as [[a|e] w']; cbn [snd] in *; [exact Hg|].
    etransitivity; [exact Hg | apply (Hh e)].
  - intros w1 w2 H. unfold try_except. specialize (Hd w1 w2 H).
    destruct (body w1) as [[a1|e1] w1'], (body w2) as [[a2|e2] w2'];
      cbn [fst snd] in *; destruct Hd as [Hr Hc]; try discriminate.
    + injection Hr as ->. now split.
    + injection Hr as ->. now apply (Hh e2).
Qed.

Lemma store_doc_subseteq (m : gmap string Document) (rec : string * Document) :
  m ⊆ store_doc m rec.
Proof.
  unfold store_doc. destruct (m !! rec.1) eqn:E; [reflexivity|].
  now apply insert_subseteq.
Qed.

Lemma foldl_store_doc_subseteq (recs : list (string * Document))
    (m : gmap string Document) :
  m ⊆ foldl store_doc m recs.
Proof.
  revert m. induction recs as [|rec recs IH]; intros m; [reflexivity|].
  cbn [foldl]. etransitivity; [apply store_doc_subseteq | apply IH].
Qed.

Lemma store_doc_present (m : gmap string Document) (id : string) (d : Document) :
  is_Some (m !! id) -> store_doc m (id, d) = m.
Proof. intros [x Hx]. unfold store_doc. cbn [fst]. now rewrite Hx. Qed.

Lemma store_doc_lookup (m : gmap string Document) (id : string) (d : Document) :
  is_Some (store_doc m (id, d) !! id).
Proof.
  unfold store_doc. cbn [fst snd]. destruct (m !! id) eqn:E.
  - rewrite E. eauto.
  - rewrite lookup_insert_eq. eauto.
Qed.

Lemma store_doc_size (m : gmap string Document) (rec : string * Document) :
  size (store_doc m rec) <= S (size m).
Proof.
  unfold store_doc. destruct (m !! rec.1) eqn:E; [lia|].
  rewrite map_size_insert_None by assumption. lia.
Qed.

Lemma subseteq_empty_size (m m' : gmap string Document) :
  m ⊆ m' -> size m' = 0 -> m = ∅.
Proof.
  intros H Hs. apply map_subseteq_size in H.
  apply map_size_empty_iff. lia.
Qed.

End MonadFacts.

(** ** The collection *)

Section CollectionFacts.

Variable distance : string -> string -> nat.
Variable count_raises : gmap string Document -> bool.
Variable add_raises :
  gmap string Document -> list string -> list Metadata -> list string -> bool.
Variable get_raises : gmap string Document -> list string -> bool.
Variable query_raises : gmap string Document -> list string -> Z -> bool.

Lemma collection_count_run (w : World) :
  collection_count count_raises w
  = (if count_raises (collection w) then Raises (BackendError "count")
     else Returns (size (collection w)),
     snd (log CallCount w)).
Proof.
  unfold collection_count, mbind, M_bind, log, get_collection, lift. cbn.
  now destruct (count_raises (collection w)).
Qed.

Lemma collection_add_run (docs : list string) (metas : list Metadata)
    (ids : list string) (w : World) :
  collection_add add_raises docs metas ids w
  = if add_raises (collection w) docs metas ids
       || negb (length docs =? length ids)%nat
       || negb (length metas =? length ids)%nat
    then (Raises (BackendError "add"), snd (log (CallAdd ids) w))
    else (Returns tt,
          {| collection :=
               foldl store_doc (collection w)
                 (zip ids (zip_with Build_Document docs metas));
             history := history w;
             calls := calls w ++ [CallAdd ids] |}).
Proof.
  unfold collection_add, mbind, M_bind, log, get_collection, put_collection, lift.
  cbn. now destruct (_ || _ || _).
Qed.

Lemma collection_get_run (ids : list string) (w : World) :
  collection_get get_raises ids w
  = (if get_raises (collection w) ids then Raises (BackendError "get")
     else Returns (List.filter (fun i => bool_decide (is_Some (collection w !! i))) ids),
     snd (log (CallGet ids) w)).
Proof.
  unfold collection_get, mbind, M_bind, log, get_collection, lift. cbn.
  now destruct (get_raises (collection w) ids).
Qed.

Lemma regular_collection_count : regular (collection_count count_raises).
Proof.
  split.
  - intros w. rewrite collection_count_run. reflexivity.
  - intros w1 w2 H. rewrite !collection_count_run. cbn. now rewrite H.
Qed.

Lemma regular_collection_add (docs : list string) (metas : list Metadata)
    (ids : list string) :
  regular (collection_add add_raises docs metas ids).
Proof.
  split.
  - intros w. rewrite collection_add_run.
    destruct (_ || _ || _); cbn; [reflexivity | apply foldl_store_doc_subseteq].
  - intros w1 w2 H. rewrite !collection_add_run. rewrite H.
    destruct (_ || _ || _); cbn; now rewrite ?H.
Qed.

Lemma regular_collection_get (ids : list string) :
  regular (collection_get get_raises ids).
Proof.
  split.
  - intros w. rewrite collection_get_run. reflexivity.
  - intros w1 w2 H. rewrite !collection_get_run. cbn. now rewrite H.
Qed.

End CollectionFacts.

(** ** The claims on [rag_service.py] *)

Section RetrieverFacts.

Variable distance : string -> string -> nat.
Variable query_raises : gmap string Document -> list string -> Z -> bool.

Lemma zip_with_map {A B C D : Type} (f : B -> C -> D) (g : A -> B)
    (h : A -> C) (l : list A) :
  zip_with f (map g l) (map h l) = map (fun x => f (g x) (h x)) l.
Proof. induction l as [|x l IH]; cbn; [reflexivity | now rewrite IH]. Qed.

Lemma retrieve_context_run (query : string) (top_k : Z) (w : World) :
  retrieve_context distance query_raises query top_k w
  = (Returns
       (if query_raises (collection w) [query] top_k then []
        else map (fun d => {| content := doc_content d;
                              metadata := doc_metadata d |})
                 (nearest distance (collection w) query top_k)),
     snd (log (CallQuery [query] top_k) w)).
Proof.
  unfold retrieve_context, try_except, collection_query, mbind, M_bind, log,
    get_collection, lift. cbn [snd fst collection].
  destruct (query_raises (collection w) [query] top_k); [reflexivity|].
  unfold mret, M_ret. cbn [documents metadatas map is_nil negb index nth_error].
  destruct (nearest distance (collection w) query top_k) as [|d ds]; [reflexivity|].
  cbn [map is_nil negb zip_with]. now rewrite zip_with_map.
Qed.


End RetrieverFacts.



Section CuratorFacts.

Variable Row : Type.
Variable schema_info : list (string * list Column).
Variable sample_data : list (string * list Row).
Variable json_dumps : list Row -> result string.
Variable count_raises : gmap string Document -> bool.
Variable add_raises :
  gmap string Document -> list string -> list Metadata -> list string -> bool.

Lemma regular_add_individually (items : list KnowledgeItem) (n : nat) :
  regular (add_individually add_raises items n).
Proof.
  revert n. induction items as [|item items IH]; intros n.
  - apply regular_ret.
  - cbn [add_individually]. apply regular_bind; [|intros a; apply IH].
    apply regular_try_except; [|intros e; apply regular_ret].
    apply regular_bind; [apply regular_collection_add | intros a; apply regular_ret].
Qed.

Lemma regular_populate :
  regular (populate_knowledge_base Row schema_info sample_data json_dumps
             count_raises add_raises).
Proof.
  unfold populate_knowledge_base.
  apply regular_bind; [apply regular_collection_count | intros n].
  destruct (0 <? n)%nat.
  - apply regular_bind; [apply regular_collection_count | intros a; apply regular_ret].
  - apply regular_try_except; [apply regular_collection_add | intros e].
    apply regular_bind; [apply regular_add_individually | intros a; apply regular_ret].
Qed.

(** The guard of [populate_knowledge_base]. *)
Lemma populate_guard (w : World) :
  (0 < size (collection w))%nat ->
  collection (snd (populate_knowledge_base Row schema_info sample_data
                     json_dumps count_raises add_raises w))
  = collection w.
Proof.
  intros H. unfold populate_knowledge_base, mbind at 1, M_bind.
  rewrite collection_count_run.
  destruct (count_raises (collection w)) eqn:E; [reflexivity|].
  apply Nat.ltb_lt in H. rewrite H.
  unfold mbind, M_bind. rewrite collection_count_run. cbn [collection log snd].
  rewrite E. reflexivity.
Qed.

End CuratorFacts.

(** C7.  Curator population is idempotent: from any state of the
    collection, and with the database and the backend answering the second
    call as they answered the first, two calls of
    [populate_knowledge_base] in sequence leave as many documents as one
    call; and a call on a collection whose count is greater than zero
    leaves the collection as it is. *)
Theorem populate_idempotent (Row : Type)
    (schema_info : list (string * list Column))
    (sample_data : list (string * list Row))
    (json_dumps : list Row -> result string)
    (count_raises : gmap string Document -> bool)
    (add_raises :
       gmap string Document -> list string -> list Metadata -> list string -> bool)
    (w : World) :
  let populate :=
    populate_knowledge_base Row schema_info sample_data json_dumps
      count_raises add_raises in
  size (collection (snd (populate (snd (populate w)))))
  = size (collection (snd (populate w)))
  /\ ((0 < size (collection w))%nat -> collection (snd (populate w)) = collection w).
Proof.
  intros populate. split; [|apply populate_guard].
  destruct (regular_populate Row schema_info sample_data json_dumps
              count_raises add_raises) as [Hgrows Hdet].
  fold populate in Hgrows, Hdet.
  destruct (size (collection (snd (populate w)))) as [|n] eqn:E.
  - pose proof (subseteq_empty_size _ _ (Hgrows w) E) as Hw.
    apply map_size_empty_iff in E.
    destruct (Hdet (snd (populate w)) w) as [_ Hc]; [now rewrite E, Hw|].
    rewrite Hc, E. reflexivity.
  - unfold populate at 1. rewrite populate_guard; [exact E | lia].
Qed.

Lemma populate_idempotent_witness :
  collection (snd (populate_knowledge_base unit [] [] (fun _ => Returns "[]")
                     never_count never_add one_document_world))
  = collection one_document_world.
Proof.
  refine (proj2 (populate_idempotent unit [] [] (fun _ => Returns "[]")
                   never_count never_add one_document_world) _).
  unfold one_document_world. cbn [collection]. rewrite map_size_singleton. lia.
Defined.

Section FeedbackFacts.

Variable hash : string -> Z.
Variable add_raises :
  gmap string Document -> list string -> list Metadata -> list string -> bool.
Variable get_raises : gmap string Document -> list string -> bool.

Lemma regular_add_successful_query (question sql : string) :
  regular (add_successful_query hash add_raises get_raises question sql).
Proof.
  unfold add_successful_query.
  apply regular_try_except; [|intros e; apply regular_ret].
  apply regular_bind.
  - apply regular_try_except; [|intros e; apply regular_ret].
    apply regular_bind; [apply regular_collection_get | intros a; apply regular_ret].
  - intros [|]; [apply regular_ret | apply regular_collection_add].
Qed.

(** One call of [add_successful_query]: it returns; when the existence
    check answers and finds the id, only that call is made; otherwise
    the state is the one that [collection.add] leaves. *)
Lemma add_successful_query_run (question sql : string) (w : World) :
  let id := query_id hash question sql in
  let w1 := snd (log (CallGet [id]) w) in
  add_successful_query hash add_raises get_raises question sql w
  = (Returns tt,
     if negb (get_raises (collection w) [id])
        && bool_decide (is_Some (collection w !! id))
     then w1
     else snd (collection_add add_raises [learned_document question sql]
                 [learned_metadata] [id] w1)).
Proof.
  intros id w1. unfold add_successful_query, try_except, mbind, M_bind.
  fold id. rewrite collection_get_run. fold w1.
  destruct (get_raises (collection w) [id]); cbn [negb andb].
  - unfold mret, M_ret.
    now destruct (collection_add _ _ _ _ w1) as [[[]|e] w2].
  - cbn [List.filter]. destruct (bool_decide (is_Some (collection w !! id)));
      unfold mret, M_ret; cbn [is_nil negb]; [reflexivity|].
    now destruct (collection_add _ _ _ _ w1) as [[[]|e] w2].
Qed.

Lemma add_successful_query_collection (question sql : string) (w : World) :
  let id := query_id hash question sql in
  let m := collection w in
  let m' := collection (snd (add_successful_query hash add_raises get_raises
                               question sql w)) in
  (is_Some (m !! id) -> m' = m)
  /\ (m' = m
      \/ m !! id = None
         /\ add_raises m [learned_document question sql] [learned_metadata] [id]
            = false
         /\ m' = <[id := {| doc_content := learned_document question sql;
                            doc_metadata := learned_metadata |}]> m).
Proof.
  intros id m m'. subst m'. rewrite add_successful_query_run. fold id. cbn [snd].
  destruct (negb _ && _) eqn:E; [cbn [log snd collection]; now split; [|left]|].
  rewrite collection_add_run. cbn [log snd collection length Nat.eqb negb orb].
  rewrite !orb_false_r. fold m.
  destruct (add_raises m _ _ _) eqn:Ea; cbn [snd collection];
    [now split; [|left]|].
  cbn [zip zip_with foldl]. split.
  - intros H. now apply store_doc_present.
  - unfold store_doc. cbn [fst snd]. destruct (m !! id) eqn:El; [now left|].
    right. now repeat split.
Qed.

Lemma add_successful_query_recorded (question sql : string) (w : World) :
  add_raises (collection w) [learned_document question sql] [learned_metadata]
    [query_id hash question sql] = false ->
  is_Some (collection (snd (add_successful_query hash add_raises get_raises
                              question sql w))
           !! query_id hash question sql).
Proof.
  intros Ha. rewrite add_successful_query_run. cbn [snd].
  destruct (negb _ && _) eqn:E.
  - apply andb_true_iff in E as [_ E]. apply bool_decide_eq_true in E. exact E.
  - rewrite collection_add_run. cbn [log snd collection length Nat.eqb negb orb].
    rewrite !orb_false_r, Ha. cbn [snd collection zip zip_with foldl].
    apply store_doc_lookup.
Qed.

End FeedbackFacts.

(** C9.  Feedback recording is deduplicated by the identifier derived
    from the content.  Two calls [learn_from_query question sql True] in
    sequence: the second leaves the collection as the first left it; the
    two together add at most one document, stored under the identifier of
    the pair with the text of the pair; and when the existence check of
    the second call answers and finds the identifier, the second call
    makes that check and no insertion.  A call with [success = False]
    changes nothing. *)
Theorem learn_twice_once (hash : string -> Z)
    (distance : string -> string -> nat)
    (add_raises :
       gmap string Document -> list string -> list Metadata -> list string -> bool)
    (get_raises : gmap string Document -> list string -> bool)
    (query_raises : gmap string Document -> list string -> Z -> bool)
    (question sql : string) (w : World) :
  let rag := rag_service hash distance add_raises get_raises query_raises in
  let id := query_id hash question sql in
  let w1 := snd (learn_from_query rag question sql true w) in
  let w2 := snd (learn_from_query rag question sql true w1) in
  collection w2 = collection w1
  /\ (size (collection w2) <= S (size (collection w)))%nat
  /\ (forall i d,
        collection w2 !! i = Some d -> collection w !! i = None ->
        i = id
        /\ d = {| doc_content := learned_document question sql;
                  doc_metadata := learned_metadata |})
  /\ (get_raises (collection w1) [id] = false ->
      is_Some (collection w1 !! id) ->
      calls w2 = calls w1 ++ [CallGet [id]])
  /\ learn_from_query rag question sql false w = (Returns tt, w).
Proof.
  intros rag id w1 w2.
  pose proof (add_successful_query_collection hash add_raises get_raises
                question sql w) as [_ Hstep].
  cbv zeta in Hstep.
  change (collection (snd (add_successful_query hash add_raises get_raises
                             question sql w)))
    with (collection w1) in Hstep.
  change (query_id hash question sql) with id in Hstep.
  assert (Hsame : collection w2 = collection w1).
  { destruct (collection w1 !! id) eqn:E.
    - apply (add_successful_query_collection hash add_raises get_raises question sql w1).
      fold id. rewrite E. eauto.
    - destruct Hstep as [Hw | (_ & _ & Hw)].
      + destruct (regular_add_successful_query hash add_raises get_raises question sql)
          as [_ Hdet].
        destruct (Hdet w1 w Hw) as [_ Hc]. exact Hc.
      + rewrite Hw, lookup_insert_eq in E. discriminate. }
  split; [exact Hsame|]. rewrite Hsame.
  split; [|split; [|split]].
  - destruct Hstep as [-> | (Hn & _ & ->)]; [lia|].
    rewrite map_size_insert_None by exact Hn. lia.
  - intros i d Hi Hw. destruct Hstep as [Hs | (Hn & _ & Hs)]; rewrite Hs in Hi;
      [congruence|].
    destruct (decide (id = i)) as [<-|Hne].
    + rewrite lookup_insert_eq in Hi. injection Hi as <-. now split.
    + rewrite lookup_insert_ne in Hi by exact Hne. congruence.
  - intros Hg Hi. unfold w2, learn_from_query, rag, rag_service.
    cbn [rag_add_successful_query].
    rewrite add_successful_query_run. fold id. cbn [snd].
    rewrite Hg, (bool_decide_eq_true_2 _ Hi). reflexivity.
  - reflexivity.
Qed.

Lemma learn_twice_once_witness :
  calls (snd (learn_from_query
                (rag_service length_hash length_distance never_add never_get never_query)
                "count users" "SELECT COUNT(*) FROM users;" true
                (snd (learn_from_query
                        (rag_service length_hash length_distance never_add never_get
                           never_query)
                        "count users" "SELECT COUNT(*) FROM users;" true empty_world))))
  = calls (snd (learn_from_query
                  (rag_service length_hash length_distance never_add never_get
                     never_query)
                  "count users" "SELECT COUNT(*) FROM users;" true empty_world))
    ++ [CallGet [query_id length_hash "count users" "SELECT COUNT(*) FROM users;"]].
Proof.
  refine (proj1 (proj2 (proj2 (proj2
    (learn_twice_once length_hash length_distance never_add never_get never_query
       "count users" "SELECT COUNT(*) FROM users;" empty_world)))) _ _).
  - reflexivity.
  - apply add_successful_query_recorded. reflexivity.
Defined.

(** C10.  The identifier of a learned example is computed from the
    concatenation [question + sql], so it does not tell apart two pairs
    with the same concatenation: the distinct pairs ("ab", "c") and
    ("a", "bc") get the same identifier, and once the first pair is
    recorded, recording the second inserts nothing. *)
Theorem learned_id_conflates (hash : string -> Z)
    (distance : string -> string -> nat)
    (add_raises :
       gmap string Document -> list string -> list Metadata -> list string -> bool)
    (get_raises : gmap string Document -> list string -> bool)
    (query_raises : gmap string Document -> list string -> Z -> bool) :
  let rag := rag_service hash distance add_raises get_raises query_raises in
  ("ab", "c") <> ("a", "bc")
  /\ query_id hash "ab" "c" = query_id hash "a" "bc"
  /\ (forall q1 s1 q2 s2,
        q1 +:+ s1 = q2 +:+ s2 -> query_id hash q1 s1 = query_id hash q2 s2)
  /\ (forall q1 s1 q2 s2 w,
        q1 +:+ s1 = q2 +:+ s2 ->
        is_Some (collection w !! query_id hash q1 s1) ->
        collection (snd (learn_from_query rag q2 s2 true w)) = collection w)
  /\ (forall w,
        add_raises (collection w) [learned_document "ab" "c"] [learned_metadata]
          [query_id hash "ab" "c"] = false ->
        let w1 := snd (learn_from_query rag "ab" "c" true w) in
        collection (snd (learn_from_query rag "a" "bc" true w1)) = collection w1).
Proof.
  intros rag.
  assert (Hid : forall q1 s1 q2 s2,
            q1 +:+ s1 = q2 +:+ s2 -> query_id hash q1 s1 = query_id hash q2 s2).
  { intros q1 s1 q2 s2 H. unfold query_id. now rewrite H. }
  assert (Hskip : forall q1 s1 q2 s2 w,
            q1 +:+ s1 = q2 +:+ s2 ->
            is_Some (collection w !! query_id hash q1 s1) ->
            collection (snd (learn_from_query rag q2 s2 true w)) = collection w).
  { intros q1 s1 q2 s2 w H Hi. rewrite (Hid q1 s1 q2 s2 H) in Hi.
    now apply (add_successful_query_collection hash add_raises get_raises q2 s2 w). }
  split; [discriminate|]. split; [now apply Hid|]. split; [exact Hid|].
  split; [exact Hskip|].
  intros w Ha w1. apply (Hskip "ab" "c"); [reflexivity|].
  now apply add_successful_query_recorded.
Qed.

Lemma learned_id_conflates_witness :
  collection
    (snd (learn_from_query
            (rag_service length_hash length_distance never_add never_get never_query)
            "a" "bc" true
            (snd (learn_from_query
                    (rag_service length_hash length_distance never_add never_get
                       never_query)
                    "ab" "c" true empty_world))))
  = collection
      (snd (learn_from_query
              (rag_service length_hash length_distance never_add never_get never_query)
              "ab" "c" true empty_world)).
Proof.
  refine (proj2 (proj2 (proj2 (proj2
    (learned_id_conflates length_hash length_distance never_add never_get
       never_query)))) empty_world _).
  reflexivity.
Defined.

(** ** Examples *)

Example split_fences : split "```" "a```b```c" = ["a"; "b"; "c"].
Proof. reflexivity. Qed.

Example split_overlapping : split "```" "````" = [""; "`"].
Proof. reflexivity. Qed.

Example split_empty_text : split "x" "" = [""].
Proof. reflexivity. Qed.

Example split_only_separator : split "ab" "ab" = [""; ""].
Proof. reflexivity. Qed.

Example strip_both_ends : strip ("  a b" +:+ nl +:+ " ") = "a b".
Proof. reflexivity. Qed.

Example lower_ascii : lower "Show ME" = "show me".
Proof. reflexivity. Qed.

Example str_of_int_signed : str_of_int (-42) = "-42" /\ str_of_int 0 = "0".
Proof. split; reflexivity. Qed.

Example endswith_semicolon :
  endswith ";" "a;" = true /\ endswith ";" "a; " = false /\ endswith ";" "" = false.
Proof. repeat split; reflexivity. Qed.

Example search_under_first_number :
  search_under "under age, under  30 or under 40" = Some "30".
Proof. reflexivity. Qed.

Example fallback_drop_one_table :
  _fallback_sql "Drop the orders table"
  = "-- Example: DROP TABLE table_name CASCADE;" +:+ nl +:+
    "SELECT 'Specify which table to drop' as message;".
Proof. reflexivity. Qed.

Example fallback_count_before_join :
  _fallback_sql "count users and orders" = "SELECT COUNT(*) as user_count FROM users;".
Proof. reflexivity. Qed.

Example clean_keeps_language_tag :
  clean_str ("```postgresql" +:+ nl +:+ "SELECT 1" +:+ nl +:+ "```")
  = Returns ("postgresql" +:+ nl +:+ "SELECT 1;").
Proof. reflexivity. Qed.

Example clean_only_comment : clean_str "--nothing" = Returns ";".
Proof. reflexivity. Qed.

Example populate_empty_collection :
  size (collection
          (snd (populate_knowledge_base unit [] [] (fun _ => Returns "[]")
                  never_count never_add empty_world))) = 16%nat.
Proof. vm_compute. reflexivity. Qed.

Example populate_one_by_one :
  size (collection
          (snd (populate_knowledge_base unit
                  [("users", [{| col_name := "id"; col_type := "INTEGER";
                                 col_nullable := false |}])]
                  [("users", [tt])] (fun _ => Returns "[{}]")
                  never_count
                  (fun _ _ _ ids => negb (length ids =? 1)%nat
                                    || bool_decide (ids = ["sorting"]))
                  empty_world))) = 17%nat.
Proof. vm_compute. reflexivity. Qed.

Example schema_item_users :
  item_content
    (schema_item "users"
       [{| col_name := "id"; col_type := "INTEGER"; col_nullable := false |};
        {| col_name := "city"; col_type := "VARCHAR"; col_nullable := true |}])
  = "users table contains columns: id (INTEGER, NOT NULL, PRIMARY KEY), city (VARCHAR). This table is used for storing customer information including personal details and location.".
Proof. reflexivity. Qed.

(** * Further properties *)

(** ** The cleaner, line by line *)

Section CleanShape.

(** What the cleaner returns is a non-empty list of kept lines, joined. *)
Lemma clean_str_shape (x y : string) :
  clean_str x = Returns y ->
  exists ls, ls <> []
             /\ Forall (fun l => kept_line l = true) ls
             /\ y = join nl ls.
Proof.
  unfold clean_str. destruct (unfence_returns (strip x)) as [s [-> Hs]].
  rewrite bind_Returns. cbv zeta. intros [= <-].
  pose proof (sql_lines_of_all_kept s Hs) as Hk.
  destruct (sql_lines_of (split nl s)) as [|l ls] eqn:E.
  - exists [";"]. split; [discriminate|]. split; [|reflexivity].
    constructor; [reflexivity | constructor].
  - remember (l :: ls) as kept eqn:Ekept.
    assert (Hne : kept <> []) by (subst kept; discriminate).
    unfold ensure_semicolon. rewrite (rstrip_join kept Hk).
    destruct (endswith ";" (join nl kept)); cbn [negb].
    + now exists kept.
    + destruct (join_semicolon kept Hne Hk) as (ls' & Hne' & Hk' & Hj).
      now exists ls'.
Qed.

End CleanShape.

(** X1.  Every line of a cleaned text is a line that the cleaner keeps:
    it is not blank, it has no whitespace at either end, and it does not
    begin with the unadorned comment marker [--] (a line beginning with
    [-- ] may stay).  The cleaned text has no fence marker on any line. *)
Theorem clean_lines_kept (response cleaned : string) :
  _clean_sql_response (ContentStr response) = Returns cleaned ->
  Forall (fun l => l <> ""
                   /\ strip l = l
                   /\ (startswith "--" l = true -> startswith "-- " l = true)
                   /\ contains "```" l = false)
         (split nl cleaned).
Proof.
  cbn [_clean_sql_response]. intros H.
  apply clean_str_shape in H as (ls & Hne & Hk & ->).
  rewrite split_join_nl; [|exact Hne|].
  - eapply Forall_impl; [exact Hk|]. intros l Hl.
    apply kept_line_spec in Hl as (H1 & H2 & H3 & _ & H5).
    split; [now apply keep_line_nonempty|]. split; [now apply strip_id|].
    split; [|exact H5].
    unfold keep_line in H3. apply andb_true_iff in H3 as [_ H3].
    intros Hs. rewrite Hs in H3. exact H3.
  - eapply Forall_impl; [exact Hk|]. intros l Hl.
    now apply kept_line_spec in Hl as (_ & _ & _ & H4 & _).
Qed.

Lemma clean_lines_kept_witness :
  Forall (fun l => l <> ""
                   /\ strip l = l
                   /\ (startswith "--" l = true -> startswith "-- " l = true)
                   /\ contains "```" l = false)
         (split nl ("SELECT id" +:+ nl +:+ "-- the users" +:+ nl +:+ "FROM users;")).
Proof.
  apply (clean_lines_kept
           ("```sql" +:+ nl +:+ "  SELECT id  " +:+ nl +:+ "--drop me" +:+ nl +:+
            "-- the users" +:+ nl +:+ nl +:+ "FROM users" +:+ nl +:+ "```")).
  reflexivity.
Defined.


(** ** The fallback generator: what reaches the statement *)

Section FallbackSafety.

Lemma lower_app (a b : string) : lower (a +:+ b) = lower a +:+ lower b.
Proof. induction a as [|c a IH]; simpl; [reflexivity | now rewrite IH]. Qed.

Lemma lower_contains (sub s : string) :
  contains sub s = true -> contains (lower sub) (lower s) = true.
Proof.
  rewrite !contains_spec. intros (a & b & ->).
  exists (lower a), (lower b). now rewrite !lower_app.
Qed.

Lemma contains_trans (a b c : string) :
  contains a b = true -> contains b c = true -> contains a c = true.
Proof.
  rewrite !contains_spec. intros (x & y & ->) (u & v & ->).
  exists (u +:+ x), (y +:+ v). now rewrite !append_assoc.
Qed.

Lemma lower_char_idem (c : ascii) : lower_char (lower_char c) = lower_char c.
Proof. destruct c as [[] [] [] [] [] [] [] []]; reflexivity. Qed.

Lemma lower_idem (s : string) : lower (lower s) = lower s.
Proof.
  induction s as [|c s IH]; simpl; [reflexivity|].
  now rewrite lower_char_idem, IH.
Qed.

(** A prefix in which the first character of [sub] does not occur holds
    no beginning of an occurrence of [sub]. *)
Lemma contains_app_nofirst (a : ascii) (sub p x : string) :
  contains (String a "") p = false ->
  contains (String a sub) (p +:+ x) = contains (String a sub) x.
Proof.
  induction p as [|c p IH]; intros H; [reflexivity|].
  cbn [contains startswith] in H. apply orb_false_iff in H as [Hc Hp].
  rewrite andb_true_r in Hc.
  change (String c p +:+ x) with (String c (p +:+ x)).
  cbn [contains startswith]. now rewrite Hc, IH.
Qed.

Lemma span_all_chars (p : ascii -> bool) (s : string) :
  all_chars p (fst (span p s)) = true.
Proof.
  induction s as [|c s IH]; [reflexivity|].
  cbn [span]. destruct (p c) eqn:E; [|reflexivity].
  destruct (span p s) as [a b]. cbn [fst all_chars] in *. now rewrite E, IH.
Qed.

Lemma match_under_at_all_digits (s d : string) :
  match_under_at s = Some d -> d <> "" /\ all_chars is_digit d = true.
Proof.
  unfold match_under_at. destruct (startswith "under" s); [|discriminate].
  destruct (span is_space (drop 5 s)) as [ws r].
  destruct (is_empty ws); [discriminate|].
  pose proof (span_all_chars is_digit r) as H.
  destruct (span is_digit r) as [ds rest]. cbn [fst] in H.
  destruct (is_empty ds) eqn:E; [discriminate|]. intros [= <-].
  split; [now apply is_empty_false | exact H].
Qed.

Lemma search_under_all_digits (s d : string) :
  search_under s = Some d -> d <> "" /\ all_chars is_digit d = true.
Proof.
  induction s as [|c s IH]; cbn [search_under].
  - destruct (match_under_at "") eqn:E; [|discriminate].
    intros [= <-]. now apply match_under_at_all_digits in E.
  - destruct (match_under_at (String c s)) eqn:E; [|exact IH].
    intros [= <-]. now apply match_under_at_all_digits in E.
Qed.

Lemma all_chars_not_contains (p : ascii -> bool) (c : ascii) (s : string) :
  p c = false -> all_chars p s = true -> contains (String c "") s = false.
Proof.
  intros Hc. induction s as [|a s IH]; [reflexivity|].
  cbn [all_chars contains startswith]. intros H.
  apply andb_true_iff in H as [Ha Hs]. rewrite (IH Hs), andb_true_r, orb_false_r.
  destruct (Ascii.eqb_spec c a) as [->|]; [congruence | reflexivity].
Qed.

End FallbackSafety.

(** X3.  The threshold that the fallback generator takes from the
    question for the age filter is a non-empty run of decimal digits:
    nothing else of the question enters that statement. *)
Theorem age_threshold_is_digits (question age : string) :
  search_under (lower question) = Some age ->
  age <> "" /\ all_chars is_digit age = true
  /\ (rule_drop (lower question) = false ->
      rule_city (lower question) = false ->
      rule_amount (lower question) = false ->
      rule_count (lower question) = false ->
      rule_join (lower question) = false ->
      rule_age (lower question) = true ->
      _fallback_sql question
      = "SELECT * FROM users WHERE age < " +:+ age +:+ " LIMIT 10;").
Proof.
  intros H. destruct (search_under_all_digits _ _ H) as [H1 H2].
  split; [exact H1|]. split; [exact H2|].
  intros R1 R2 R3 R4 R5 R6. rewrite fallback_rules. cbv zeta.
  now rewrite R1, R2, R3, R4, R5, R6, H.
Qed.

Lemma age_threshold_is_digits_witness :
  "042" <> "" /\ all_chars is_digit "042" = true
  /\ (rule_drop (lower "Age UNDER  042; drop") = false ->
      rule_city (lower "Age UNDER  042; drop") = false ->
      rule_amount (lower "Age UNDER  042; drop") = false ->
      rule_count (lower "Age UNDER  042; drop") = false ->
      rule_join (lower "Age UNDER  042; drop") = false ->
      rule_age (lower "Age UNDER  042; drop") = true ->
      _fallback_sql "Age UNDER  042; drop"
      = "SELECT * FROM users WHERE age < " +:+ "042" +:+ " LIMIT 10;").
Proof.
  apply (age_threshold_is_digits "Age UNDER  042; drop" "042"). reflexivity.
Defined.

(** X4.  The fallback generator gives a [DROP TABLE IF EXISTS] statement
    only for a question that, lower-cased, contains "table", "all" and one
    of "delete" and "drop". *)
Theorem fallback_drops_only_on_request (question : string) :
  contains "DROP TABLE IF EXISTS" (_fallback_sql question) = true ->
  (contains "delete" (lower question) || contains "drop" (lower question)) = true
  /\ contains "table" (lower question) = true
  /\ contains "all" (lower question) = true.
Proof.
  rewrite fallback_rules. cbv zeta.
  destruct (rule_drop (lower question)) eqn:Rd.
  - unfold rule_drop in Rd. apply andb_true_iff in Rd as [R1 R2].
    destruct (contains "all" (lower question)); [now intros _ | discriminate].
  - destruct (rule_city _); [discriminate|].
    destruct (rule_amount _); [discriminate|].
    destruct (rule_count _); [discriminate|].
    destruct (rule_join _); [discriminate|].
    destruct (rule_age _).
    + destruct (search_under _) as [age|] eqn:E; [|discriminate].
      apply search_under_all_digits in E as [_ E].
      unfold age_filter_sql.
      rewrite (contains_app_nofirst "D" "ROP TABLE IF EXISTS"
                 "SELECT * FROM users WHERE age < ") by reflexivity.
      rewrite (contains_app_nofirst "D" "ROP TABLE IF EXISTS" age)
        by (now apply (all_chars_not_contains is_digit)).
      discriminate.
    + unfold generic_fallback_sql.
      rewrite (contains_app_nofirst "D" "ROP TABLE IF EXISTS"
                 "-- Fallback query for: ") by reflexivity.
      change (nl +:+ "SELECT * FROM users LIMIT 10;")
        with (String (ascii_of_nat 10) "SELECT * FROM users LIMIT 10;").
      rewrite contains_app_char by (discriminate || reflexivity).
      rewrite orb_false_r. intros H. apply lower_contains in H.
      assert (H1 : contains "drop" (lower question) = true)
        by (now apply (contains_trans _ (lower "DROP TABLE IF EXISTS"))).
      assert (H2 : contains "table" (lower question) = true)
        by (now apply (contains_trans _ (lower "DROP TABLE IF EXISTS"))).
      unfold rule_drop in Rd. rewrite H1, H2, orb_true_r in Rd. discriminate.
Qed.

Lemma fallback_drops_only_on_request_witness :
  (contains "delete" (lower "Please DELETE all my Tables")
   || contains "drop" (lower "Please DELETE all my Tables")) = true
  /\ contains "table" (lower "Please DELETE all my Tables") = true
  /\ contains "all" (lower "Please DELETE all my Tables") = true.
Proof.
  apply (fallback_drops_only_on_request "Please DELETE all my Tables").
  reflexivity.
Defined.

(** X5.  The fallback generator reads the question without regard to
    case: two questions with the same lower-cased text that match a
    keyword rule get the same statement.  (The generic template, for a
    question that matches no rule, repeats the question as it was
    typed.) *)
Theorem fallback_case_insensitive (q1 q2 : string) :
  lower q1 = lower q2 ->
  matches_no_rule q1 = false ->
  _fallback_sql q1 = _fallback_sql q2
  /\ _fallback_sql (lower q1) = _fallback_sql q1.
Proof.
  assert (H : forall a b, lower a = lower b -> matches_no_rule a = false ->
                          _fallback_sql a = _fallback_sql b).
  { intros a b Hl Hm. unfold matches_no_rule in Hm. cbv zeta in Hm.
    rewrite !fallback_rules. cbv zeta. rewrite <- Hl.
    destruct (rule_drop (lower a)); [reflexivity|].
    destruct (rule_city (lower a)); [reflexivity|].
    destruct (rule_amount (lower a)); [reflexivity|].
    destruct (rule_count (lower a)); [reflexivity|].
    destruct (rule_join (lower a)); [reflexivity|].
    destruct (rule_age (lower a)); [reflexivity | discriminate]. }
  intros Hl Hm. split; [now apply H|].
  symmetry. apply H; [now rewrite lower_idem | exact Hm].
Qed.

Lemma fallback_case_insensitive_witness :
  _fallback_sql "COUNT the Users" = _fallback_sql "count THE users"
  /\ _fallback_sql (lower "COUNT the Users") = _fallback_sql "COUNT the Users".
Proof.
  apply (fallback_case_insensitive "COUNT the Users" "count THE users");
    reflexivity.
Defined.

(** X6.  For a question of one line that matches no keyword rule, the
    question stays inside the comment: the generic statement has exactly
    two lines, the comment with the question and the [SELECT]. *)
Theorem generic_fallback_two_lines (question : string) :
  contains nl question = false ->
  matches_no_rule question = true ->
  split nl (_fallback_sql question)
  = ["-- Fallback query for: " +:+ question; "SELECT * FROM users LIMIT 10;"].
Proof.
  intros Hq Hm. unfold matches_no_rule in Hm. cbv zeta in Hm.
  rewrite !andb_true_iff, !negb_true_iff in Hm.
  destruct Hm as [[[[[H1 H2] H3] H4] H5] H6].
  rewrite fallback_rules. cbv zeta. rewrite H1, H2, H3, H4, H5, H6.
  unfold generic_fallback_sql. rewrite <- append_assoc.
  change (("-- Fallback query for: " +:+ question) +:+ nl +:+
          "SELECT * FROM users LIMIT 10;")
    with (join nl ["-- Fallback query for: " +:+ question;
                   "SELECT * FROM users LIMIT 10;"]).
  apply split_join_nl; [discriminate|].
  constructor; [|constructor; [reflexivity | constructor]].
  change ("-- Fallback query for: " +:+ question)
    with ("-- Fallback query for:" +:+ String " " question).
  rewrite contains_app_char by (discriminate || reflexivity).
  now rewrite Hq.
Qed.

Lemma generic_fallback_two_lines_witness :
  split nl (_fallback_sql "list everything; TRUNCATE users")
  = ["-- Fallback query for: " +:+ "list everything; TRUNCATE users";
     "SELECT * FROM users LIMIT 10;"].
Proof.
  apply (generic_fallback_two_lines "list everything; TRUNCATE users");
    reflexivity.
Defined.

(** ** The prompt *)

Section PromptFacts.

Lemma contains_refl (x : string) : contains x x = true.
Proof. apply contains_spec. exists "", "". cbn. now rewrite append_nil_r. Qed.

Lemma contains_app_l (x a b : string) :
  contains x a = true -> contains x (a +:+ b) = true.
Proof. intros H. exact (contains_inside x a "" b H). Qed.

Lemma contains_app_r (x a b : string) :
  contains x b = true -> contains x (a +:+ b) = true.
Proof.
  intros H. pose proof (contains_inside x b a "" H) as H'.
  now rewrite append_nil_r in H'.
Qed.

(** An element of a joined list stands right after a separator, once a
    separator is put before the list. *)
Lemma contains_sep_join_elem (sep x : string) (ls : list string) :
  In x ls -> contains (sep +:+ x) (sep +:+ join sep ls) = true.
Proof.
  induction ls as [|l ls IH]; [contradiction|].
  intros [->|Hin].
  - destruct ls; cbn [join]; [apply contains_refl|].
    rewrite <- append_assoc. apply contains_app_l, contains_refl.
  - specialize (IH Hin). destruct ls as [|l' ls']; [contradiction|].
    change (join sep (l :: l' :: ls')) with (l +:+ sep +:+ join sep (l' :: ls')).
    now apply contains_app_r, contains_app_r.
Qed.

(** The prompt, part by part. *)
Lemma prompt_parts (question : string) (context : list ContextItem) :
  _build_rag_prompt question context
  = prompt_header
    +:+ (nl +:+ join nl (map (fun item => "- " +:+ content item) context))
    +:+ prompt_rules
    +:+ (nl +:+ "USER QUESTION: " +:+ question +:+ nl)
    +:+ nl +:+ "SQL QUERY:".
Proof.
  unfold _build_rag_prompt, prompt_header, prompt_rules. cbv zeta. cbn [join].
  rewrite !append_assoc. reflexivity.
Qed.

End PromptFacts.

(** X7.  The prompt is composed for every question and every context,
    the empty one too: it begins with the instruction header, holds one
    bullet line for each retrieved document, holds the question on the
    line "USER QUESTION: ", and ends with the cue "SQL QUERY:". *)
Theorem prompt_holds_context_and_question (question : string)
    (context : list ContextItem) :
  startswith "You are a PostgreSQL expert." (_build_rag_prompt question context)
  = true
  /\ Forall (fun item =>
               contains (nl +:+ "- " +:+ content item)
                 (_build_rag_prompt question context) = true)
            context
  /\ contains (nl +:+ "USER QUESTION: " +:+ question +:+ nl)
       (_build_rag_prompt question context) = true
  /\ endswith "SQL QUERY:" (_build_rag_prompt question context) = true.
Proof.
  rewrite prompt_parts. split; [|split; [|split]].
  - apply startswith_app_r. reflexivity.
  - apply Forall_forall. intros item Hin. apply list_elem_of_In in Hin.
    apply contains_app_r, contains_app_l.
    apply (contains_sep_join_elem nl ("- " +:+ content item)).
    exact (in_map (fun item => "- " +:+ content item) context item Hin).
  - do 3 apply contains_app_r. apply contains_app_l, contains_refl.
  - do 5 apply endswith_app. reflexivity.
Qed.

(** ** One request *)

Section RequestFacts.

Variable rag : RAG.
Variable llm : option (string -> result Content).


End RequestFacts.

(** X8.  With a model and the repository's retrieval service, one call of
    [generate_sql] makes exactly two calls to the outside, in this order:
    one query of the collection for the question with [top_k] 3, and one
    invocation of the model with the prompt built from the question and
    the retrieved context; there is no retry, whatever the model answers.
    The collection and the history are left as they were. *)
Theorem generate_sql_single_attempt (hash : string -> Z)
    (distance : string -> string -> nat)
    (add_raises :
       gmap string Document -> list string -> list Metadata -> list string -> bool)
    (get_raises : gmap string Document -> list string -> bool)
    (query_raises : gmap string Document -> list string -> Z -> bool)
    (model : string -> result Content) (question db_uri : string)
    (w : World) (context : list ContextItem) :
  fst (retrieve_context distance query_raises question 3 w) = Returns context ->
  let rag := rag_service hash distance add_raises get_raises query_raises in
  let w' := snd (generate_sql rag (Some model) question db_uri w) in
  calls w' = calls w ++ [CallQuery [question] 3;
                         CallInvoke (_build_rag_prompt question context)]
  /\ collection w' = collection w
  /\ history w' = history w.
Proof.
  intros Hc rag w'. subst w'.
  rewrite generate_sql_cases, generate_sql_try_model.
  unfold rag, rag_service. cbn [rag_retrieve_context].
  destruct (retrieve_context distance query_raises question 3 w)
    as [[context'|e] w1] eqn:E; cbn [fst] in Hc; [|discriminate].
  injection Hc as ->.
  rewrite retrieve_context_run in E. injection E as _ <-.
  cbv zeta.
  destruct (model (_build_rag_prompt question context)) as [response|e];
    [destruct (_clean_sql_response response)|];
    cbn [snd fst log calls collection history];
    (split; [now rewrite <- app_assoc | now split]).
Qed.

Lemma generate_sql_single_attempt_witness :
  calls (snd (generate_sql
                (rag_service length_hash length_distance never_add never_get
                   never_query)
                (Some (fun _ => Returns (ContentStr "SELECT 1")))
                "first row" "" one_document_world))
  = calls one_document_world
    ++ [CallQuery ["first row"] 3;
        CallInvoke
          (_build_rag_prompt "first row"
             [{| content := "To show all records from a table: SELECT * FROM table_name LIMIT 10";
                 metadata := [("type", MStr "pattern"); ("intent", MStr "basic_select")] |}])].
Proof.
  refine (proj1 (generate_sql_single_attempt length_hash length_distance never_add
                   never_get never_query
                   (fun _ => Returns (ContentStr "SELECT 1")) "first row" ""
                   one_document_world _ _)).
  vm_compute. reflexivity.
Defined.


(** ** Retrieval: what is returned, and in which order *)

Section RankingFacts.

Variable distance : string -> string -> nat.

#[local] Instance closer_transitive (text : string) :
  Transitive (closer (distance text)).
Proof. intros a b c. unfold closer. lia. Qed.

#[local] Instance closer_total (text : string) : Total (closer (distance text)).
Proof. intros a b. unfold closer. lia. Qed.

Lemma nearest_sorted (m : gmap string Document) (text : string) (n : Z) :
  StronglySorted (closer (distance text)) (nearest distance m text n).
Proof.
  unfold nearest, rank.
  pose proof (StronglySorted_merge_sort (closer (distance text))
                (map snd (map_to_list m))) as H.
  rewrite <- (take_drop (Z.to_nat n)) in H.
  now apply StronglySorted_app_1_l in H.
Qed.

Lemma nearest_stored (m : gmap string Document) (text : string) (n : Z)
    (d : Document) :
  d ∈ nearest distance m text n -> exists id, m !! id = Some d.
Proof.
  unfold nearest, rank. intros H.
  apply elem_of_take in H as (i & H & _).
  apply list_elem_of_lookup_2 in H.
  rewrite merge_sort_Permutation in H.
  apply list_elem_of_fmap in H as ([id d'] & -> & H).
  apply elem_of_map_to_list in H. now exists id.
Qed.

Lemma nearest_length (m : gmap string Document) (text : string) (n : Z) :
  length (nearest distance m text n) = Nat.min (Z.to_nat n) (size m).
Proof.
  unfold nearest, rank.
  rewrite length_take, merge_sort_Permutation, length_map, length_map_to_list.
  reflexivity.
Qed.

Lemma StronglySorted_map {A B : Type} (R : relation A) (S : relation B)
    (f : A -> B) (l : list A) :
  (forall a b, R a b -> S (f a) (f b)) ->
  StronglySorted R l -> StronglySorted S (map f l).
Proof.
  intros Hf. induction 1 as [|a l Hl IH Ha]; cbn [map]; constructor.
  - exact IH.
  - apply Forall_forall. intros b Hb. apply list_elem_of_fmap in Hb as (x & -> & Hx).
    rewrite Forall_forall in Ha. apply Hf, Ha, Hx.
Qed.

End RankingFacts.

(** X10.  When the search does not fail, context retrieval returns
    [min(top_k, count)] items; each of them is the content and the
    metadata of a document of the collection; they come by increasing
    distance to the question, the nearest first. *)
Theorem retrieve_context_ranked (distance : string -> string -> nat)
    (query_raises : gmap string Document -> list string -> Z -> bool)
    (query : string) (top_k : Z) (w : World) (context : list ContextItem) :
  fst (retrieve_context distance query_raises query top_k w) = Returns context ->
  query_raises (collection w) [query] top_k = false ->
  length context = Nat.min (Z.to_nat top_k) (size (collection w))
  /\ StronglySorted
       (fun a b => (distance query (content a) <= distance query (content b))%nat)
       context
  /\ Forall (fun item =>
               exists id d, collection w !! id = Some d
                            /\ content item = doc_content d
                            /\ metadata item = doc_metadata d)
            context.
Proof.
  rewrite retrieve_context_run. cbn [fst]. intros [= <-] Hq. rewrite Hq.
  split; [|split].
  - now rewrite length_map, nearest_length.
  - eapply StronglySorted_map; [|apply nearest_sorted].
    intros a b H. exact H.
  - apply Forall_forall. intros item Hin.
    apply list_elem_of_fmap in Hin as (d & -> & Hd).
    apply nearest_stored in Hd as [id Hid]. now exists id, d.
Qed.

Lemma retrieve_context_ranked_witness :
  length [{| content := "To show all records from a table: SELECT * FROM table_name LIMIT 10";
             metadata := [("type", MStr "pattern"); ("intent", MStr "basic_select")] |}]
  = Nat.min (Z.to_nat 3) (size (collection one_document_world)).
Proof.
  refine (proj1 (retrieve_context_ranked length_distance never_query
                   "all rows" 3 one_document_world _ _ _)).
  - vm_compute. reflexivity.
  - reflexivity.
Defined.

(** ** Metadata *)

Section MetadataFacts.

Lemma clean_metadata_value_scalar (v : MetaValue) :
  is_scalar (clean_metadata_value v) = true.
Proof. now destruct v. Qed.

Lemma clean_metadata_value_id (v : MetaValue) :
  is_scalar v = true -> clean_metadata_value v = v.
Proof. destruct v; [reflexivity | reflexivity | discriminate]. Qed.

Lemma clean_metadata_is_scalar (metadata : Metadata) :
  scalar_metadata (clean_metadata metadata).
Proof.
  unfold scalar_metadata, clean_metadata.
  induction metadata as [|kv md IH]; cbn [map]; constructor; [|exact IH].
  apply clean_metadata_value_scalar.
Qed.

Lemma zip_with_documents_scalar (docs : list string) (metas : list Metadata) :
  Forall scalar_metadata metas ->
  Forall (fun d => scalar_metadata (doc_metadata d))
         (zip_with Build_Document docs metas).
Proof.
  intros H. revert docs. induction H as [|md metas Hmd Hmetas IH]; intros docs.
  - destruct docs; constructor.
  - destruct docs as [|doc docs]; cbn [zip_with]; constructor; [exact Hmd | apply IH].
Qed.

Lemma zip_snd_Forall {A B : Type} (P : B -> Prop) (ids : list A) (l : list B) :
  Forall P l -> Forall (fun rec => P (snd rec)) (zip ids l).
Proof.
  intros H. revert ids. induction H as [|x l Hx Hl IH]; intros ids.
  - destruct ids; constructor.
  - destruct ids as [|i ids]; cbn [zip zip_with]; constructor; [exact Hx | apply IH].
Qed.

Lemma store_doc_Forall (P : Document -> Prop) (m : gmap string Document)
    (rec : string * Document) :
  map_Forall (fun _ d => P d) m -> P (snd rec) ->
  map_Forall (fun _ d => P d) (store_doc m rec).
Proof.
  intros Hm Hrec. unfold store_doc. destruct (m !! rec.1); [exact Hm|].
  now apply map_Forall_insert_2.
Qed.

Lemma foldl_store_doc_Forall (P : Document -> Prop)
    (recs : list (string * Document)) (m : gmap string Document) :
  map_Forall (fun _ d => P d) m ->
  Forall (fun rec => P (snd rec)) recs ->
  map_Forall (fun _ d => P d) (foldl store_doc m recs).
Proof.
  intros Hm H. revert m Hm. induction H as [|rec recs Hrec Hrecs IH]; intros m Hm.
  - exact Hm.
  - cbn [foldl]. apply IH. now apply store_doc_Forall.
Qed.

End MetadataFacts.

Section PreservesFacts.

Variable I : gmap string Document -> Prop.

Lemma preserves_ret {A : Type} (a : A) : preserves I (mret a : M A).
Proof. intros w H. exact H. Qed.

Lemma preserves_bind {A B : Type} (c : M A) (f : A -> M B) :
  preserves I c -> (forall a, preserves I (f a)) -> preserves I (mbind f c).
Proof.
  intros Hc Hf w H. unfold mbind, M_bind. specialize (Hc w H).
  destruct (c w) as [[a|e] w1]; cbn [snd] in *; [now apply Hf | exact Hc].
Qed.

Lemma preserves_try_except {A : Type} (body : M A) (handler : exn -> M A) :
  preserves I body -> (forall e, preserves I (handler e)) ->
  preserves I (try_except body handler).
Proof.
  intros Hb Hh w H. unfold try_except. specialize (Hb w H).
  destruct (body w) as [[a|e] w1]; cbn [snd] in *; [exact Hb | now apply Hh].
Qed.

Lemma preserves_collection_count (count_raises : gmap string Document -> bool) :
  preserves I (collection_count count_raises).
Proof. intros w H. now rewrite collection_count_run. Qed.

End PreservesFacts.

Section ScalarInvariant.

Variable add_raises :
  gmap string Document -> list string -> list Metadata -> list string -> bool.

Lemma preserves_collection_add (docs : list string) (metas : list Metadata)
    (ids : list string) :
  Forall scalar_metadata metas ->
  preserves all_scalar (collection_add add_raises docs metas ids).
Proof.
  intros Hmetas w H. rewrite collection_add_run.
  destruct (_ || _ || _); cbn [snd collection log]; [exact H|].
  apply (foldl_store_doc_Forall (fun d => scalar_metadata (doc_metadata d)));
    [exact H|].
  apply (zip_snd_Forall (fun d => scalar_metadata (doc_metadata d))).
  now apply zip_with_documents_scalar.
Qed.

Lemma preserves_add_individually (items : list KnowledgeItem) (n : nat) :
  preserves all_scalar (add_individually add_raises items n).
Proof.
  revert n. induction items as [|item items IH]; intros n.
  - apply preserves_ret.
  - cbn [add_individually]. apply preserves_bind; [|intros a; apply IH].
    apply preserves_try_except; [|intros e; apply preserves_ret].
    apply preserves_bind; [|intros a; apply preserves_ret].
    apply preserves_collection_add. constructor; [|constructor].
    apply clean_metadata_is_scalar.
Qed.

End ScalarInvariant.

(** X11.  Metadata is sanitised before it reaches the collection: the
    cleaning leaves no list value (a list becomes its comma-joined
    string), keeps the keys and their order, and changes nothing when
    applied again.  [populate_knowledge_base] keeps the collection free of
    list values: if every stored document has scalar metadata before the
    call, so has every stored document after it, on the bulk path and on
    the one-by-one path. *)
Theorem metadata_sanitized (Row : Type)
    (schema_info : list (string * list Column))
    (sample_data : list (string * list Row))
    (json_dumps : list Row -> result string)
    (count_raises : gmap string Document -> bool)
    (add_raises :
       gmap string Document -> list string -> list Metadata -> list string -> bool) :
  (forall metadata,
     scalar_metadata (clean_metadata metadata)
     /\ map fst (clean_metadata metadata) = map fst metadata
     /\ clean_metadata (clean_metadata metadata) = clean_metadata metadata)
  /\ clean_metadata [("type", MStr "relationship"); ("tables", MList ["users"; "orders"])]
     = [("type", MStr "relationship"); ("tables", MStr "users,orders")]
  /\ (forall w,
        all_scalar (collection w) ->
        all_scalar
          (collection
             (snd (populate_knowledge_base Row schema_info sample_data json_dumps
                     count_raises add_raises w)))).
Proof.
  split; [|split; [reflexivity|]].
  - intros metadata. split; [apply clean_metadata_is_scalar|]. split.
    + unfold clean_metadata. rewrite map_map. reflexivity.
    + unfold clean_metadata. rewrite map_map. apply map_ext. intros [k v].
      cbn [fst snd]. f_equal. apply clean_metadata_value_id,
        clean_metadata_value_scalar.
  - change (preserves all_scalar
              (populate_knowledge_base Row schema_info sample_data json_dumps
                 count_raises add_raises)).
    unfold populate_knowledge_base.
    apply preserves_bind; [apply preserves_collection_count | intros n].
    destruct (0 <? n)%nat.
    + apply preserves_bind; [apply preserves_collection_count|].
      intros a. apply preserves_ret.
    + apply preserves_try_except.
      * apply preserves_collection_add. rewrite Forall_map. apply Forall_forall.
        intros md _. apply clean_metadata_is_scalar.
      * intros e. apply preserves_bind; [apply preserves_add_individually|].
        intros a. apply preserves_ret.
Qed.

Lemma metadata_sanitized_witness :
  all_scalar
    (collection
       (snd (populate_knowledge_base unit [] [] (fun _ => Returns "[]")
               never_count never_add one_document_world))).
Proof.
  refine (proj2 (proj2 (metadata_sanitized unit [] [] (fun _ => Returns "[]")
                          never_count never_add)) one_document_world _).
  unfold all_scalar, one_document_world. cbn [collection].
  apply map_Forall_singleton. repeat constructor.
Defined.

(** ** The identifiers of the knowledge items *)

Section IdentifierFacts.

Lemma append_length (a b : string) :
  String.length (a +:+ b) = (String.length a + String.length b)%nat.
Proof. induction a as [|c a IH]; cbn; [reflexivity | now rewrite IH]. Qed.

Lemma append_suffix_inj (s a b : string) : a +:+ s = b +:+ s -> a = b.
Proof.
  revert b. induction a as [|c a IH]; intros [|d b] H.
  - reflexivity.
  - apply (f_equal String.length) in H. cbn in H. rewrite append_length in H. lia.
  - apply (f_equal String.length) in H. cbn in H. rewrite append_length in H. lia.
  - cbn in H. injection H as -> H. f_equal. now apply IH.
Qed.

Lemma endswith_last_char (c : ascii) (t s : string) :
  s <> "" -> endswith (String c "") (t +:+ s) = endswith (String c "") s.
Proof.
  intros Hs. induction t as [|a t IH]; [reflexivity|].
  cbn [String.append endswith]. rewrite IH.
  destruct (String.eqb_spec (String c "") (String a (t +:+ s))) as [E|]; [|reflexivity].
  injection E as _ E. symmetry in E. apply append_empty in E. contradiction.
Qed.

Variable Row : Type.
Variable json_dumps : list Row -> result string.

Lemma sample_items_id (data : list (string * list Row)) (i : string) :
  i ∈ map item_id (sample_items Row json_dumps data) ->
  exists t, t ∈ map fst data /\ i = t +:+ "_samples".
Proof.
  induction data as [|[t samples] data IH]; cbn [sample_items map].
  - intros H. inversion H.
  - assert (Hrest : i ∈ map item_id (sample_items Row json_dumps data) ->
                    exists t0, t0 ∈ t :: map fst data /\ i = t0 +:+ "_samples").
    { intros H. destruct (IH H) as (t0 & H0 & ->). exists t0. split; [|reflexivity].
      now right. }
    destruct (is_nil samples); [exact Hrest|].
    destruct (json_dumps (firstn 3 samples)); [|exact Hrest].
    cbn [map item_id]. intros H. apply elem_of_cons in H as [->|H].
    + exists t. split; [now left | reflexivity].
    + now apply Hrest.
Qed.

Lemma sample_items_NoDup (data : list (string * list Row)) :
  NoDup (map fst data) ->
  NoDup (map item_id (sample_items Row json_dumps data)).
Proof.
  induction data as [|[t samples] data IH]; cbn [sample_items map fst].
  - intros _. constructor.
  - intros H. apply NoDup_cons in H as [Ht H]. specialize (IH H).
    destruct (is_nil samples); [exact IH|].
    destruct (json_dumps (firstn 3 samples)); [|exact IH].
    cbn [map item_id]. apply NoDup_cons. split; [|exact IH].
    intros Hin. apply sample_items_id in Hin as (t0 & H0 & E).
    apply append_suffix_inj in E. now subst t0.
Qed.

Lemma schema_items_NoDup (schema_info : list (string * list Column)) :
  NoDup (map fst schema_info) ->
  NoDup (map item_id (map (fun tc => schema_item (fst tc) (snd tc)) schema_info)).
Proof.
  induction schema_info as [|[t cols] info IH]; cbn [map fst snd].
  - intros _. constructor.
  - intros H. apply NoDup_cons in H as [Ht H]. apply NoDup_cons.
    split; [|now apply IH].
    cbn [schema_item item_id]. intros Hin.
    rewrite map_map in Hin. apply list_elem_of_fmap in Hin as ([t0 c0] & E & H0).
    cbn [schema_item item_id fst snd] in E. apply append_suffix_inj in E. subst t0.
    apply Ht. apply list_elem_of_fmap. now exists (t, c0).
Qed.

Lemma schema_items_id (schema_info : list (string * list Column)) (i : string) :
  i ∈ map item_id (map (fun tc => schema_item (fst tc) (snd tc)) schema_info) ->
  exists t, i = t +:+ "_schema".
Proof.
  rewrite map_map. intros H. apply list_elem_of_fmap in H as ([t c] & -> & _).
  now exists t.
Qed.

(** The identifiers of the sixteen fixed items. *)
Lemma static_ids :
  map item_id (relationship_items ++ query_patterns ++ examples ++ postgres_tips)
  = ["users_orders_relationship"; "basic_select"; "filter_by_column";
     "count_records"; "join_tables"; "aggregation"; "sorting"; "users_by_city";
     "orders_by_amount"; "recent_orders"; "user_order_summary"; "top_customers";
     "age_filter"; "postgres_string_matching"; "postgres_date_functions";
     "postgres_limits"].
Proof. reflexivity. Qed.

Lemma static_ids_NoDup :
  NoDup (map item_id
           (relationship_items ++ query_patterns ++ examples ++ postgres_tips)).
Proof.
  rewrite static_ids. apply (bool_decide_unpack _). vm_compute. exact I.
Qed.

Lemma static_ids_suffix (i : string) :
  i ∈ map item_id
        (relationship_items ++ query_patterns ++ examples ++ postgres_tips) ->
  endswith "a" i = false /\ endswith "_samples" i = false.
Proof.
  rewrite static_ids. intros H.
  repeat (apply elem_of_cons in H as [->|H]; [split; reflexivity|]).
  inversion H.
Qed.

Lemma knowledge_items_NoDup (schema_info : list (string * list Column))
    (sample_data : list (string * list Row)) :
  NoDup (map fst schema_info) ->
  NoDup (map fst sample_data) ->
  NoDup (map item_id (knowledge_items Row schema_info sample_data json_dumps)).
Proof.
  intros Hs Hd. unfold knowledge_items. rewrite !map_app.
  rewrite <- !map_app.
  change (map item_id
            (map (fun tc => schema_item (fst tc) (snd tc)) schema_info
             ++ sample_items Row json_dumps sample_data
             ++ relationship_items ++ query_patterns ++ examples ++ postgres_tips))
    with (map item_id
            (map (fun tc => schema_item (fst tc) (snd tc)) schema_info
             ++ (sample_items Row json_dumps sample_data
                 ++ (relationship_items ++ query_patterns ++ examples
                     ++ postgres_tips)))).
  rewrite !map_app. apply NoDup_app. split; [now apply schema_items_NoDup|].
  split.
  - intros i Hi Hrest. apply schema_items_id in Hi as [t ->].
    apply elem_of_app in Hrest as [H|H].
    + apply sample_items_id in H as (t0 & _ & E).
      apply (f_equal (endswith "a")) in E.
      rewrite !endswith_last_char in E by discriminate. discriminate.
    + apply static_ids_suffix in H as [H _].
      rewrite endswith_last_char in H by discriminate. discriminate.
  - apply NoDup_app. split; [now apply sample_items_NoDup|].
    split; [|apply static_ids_NoDup].
    intros i Hi Hrest. apply sample_items_id in Hi as (t & _ & ->).
    apply static_ids_suffix in Hrest as [_ H].
    rewrite endswith_app in H by reflexivity. discriminate.
Qed.

End IdentifierFacts.

Section StoreFacts.

Lemma foldl_store_doc_size (recs : list (string * Document))
    (m : gmap string Document) :
  NoDup (map fst recs) ->
  (forall i, i ∈ map fst recs -> m !! i = None) ->
  size (foldl store_doc m recs) = (size m + length recs)%nat.
Proof.
  revert m. induction recs as [|[i d] recs IH]; intros m Hnd Hfresh.
  - cbn. lia.
  - cbn [map fst] in Hnd. apply NoDup_cons in Hnd as [Hi Hnd].
    cbn [foldl]. unfold store_doc at 2. cbn [fst snd].
    rewrite (Hfresh i) by (cbn [map fst]; now left).
    rewrite IH; [|exact Hnd|].
    + rewrite map_size_insert_None by (apply Hfresh; cbn [map fst]; now left).
      cbn [length]. lia.
    + intros j Hj. rewrite lookup_insert_ne by (intros ->; contradiction).
      apply Hfresh. cbn [map fst]. now right.
Qed.

Lemma foldl_store_doc_lookup (recs : list (string * Document))
    (m : gmap string Document) (i : string) :
  i ∈ map fst recs -> is_Some (foldl store_doc m recs !! i).
Proof.
  revert m. induction recs as [|[j d] recs IH]; intros m H.
  - inversion H.
  - cbn [map fst] in H. cbn [foldl]. apply elem_of_cons in H as [->|H].
    + eapply lookup_weaken_is_Some; [apply store_doc_lookup|].
      apply foldl_store_doc_subseteq.
    + now apply IH.
Qed.

(** The records that [populate_knowledge_base] hands to [collection.add]
    for its items. *)
Lemma zip_items (items : list KnowledgeItem) :
  zip (map item_id items)
      (zip_with Build_Document (map item_content items)
         (map clean_metadata (map item_metadata items)))
  = map (fun item => (item_id item,
                      {| doc_content := item_content item;
                         doc_metadata := clean_metadata (item_metadata item) |}))
        items.
Proof.
  induction items as [|item items IH]; [reflexivity|].
  cbn [map zip zip_with]. f_equal. exact IH.
Qed.

Variable count_raises : gmap string Document -> bool.
Variable add_raises :
  gmap string Document -> list string -> list Metadata -> list string -> bool.

(** On the one-by-one path, an item whose own insertion does not fail is
    stored, whatever happens to the others. *)
Lemma add_individually_stores (items : list KnowledgeItem) (item : KnowledgeItem)
    (n : nat) (w : World) :
  In item items ->
  (forall m, add_raises m [item_content item] [clean_metadata (item_metadata item)]
               [item_id item] = false) ->
  is_Some (collection (snd (add_individually add_raises items n w))
           !! item_id item).
Proof.
  intros Hin Hok. revert n w. induction items as [|it items IH]; intros n w;
    [contradiction|].
  cbn [add_individually]. unfold mbind at 1, M_bind.
  destruct Hin as [->|Hin].
  - unfold try_except, mbind, M_bind. rewrite collection_add_run, Hok.
    cbn [length Nat.eqb negb orb zip zip_with foldl mret M_ret].
    destruct (regular_add_individually add_raises items (S n)) as [Hg _].
    eapply lookup_weaken_is_Some; [|apply Hg].
    cbn [collection]. apply store_doc_lookup.
  - unfold try_except.
    destruct (mbind _ (collection_add add_raises _ _ _) w) as [[a|e] w1];
      unfold mret, M_ret; now apply IH.
Qed.

(** On an empty collection, when the count and the bulk insertion do not
    fail, one document is stored per item, the identifiers being
    distinct. *)
Lemma populate_bulk_size (Row : Type)
    (schema_info : list (string * list Column))
    (sample_data : list (string * list Row))
    (json_dumps : list Row -> result string) (w : World) :
  let items := knowledge_items Row schema_info sample_data json_dumps in
  NoDup (map item_id items) ->
  collection w = ∅ ->
  count_raises ∅ = false ->
  add_raises ∅ (map item_content items)
    (map clean_metadata (map item_metadata items)) (map item_id items) = false ->
  size (collection
          (snd (populate_knowledge_base Row schema_info sample_data json_dumps
                  count_raises add_raises w)))
  = length items.
Proof.
  intros items Hnd Hw Hc Ha. unfold populate_knowledge_base, mbind at 1, M_bind.
  rewrite collection_count_run, Hw, Hc. cbn [snd log].
  rewrite map_size_empty. cbn [Nat.ltb Nat.leb].
  unfold try_except. fold items. rewrite collection_add_run.
  cbn [collection]. rewrite Hw, Ha, !length_map, Nat.eqb_refl.
  cbn [negb orb snd collection].
  rewrite zip_items, foldl_store_doc_size.
  - rewrite map_size_empty, length_map. reflexivity.
  - now rewrite map_map.
  - intros i _. apply lookup_empty.
Qed.

End StoreFacts.

(** X12.  The identifiers of the knowledge items are pairwise distinct
    when the table names of the schema are distinct and those of the
    samples are (as the keys of a dict are).  Then, on an empty collection
    and when the count and the bulk insertion do not fail,
    [populate_knowledge_base] stores exactly one document per item: one
    per table of the schema, one per serialised sample set and the sixteen
    fixed ones. *)
Theorem populate_stores_every_item (Row : Type)
    (schema_info : list (string * list Column))
    (sample_data : list (string * list Row))
    (json_dumps : list Row -> result string)
    (count_raises : gmap string Document -> bool)
    (add_raises :
       gmap string Document -> list string -> list Metadata -> list string -> bool)
    (w : World) :
  let items := knowledge_items Row schema_info sample_data json_dumps in
  NoDup (map fst schema_info) ->
  NoDup (map fst sample_data) ->
  NoDup (map item_id items)
  /\ length items
     = (length schema_info + length (sample_items Row json_dumps sample_data) + 16)%nat
  /\ (collection w = ∅ ->
      count_raises ∅ = false ->
      add_raises ∅ (map item_content items)
        (map clean_metadata (map item_metadata items)) (map item_id items) = false ->
      size (collection
              (snd (populate_knowledge_base Row schema_info sample_data json_dumps
                      count_raises add_raises w)))
      = length items).
Proof.
  intros items Hs Hd.
  assert (Hnd : NoDup (map item_id items))
    by (now apply knowledge_items_NoDup).
  split; [exact Hnd|]. split.
  - unfold items, knowledge_items. rewrite !length_app, length_map.
    change (length relationship_items) with 1%nat.
    change (length query_patterns) with 6%nat.
    change (length examples) with 6%nat.
    change (length postgres_tips) with 3%nat. lia.
  - intros Hw Hc Ha. now apply populate_bulk_size.
Qed.

Lemma populate_stores_every_item_witness :
  size (collection
          (snd (populate_knowledge_base unit
                  [("users", [{| col_name := "id"; col_type := "INTEGER";
                                 col_nullable := false |}]); ("orders", [])]
                  [("users", [tt]); ("orders", [])] (fun _ => Returns "[{}]")
                  never_count never_add empty_world)))
  = length (knowledge_items unit
              [("users", [{| col_name := "id"; col_type := "INTEGER";
                             col_nullable := false |}]); ("orders", [])]
              [("users", [tt]); ("orders", [])] (fun _ => Returns "[{}]")).
Proof.
  refine (proj2 (proj2 (populate_stores_every_item unit
                          [("users", [{| col_name := "id"; col_type := "INTEGER";
                                         col_nullable := false |}]); ("orders", [])]
                          [("users", [tt]); ("orders", [])] (fun _ => Returns "[{}]")
                          never_count never_add empty_world _ _)) _ _ _);
    try reflexivity.
  - apply (bool_decide_unpack _). vm_compute. exact I.
  - apply (bool_decide_unpack _). vm_compute. exact I.
Defined.

(** X13.  One bad document does not block the others: on an empty
    collection (the count not failing), every knowledge item whose own
    insertion does not fail is stored under its identifier after
    [populate_knowledge_base], whether the bulk insertion succeeded or the
    items were inserted one by one after its failure. *)
Theorem populate_partial_success (Row : Type)
    (schema_info : list (string * list Column))
    (sample_data : list (string * list Row))
    (json_dumps : list Row -> result string)
    (count_raises : gmap string Document -> bool)
    (add_raises :
       gmap string Document -> list string -> list Metadata -> list string -> bool)
    (w : World) (item : KnowledgeItem) :
  collection w = ∅ ->
  count_raises ∅ = false ->
  In item (knowledge_items Row schema_info sample_data json_dumps) ->
  (forall m, add_raises m [item_content item] [clean_metadata (item_metadata item)]
               [item_id item] = false) ->
  is_Some (collection
             (snd (populate_knowledge_base Row schema_info sample_data json_dumps
                     count_raises add_raises w))
           !! item_id item).
Proof.
  intros Hw Hc Hin Hok. unfold populate_knowledge_base, mbind at 1, M_bind.
  rewrite collection_count_run, Hw, Hc. cbn [snd log].
  rewrite map_size_empty. cbn [Nat.ltb Nat.leb].
  unfold try_except. rewrite collection_add_run. cbn [collection]. rewrite Hw.
  destruct (_ || _ || _).
  - unfold mbind, M_bind.
    match goal with
    | |- context [add_individually add_raises ?its 0 ?w0] =>
        pose proof (add_individually_stores add_raises its item 0 w0 Hin Hok) as H;
        destruct (add_individually add_raises its 0 w0) as [[a|e] w1]
    end; exact H.
  - cbn [snd collection]. apply foldl_store_doc_lookup.
    rewrite zip_items, map_map. cbn [fst].
    apply list_elem_of_fmap. exists item. split; [reflexivity|].
    now apply list_elem_of_In.
Qed.

Lemma populate_partial_success_witness :
  is_Some (collection
             (snd (populate_knowledge_base unit [] [] (fun _ => Returns "[]")
                     never_count
                     (fun _ _ _ ids => negb (length ids =? 1)%nat
                                       || bool_decide (ids = ["sorting"]))
                     empty_world))
           !! "basic_select").
Proof.
  refine (populate_partial_success unit [] [] (fun _ => Returns "[]") never_count
            (fun _ _ _ ids => negb (length ids =? 1)%nat
                              || bool_decide (ids = ["sorting"]))
            empty_world
            {| item_id := "basic_select";
               item_content := "To show all records from a table: SELECT * FROM table_name LIMIT 10";
               item_metadata := [("type", MStr "pattern"); ("intent", MStr "basic_select")] |}
            _ _ _ _).
  - reflexivity.
  - reflexivity.
  - right. left. reflexivity.
  - intros m. reflexivity.
Defined.

(** ** Statistics of the knowledge base *)

Section StatisticsFacts.





End StatisticsFacts.



(** ** Setting up the model *)

Section SetupFacts.

Variable ChatGoogleGenerativeAI :
  string -> string -> result (string -> result Content).
Variable key : string.



End SetupFacts.





(** ** Reading the database *)

Section ReaderFacts.

Variable db : Database.




End ReaderFacts.





(** X19.  The knowledge base survives an unreachable database: on an
    empty collection, when the count and the insertion do not fail,
    [populate_knowledge_base] stores exactly the sixteen fixed documents,
    and nothing from the schema or the samples. *)
Theorem populate_survives_database_outage (db : Database)
    (json_dumps : list JsonRow -> result string)
    (count_raises : gmap string Document -> bool)
    (add_raises :
       gmap string Document -> list string -> list Metadata -> list string -> bool)
    (w : World) :
  connect_raises db = true ->
  collection w = ∅ ->
  count_raises ∅ = false ->
  add_raises ∅ (map item_content static_items)
    (map clean_metadata (map item_metadata static_items))
    (map item_id static_items) = false ->
  let w' := snd (populate_from_database db json_dumps count_raises add_raises w) in
  size (collection w') = 16%nat
  /\ Forall (fun item => is_Some (collection w' !! item_id item)) static_items.
Proof.
  intros Hdb Hw Hc Ha w'. subst w'. unfold populate_from_database.
  assert (Hs : _get_schema_info db = []) by (unfold _get_schema_info; now rewrite Hdb).
  assert (Hd : _get_sample_data db = [("users", []); ("orders", [])])
    by (unfold _get_sample_data; now rewrite Hdb).
  rewrite Hs, Hd.
  assert (Hitems : knowledge_items JsonRow [] [("users", []); ("orders", [])] json_dumps
                   = static_items) by reflexivity.
  split.
  - rewrite populate_bulk_size; rewrite ?Hitems; try assumption; [reflexivity|].
    apply static_ids_NoDup.
  - apply Forall_forall. intros item Hin.
    unfold populate_knowledge_base, mbind at 1, M_bind.
    rewrite collection_count_run, Hw, Hc. cbn [snd log].
    rewrite map_size_empty. cbn [Nat.ltb Nat.leb].
    unfold try_except. rewrite Hitems, collection_add_run.
    cbn [collection]. rewrite Hw, Ha, !length_map, Nat.eqb_refl.
    cbn [negb orb snd collection].
    apply foldl_store_doc_lookup. rewrite zip_items, map_map. cbn [fst].
    apply list_elem_of_fmap. now exists item.
Qed.

Lemma populate_survives_database_outage_witness :
  size (collection
          (snd (populate_from_database unreachable_database
                  (fun _ => Returns "[]") never_count never_add empty_world)))
  = 16%nat.
Proof.
  refine (proj1 (populate_survives_database_outage unreachable_database
                   (fun _ => Returns "[]") never_count never_add empty_world
                   _ _ _ _)); reflexivity.
Defined.

Section HistoryFacts.

Lemma keeps_history_ret {A : Type} (a : A) : keeps_history (mret a : M A).
Proof. intros w. reflexivity. Qed.

Lemma keeps_history_bind {A B : Type} (c : M A) (f : A -> M B) :
  keeps_history c -> (forall a, keeps_history (f a)) -> keeps_history (mbind f c).
Proof.
  intros Hc Hf w. unfold mbind, M_bind. specialize (Hc w).
  destruct (c w) as [[a|e] w1]; cbn [snd] in *; [|exact Hc].
  now rewrite (Hf a w1).
Qed.

Lemma keeps_history_try_except {A : Type} (body : M A) (handler : exn -> M A) :
  keeps_history body -> (forall e, keeps_history (handler e)) ->
  keeps_history (try_except body handler).
Proof.
  intros Hb Hh w. unfold try_except. specialize (Hb w).
  destruct (body w) as [[a|e] w1]; cbn [snd] in *; [exact Hb|].
  now rewrite (Hh e w1).
Qed.

Variable count_raises : gmap string Document -> bool.
Variable add_raises :
  gmap string Document -> list string -> list Metadata -> list string -> bool.

Lemma keeps_history_collection_count : keeps_history (collection_count count_raises).
Proof. intros w. now rewrite collection_count_run. Qed.

Lemma keeps_history_collection_add (docs : list string) (metas : list Metadata)
    (ids : list string) :
  keeps_history (collection_add add_raises docs metas ids).
Proof. intros w. rewrite collection_add_run. now destruct (_ || _ || _). Qed.

Lemma keeps_history_add_individually (items : list KnowledgeItem) (n : nat) :
  keeps_history (add_individually add_raises items n).
Proof.
  revert n. induction items as [|item items IH]; intros n.
  - apply keeps_history_ret.
  - cbn [add_individually]. apply keeps_history_bind; [|intros a; apply IH].
    apply keeps_history_try_except; [|intros e; apply keeps_history_ret].
    apply keeps_history_bind; [apply keeps_history_collection_add|].
    intros a. apply keeps_history_ret.
Qed.

Lemma keeps_history_populate (Row : Type)
    (schema_info : list (string * list Column))
    (sample_data : list (string * list Row))
    (json_dumps : list Row -> result string) :
  keeps_history (populate_knowledge_base Row schema_info sample_data json_dumps
                   count_raises add_raises).
Proof.
  unfold populate_knowledge_base.
  apply keeps_history_bind; [apply keeps_history_collection_count | intros n].
  destruct (0 <? n)%nat.
  - apply keeps_history_bind; [apply keeps_history_collection_count|].
    intros a. apply keeps_history_ret.
  - apply keeps_history_try_except; [apply keeps_history_collection_add|].
    intros e. apply keeps_history_bind; [apply keeps_history_add_individually|].
    intros a. apply keeps_history_ret.
Qed.

End HistoryFacts.

(** X20.  [reload_schema] does not refresh a knowledge base that is
    already populated: a collection with a count greater than zero is left
    as it is.  Whatever happens to the knowledge base, an exception
    included, has no part in the answer: the answer is the list of the
    tables read from the database with their number in the message, or
    the status 500 when reading the database fails. *)
Theorem reload_schema_keeps_knowledge_base (db : Database)
    (json_dumps : list JsonRow -> result string)
    (count_raises : gmap string Document -> bool)
    (add_raises :
       gmap string Document -> list string -> list Metadata -> list string -> bool)
    (w : World) :
  let r := reload_schema db json_dumps count_raises add_raises w in
  fst r
  = match inspect_schema db with
    | Returns tables =>
        HttpOk {| reload_success := true;
                  reload_message :=
                    "Schema reloaded successfully. Found " +:+
                    str_of_int (Z.of_nat (length tables)) +:+ " tables.";
                  reload_tables := tables |}
    | Raises e => HttpError 500 ("Schema reload failed: " +:+ exn_message e)
    end
  /\ history (snd r) = history w
  /\ ((0 < size (collection w))%nat -> collection (snd r) = collection w).
Proof.
  intros r. subst r. unfold reload_schema.
  assert (Hw1 : snd (try_except
                       (populate_from_database db json_dumps count_raises add_raises)
                       (fun _ => mret tt) w)
                = snd (populate_from_database db json_dumps count_raises add_raises w)).
  { unfold try_except.
    now destruct (populate_from_database db json_dumps count_raises add_raises w)
      as [[a|e] w1]. }
  destruct (try_except _ _ w) as [r0 w1]. cbn [snd] in Hw1. subst w1.
  split; [now destruct (inspect_schema db)|].
  split.
  - destruct (inspect_schema db); cbn [snd]; unfold populate_from_database;
      apply keeps_history_populate.
  - intros H. destruct (inspect_schema db); cbn [snd];
      unfold populate_from_database; now apply populate_guard.
Qed.

Lemma reload_schema_keeps_knowledge_base_witness :
  collection (snd (reload_schema sample_database (fun _ => Returns "[]")
                     never_count never_add one_document_world))
  = collection one_document_world.
Proof.
  refine (proj2 (proj2 (reload_schema_keeps_knowledge_base sample_database
                          (fun _ => Returns "[]") never_count never_add
                          one_document_world)) _).
  unfold one_document_world. cbn [collection]. rewrite map_size_singleton. lia.
Defined.

(** ** Further error behaviour *)



(** ** The fixed points of the cleaner *)

Section FixedPoints.

(** Joining the lines of a text gives the text back. *)
Lemma join_split_nl (s : string) : join nl (split nl s) = s.
Proof.
  unfold split. induction s as [|c s IH]; [reflexivity|].
  cbn [split_from].
  destruct (startswith nl (String c s)) eqn:E.
  - change (String.length nl - 1)%nat with 0%nat.
    destruct (split_from nl 0 s) as [h t].
    change (join nl ("" :: h :: t)) with ("" +:+ nl +:+ join nl (h :: t)).
    rewrite IH. cbn [startswith] in E. apply andb_true_iff in E as [E _].
    apply Ascii.eqb_eq in E. subst c. reflexivity.
  - destruct (split_from nl 0 s) as [h t].
    destruct t as [|l t].
    + cbn [join] in *. now rewrite IH.
    + change (join nl (String c h :: l :: t))
        with (String c (h +:+ nl +:+ join nl (l :: t))).
      change (join nl (h :: l :: t)) with (h +:+ nl +:+ join nl (l :: t)) in IH.
      now rewrite IH.
Qed.

Lemma split_nonempty (sep s : string) : split sep s <> [].
Proof. unfold split. now destruct (split_from sep 0 s). Qed.

End FixedPoints.

(** X23.  The texts that the cleaner returns unchanged are exactly the
    terminated texts made of kept lines: a text ends with [;] and each of
    its lines is trimmed, not blank, without fence marker and does not
    begin with the unadorned marker [--], if and only if cleaning it
    returns it as it is. *)
Theorem clean_fixed_points (x : string) :
  _clean_sql_response (ContentStr x) = Returns x
  <-> endswith ";" x = true
      /\ Forall (fun l => strip l = l
                          /\ keep_line l = true
                          /\ contains "```" l = false)
                (split nl x).
Proof.
  cbn [_clean_sql_response]. split.
  - intros H. destruct (clean_str_shape x x H) as (ls & Hne & Hk & Hx).
    destruct (clean_str_returns x) as (y & Hy & Ht & _).
    rewrite H in Hy. injection Hy as <-.
    split.
    + unfold terminated in Ht. rewrite Hx in Ht |- *.
      now rewrite (rstrip_join ls Hk) in Ht.
    + rewrite Hx, split_join_nl; [|exact Hne|].
      * eapply Forall_impl; [exact Hk|]. intros l Hl.
        apply kept_line_spec in Hl as (H1 & H2 & H3 & _ & H5).
        split; [now apply strip_id | now split].
      * eapply Forall_impl; [exact Hk|]. intros l Hl.
        now apply kept_line_spec in Hl as (_ & _ & _ & H4 & _).
  - intros [He Hl].
    assert (Hk : Forall (fun l => kept_line l = true) (split nl x)).
    { pose proof (split_sep_free nl ltac:(discriminate) x) as Hn.
      rewrite Forall_forall in *. intros l Hin.
      destruct (Hl l Hin) as (H1 & H2 & H3).
      apply kept_line_spec. split; [rewrite <- H1; apply lstripped_strip|].
      split; [rewrite <- H1; apply rstrip_strip|].
      split; [exact H2|]. split; [now apply Hn | exact H3]. }
    pose proof (clean_str_fixed (split nl x) (split_nonempty nl x) Hk) as Hfix.
    rewrite join_split_nl in Hfix. now apply Hfix.
Qed.

(** ** The feedback loop, closed *)

(** X24.  A learned example can be retrieved: once a new pair is recorded
    (its identifier was free and the insertion did not fail), a retrieval
    that does not fail and asks for at least as many items as the
    collection holds returns the learned document among its items, with the
    text "Question: '...' generates SQL: ..." and the tag
    learned_example. *)
Theorem learned_example_is_retrievable (hash : string -> Z)
    (distance : string -> string -> nat)
    (add_raises :
       gmap string Document -> list string -> list Metadata -> list string -> bool)
    (get_raises : gmap string Document -> list string -> bool)
    (query_raises : gmap string Document -> list string -> Z -> bool)
    (question sql query : string) (top_k : Z) (w : World) :
  let rag := rag_service hash distance add_raises get_raises query_raises in
  let w1 := snd (learn_from_query rag question sql true w) in
  collection w !! query_id hash question sql = None ->
  add_raises (collection w) [learned_document question sql] [learned_metadata]
    [query_id hash question sql] = false ->
  query_raises (collection w1) [query] top_k = false ->
  (size (collection w1) <= Z.to_nat top_k)%nat ->
  exists context,
    fst (rag_retrieve_context rag query top_k w1) = Returns context
    /\ In {| content := learned_document question sql;
             metadata := learned_metadata |} context.
Proof.
  intros rag w1 Hfree Ha Hq Hk.
  assert (Hstored : collection w1 !! query_id hash question sql
                    = Some {| doc_content := learned_document question sql;
                              doc_metadata := learned_metadata |}).
  { destruct (add_successful_query_collection hash add_raises get_raises
                question sql w) as [_ Hstep].
    cbv zeta in Hstep.
    pose proof (add_successful_query_recorded hash add_raises get_raises
                  question sql w Ha) as Hrec.
    change (collection (snd (add_successful_query hash add_raises get_raises
                               question sql w)))
      with (collection w1) in Hstep, Hrec.
    destruct Hstep as [Hs | (_ & _ & Hs)].
    - rewrite Hs, Hfree in Hrec. now destruct Hrec.
    - rewrite Hs. apply lookup_insert_eq. }
  unfold rag, rag_service at 1. cbn [rag_retrieve_context].
  rewrite retrieve_context_run. cbn [fst]. rewrite Hq.
  eexists. split; [reflexivity|].
  apply (in_map (fun d => {| content := doc_content d; metadata := doc_metadata d |})
           _ {| doc_content := learned_document question sql;
                doc_metadata := learned_metadata |}).
  apply list_elem_of_In. unfold nearest, rank.
  rewrite take_ge.
  - rewrite merge_sort_Permutation. apply list_elem_of_fmap.
    exists (query_id hash question sql,
            {| doc_content := learned_document question sql;
               doc_metadata := learned_metadata |}).
    split; [reflexivity|]. now apply elem_of_map_to_list.
  - rewrite merge_sort_Permutation, length_map, length_map_to_list. exact Hk.
Qed.

Lemma learned_example_is_retrievable_witness :
  exists context,
    fst (rag_retrieve_context
           (rag_service length_hash length_distance never_add never_get never_query)
           "how many users" 3
           (snd (learn_from_query
                   (rag_service length_hash length_distance never_add never_get
                      never_query)
                   "count users" "SELECT COUNT(*) FROM users;" true
                   one_document_world)))
    = Returns context
    /\ In {| content := learned_document "count users" "SELECT COUNT(*) FROM users;";
             metadata := learned_metadata |} context.
Proof.
  apply (learned_example_is_retrievable length_hash length_distance never_add
           never_get never_query "count users" "SELECT COUNT(*) FROM users;"
           "how many users" 3 one_document_world).
  - vm_compute. reflexivity.
  - reflexivity.
  - reflexivity.
  - vm_compute. lia.
Defined.

(** ** The orchestrator with its console output *)

Section ConsoleFacts.

Variable stdout : Console.Text -> result unit.
Variable type_name : exn -> string.
Variable other_str : string.
Variable other_slice_str : string.
Variable other_type_str : string.

Lemma print_accepted (t : Console.Text) (w : World) :
  Console.accepted stdout t -> Console.print stdout t w = (Returns tt, w).
Proof.
  intros [H1 H2]. unfold Console.print, mbind, M_bind, lift. now rewrite H1, H2.
Qed.

Lemma print_rejected (t : Console.Text) (e : exn) (w : World) :
  stdout t = Raises e -> Console.print stdout t w = (Raises e, w).
Proof.
  intros H. unfold Console.print, mbind, M_bind, lift. now rewrite H.
Qed.

(** Printing leaves the world as it is. *)
Lemma print_world (t : Console.Text) (w : World) :
  snd (Console.print stdout t w) = w.
Proof.
  unfold Console.print, mbind, M_bind, lift. destruct (stdout t) as [[]|e]; reflexivity.
Qed.

Lemma bind_print_accepted {A : Type} (t : Console.Text) (f : unit -> M A)
    (w : World) :
  Console.accepted stdout t -> mbind f (Console.print stdout t) w = f tt w.
Proof.
  intros H. unfold mbind at 1, M_bind. now rewrite (print_accepted t w H).
Qed.

Lemma bind_print_rejected {A : Type} (t : Console.Text) (f : unit -> M A)
    (e : exn) (w : World) :
  stdout t = Raises e -> mbind f (Console.print stdout t) w = (Raises e, w).
Proof.
  intros H. unfold mbind at 1, M_bind. now rewrite (print_rejected t e w H).
Qed.

Lemma console_fallback (question : string) (w : World) :
  Console.accepted stdout (Console.fallback_start_line question) ->
  Console.accepted stdout (Console.fallback_done_line (_fallback_sql question)) ->
  Console._fallback_sql stdout question w = (Returns (_fallback_sql question), w).
Proof.
  intros H1 H2. unfold Console._fallback_sql.
  rewrite (bind_print_accepted _ _ _ H1). cbv zeta.
  now rewrite (bind_print_accepted _ _ _ H2).
Qed.

(** The handler of [generate_sql], when stdout takes its lines. *)
Lemma console_handler (rag : RAG) (llm : option (string -> result Content))
    (question db_uri : string) (w w1 : World) (e : exn) :
  Console.accepted stdout (Console.start_line question) ->
  Console.generate_sql_try stdout other_str other_slice_str other_type_str
    rag llm question w = (Raises e, w1) ->
  Forall (Console.accepted stdout) (Console.handler_lines type_name e question) ->
  Console.generate_sql stdout type_name other_str other_slice_str other_type_str
    rag llm question db_uri w
  = (Returns (_fallback_sql question), w1).
Proof.
  intros Hs Ht Hh. unfold Console.generate_sql.
  rewrite (bind_print_accepted _ _ _ Hs). unfold try_except. rewrite Ht.
  unfold Console.handler_lines in Hh.
  repeat match goal with
         | H : Forall _ (_ :: _) |- _ => apply Forall_cons in H as [? H]
         end.
  repeat (rewrite bind_print_accepted by assumption).
  unfold mbind at 1, M_bind at 1.
  rewrite console_fallback by assumption.
  now rewrite bind_print_accepted by assumption.
Qed.

Section AnyStdout.

(** A stdout that takes every text. *)
Hypothesis takes_all : forall t, stdout t = Returns tt.

Lemma accepted_all (t : Console.Text) : Console.accepted stdout t.
Proof. split; apply takes_all. Qed.

Lemma bind_print {A : Type} (t : Console.Text) (f : unit -> M A) (w : World) :
  mbind f (Console.print stdout t) w = f tt w.
Proof. apply bind_print_accepted, accepted_all. Qed.

Lemma print_all (t : Console.Text) (w : World) :
  Console.print stdout t w = (Returns tt, w).
Proof. apply print_accepted, accepted_all. Qed.

Lemma console_preview (n : nat) (items : list ContextItem) (w : World) :
  Console.print_preview stdout n items w = (Returns tt, w).
Proof.
  revert n. induction items as [|item items IH]; intros n; [reflexivity|].
  cbn [Console.print_preview]. now rewrite bind_print.
Qed.

Lemma console_build_rag_prompt (question : string) (context : list ContextItem)
    (w : World) :
  Console._build_rag_prompt stdout question context w
  = (Returns (_build_rag_prompt question context), w).
Proof.
  unfold Console._build_rag_prompt. rewrite bind_print. cbv zeta.
  now rewrite bind_print.
Qed.

Lemma console_clean_sql_response (response : Content) (w : World) :
  Console._clean_sql_response stdout other_slice_str response w
  = (_clean_sql_response response, w).
Proof.
  unfold Console._clean_sql_response. rewrite bind_print.
  destruct response as [s|]; [|reflexivity].
  cbn [_clean_sql_response]. unfold clean_str, unfence. cbv zeta.
  assert (Hfin : forall sql,
            (sql0 <- (if negb (endswith ";" (rstrip sql)) then
                        _ <- Console.print stdout
                               (Console.wrench ++ Console.text " Added semicolon");
                        mret (rstrip sql +:+ ";")
                      else mret sql);
             _ <- Console.print stdout
                    (Console.check_mark ++
                     Console.text (" SQL cleaned: '" +:+ sql0 +:+ "'"));
             mret sql0) w
            = (Returns (ensure_semicolon sql), w)).
  { intros sql. unfold ensure_semicolon. unfold mbind at 1, M_bind at 1.
    destruct (negb (endswith ";" (rstrip sql))).
    - rewrite bind_print. unfold mret at 1, M_ret at 1. now rewrite bind_print.
    - unfold mret at 1, M_ret at 1. now rewrite bind_print. }
  unfold mbind at 1, M_bind at 1.
  destruct (contains "```sql" (strip s)).
  - unfold mbind at 1, M_bind at 1, lift.
    destruct (index (split "```sql" (strip s)) 1) as [a|e]; [|reflexivity].
    rewrite bind_Returns.
    unfold mbind at 1, M_bind at 1.
    destruct (index (split "```" a) 0) as [b|e]; [|reflexivity].
    rewrite bind_print. unfold mret at 1, M_ret at 1.
    rewrite !bind_Returns. apply Hfin.
  - destruct (contains "```" (strip s)).
    + unfold mbind at 1, M_bind at 1, lift.
      destruct (index (split "```" (strip s)) 1) as [a|e]; [|reflexivity].
      rewrite bind_print. unfold mret at 1, M_ret at 1.
      rewrite !bind_Returns. apply Hfin.
    + unfold mret at 1, M_ret at 1. rewrite !bind_Returns. apply Hfin.
Qed.

Lemma console_generate_sql_try (rag : RAG)
    (llm : option (string -> result Content)) (question : string) (w : World) :
  Console.generate_sql_try stdout other_str other_slice_str other_type_str
    rag llm question w
  = generate_sql_try rag llm question w.
Proof.
  destruct llm as [model|];
    [|unfold Console.generate_sql_try, generate_sql_try; now rewrite bind_print].
  rewrite generate_sql_try_model. unfold Console.generate_sql_try.
  rewrite !bind_print.
  unfold mbind at 1, M_bind at 1.
  destruct (rag_retrieve_context rag question 3 w) as [[context|e] w1];
    [|reflexivity].
  rewrite bind_print.
  unfold mbind at 1, M_bind at 1.
  assert (Hp : (if (0 <? length context)%nat then
                  _ <- Console.print stdout
                         (Console.clipboard ++ Console.text " Context preview:");
                  Console.print_preview stdout 1 (firstn 2 context)
                else Console.print stdout
                       (Console.warning_sign ++
                        Console.text " No context retrieved from RAG")) w1
               = (Returns tt, w1)).
  { destruct (0 <? length context)%nat.
    - rewrite bind_print. apply console_preview.
    - apply print_all. }
  rewrite Hp.
  unfold mbind at 1, M_bind at 1. rewrite console_build_rag_prompt.
  rewrite !bind_print. cbv zeta.
  unfold mbind at 1, M_bind at 1.
  unfold llm_invoke at 1. unfold mbind at 1, M_bind at 1, lift at 1.
  cbn [log].
  destruct (model (_build_rag_prompt question context)) as [response|e];
    [|reflexivity].
  rewrite !bind_print.
  unfold mbind at 1, M_bind at 1. rewrite console_clean_sql_response.
  destruct (_clean_sql_response response) as [sql|e]; [|reflexivity].
  rewrite !bind_print.
  unfold mbind at 1, M_bind at 1.
  destruct (contains "Fallback query for:" sql); now rewrite print_all.
Qed.

(** On a stdout that takes every text, [generate_sql] with its output is
    [generate_sql] without it. *)
Lemma console_generate_sql (rag : RAG)
    (llm : option (string -> result Content)) (question db_uri : string)
    (w : World) :
  Console.generate_sql stdout type_name other_str other_slice_str other_type_str
    rag llm question db_uri w
  = generate_sql rag llm question db_uri w.
Proof.
  unfold Console.generate_sql, generate_sql. rewrite bind_print.
  unfold try_except. rewrite console_generate_sql_try.
  destruct (generate_sql_try rag llm question w) as [[s|e] w1]; [reflexivity|].
  rewrite !bind_print. unfold mbind at 1, M_bind at 1.
  rewrite console_fallback by apply accepted_all.
  now rewrite bind_print.
Qed.

End AnyStdout.

End ConsoleFacts.

(** C1 (amended).  [generate_sql] prints its first line, which carries the
    question, before its [try] block, and its handler prints as well.
    When stdout takes the first line and, if the [try] block raises, the
    lines of the handler and of the fallback generator, [generate_sql]
    returns a string, for every question, retrieval service, model and
    world; whatever exception the [try] block raises (in the retrieval,
    the composition of the prompt, the invocation of the model, the
    cleaning, or the output printed inside the block) is absorbed and the
    call returns the rule-based fallback of the question.  On a stdout
    that takes every text the function is [generate_sql] as defined
    without its output.  When stdout rejects the first line,
    [generate_sql] raises the exception of stdout and nothing else
    happens. *)
Theorem generate_sql_never_raises (stdout : Console.Text -> result unit)
    (type_name : exn -> string)
    (other_str other_slice_str other_type_str : string) (rag : RAG)
    (llm : option (string -> result Content)) (question db_uri : string)
    (w : World) :
  let run :=
    Console.generate_sql stdout type_name other_str other_slice_str
      other_type_str rag llm question db_uri w in
  let block :=
    Console.generate_sql_try stdout other_str other_slice_str other_type_str
      rag llm question w in
  (Console.accepted stdout (Console.start_line question) ->
   (forall e w1,
      block = (Raises e, w1) ->
      Forall (Console.accepted stdout)
             (Console.handler_lines type_name e question)) ->
   (exists s w', run = (Returns s, w'))
   /\ (forall e w1,
         block = (Raises e, w1) ->
         run = (Returns (_fallback_sql question), w1)))
  /\ ((forall t, stdout t = Returns tt) ->
      run = generate_sql rag llm question db_uri w)
  /\ (forall e,
        stdout (Console.start_line question) = Raises e ->
        run = (Raises e, w)).
Proof.
  intros run block. split; [|split].
  - intros Hs Hh.
    assert (Habs : forall e w1, block = (Raises e, w1) ->
                     run = (Returns (_fallback_sql question), w1)).
    { intros e w1 Hb. subst run.
      apply (console_handler stdout type_name other_str other_slice_str
               other_type_str rag llm question db_uri w w1 e Hs Hb (Hh e w1 Hb)). }
    split; [|exact Habs].
    destruct block as [[s|e] w1] eqn:Hb.
    + exists s, w1. subst run. unfold Console.generate_sql.
      rewrite (bind_print_accepted stdout _ _ _ Hs). unfold try_except.
      fold block. now rewrite Hb.
    + exists (_fallback_sql question), w1. now apply (Habs e).
  - intros Hall. apply console_generate_sql, Hall.
  - intros e He. subst run. unfold Console.generate_sql.
    now rewrite (bind_print_rejected stdout _ _ e w He).
Qed.

Lemma generate_sql_never_raises_witness :
  (exists s w',
     Console.generate_sql Console.utf8_stdout Console.exn_type_name "" "" ""
       silent_rag (Some (fun _ => Raises (BackendError "quota")))
       "count users" "" empty_world
     = (Returns s, w'))
  /\ Console.generate_sql Console.utf8_stdout Console.exn_type_name "" "" ""
       silent_rag (Some (fun _ => Raises (BackendError "quota")))
       "count users" "" empty_world
     = (Returns (_fallback_sql "count users"),
        snd (log (CallInvoke (_build_rag_prompt "count users" [])) empty_world)).
Proof.
  assert (Hs : Console.accepted Console.utf8_stdout
                 (Console.start_line "count users"))
    by (split; vm_compute; reflexivity).
  assert (Hh : forall e w1,
             Console.generate_sql_try Console.utf8_stdout "" "" "" silent_rag
               (Some (fun _ => Raises (BackendError "quota")))
               "count users" empty_world
             = (Raises e, w1) ->
             Forall (Console.accepted Console.utf8_stdout)
                    (Console.handler_lines Console.exn_type_name e "count users")).
  { intros e w1 H. vm_compute in H. injection H as <- <-.
    repeat constructor; vm_compute; reflexivity. }
  destruct (proj1 (generate_sql_never_raises Console.utf8_stdout
                     Console.exn_type_name "" "" "" silent_rag
                     (Some (fun _ => Raises (BackendError "quota")))
                     "count users" "" empty_world) Hs Hh) as [H1 H2].
  split; [exact H1|].
  apply (H2 (BackendError "quota")). vm_compute. reflexivity.
Defined.

(** C1, as stated, fails: on a stdout with the ASCII encoding the first
    line cannot be written, and [generate_sql] raises, with a model that
    works and a plain question. *)
Lemma generate_sql_raises_counterexample :
  Console.generate_sql Console.ascii_stdout Console.exn_type_name "" "" ""
    silent_rag (Some (fun _ => Returns (ContentStr "SELECT 1;")))
    "count users" "" empty_world
  = (Raises (UnicodeEncodeError
       "'ascii' codec can't encode character '\U0001f3af' in position 0: ordinal not in range(128)"),
     empty_world).
Proof. vm_compute. reflexivity. Qed.

(** C4 (amended).  Without a model ([llm] is [None]), when stdout takes
    the two lines printed on this path, [generate_sql] returns the
    placeholder statement whatever the question: the statement is not
    empty and holds the question; the world is left as it was, so no call
    is made, to the model or to the collection.  The endpoint answers with
    that statement and the status "success" when the history row is
    saved; when saving the row fails it answers with the status "error",
    an empty statement and the message of the exception. *)
Theorem generate_sql_no_model (stdout : Console.Text -> result unit)
    (type_name : exn -> string)
    (other_str other_slice_str other_type_str : string) (rag : RAG)
    (commit_raises : bool) (question db_uri : string) (w : World) :
  Console.accepted stdout (Console.start_line question) ->
  Console.accepted stdout Console.no_key_line ->
  Console.generate_sql stdout type_name other_str other_slice_str
    other_type_str rag None question db_uri w
  = (Returns (no_model_sql question), w)
  /\ no_model_sql question <> ""
  /\ contains question (no_model_sql question) = true
  /\ (commit_raises = false ->
      Console.generate_sql_endpoint stdout type_name other_str other_slice_str
        other_type_str rag None commit_raises question db_uri w
      = (Returns {| sql := no_model_sql question; status := "success";
                    error := None |},
         {| collection := collection w;
            history := history w ++ [{| natural_query := question;
                                        generated_sql := no_model_sql question;
                                        history_status := "success" |}];
            calls := calls w |}))
  /\ (commit_raises = true ->
      Console.accepted stdout
        (Console.endpoint_error_line (BackendError "commit")) ->
      Console.generate_sql_endpoint stdout type_name other_str other_slice_str
        other_type_str rag None commit_raises question db_uri w
      = (Returns {| sql := ""; status := "error"; error := Some "commit" |}, w)).
Proof.
  intros Hs Hk.
  assert (Hg : Console.generate_sql stdout type_name other_str other_slice_str
                 other_type_str rag None question db_uri w
               = (Returns (no_model_sql question), w)).
  { unfold Console.generate_sql.
    rewrite (bind_print_accepted stdout _ _ _ Hs).
    unfold try_except, Console.generate_sql_try.
    now rewrite (bind_print_accepted stdout _ _ _ Hk). }
  split; [exact Hg|]. split; [discriminate|]. split.
  { apply contains_spec.
    exists ("-- No API key configured" +:+ nl +:+ "-- Generated from: "),
           (nl +:+ "SELECT * FROM users LIMIT 5;").
    unfold no_model_sql. now rewrite !append_assoc. }
  split.
  - intros ->. unfold Console.generate_sql_endpoint, try_except.
    unfold mbind at 1, M_bind at 1. rewrite Hg. reflexivity.
  - intros -> He. unfold Console.generate_sql_endpoint, try_except.
    unfold mbind at 1, M_bind at 1. rewrite Hg.
    unfold mbind at 1, M_bind at 1, save_history.
    now rewrite (bind_print_accepted stdout _ _ _ He).
Qed.

Lemma generate_sql_no_model_witness :
  Console.generate_sql Console.utf8_stdout Console.exn_type_name "" "" ""
    silent_rag None "count users" "" empty_world
  = (Returns (no_model_sql "count users"), empty_world)
  /\ Console.generate_sql_endpoint Console.utf8_stdout Console.exn_type_name
       "" "" "" silent_rag None false "count users" "" empty_world
     = (Returns {| sql := no_model_sql "count users"; status := "success";
                   error := None |},
        {| collection := collection empty_world;
           history := history empty_world
                      ++ [{| natural_query := "count users";
                             generated_sql := no_model_sql "count users";
                             history_status := "success" |}];
           calls := calls empty_world |}).
Proof.
  assert (Hs : Console.accepted Console.utf8_stdout
                 (Console.start_line "count users"))
    by (split; vm_compute; reflexivity).
  assert (Hk : Console.accepted Console.utf8_stdout Console.no_key_line)
    by (split; vm_compute; reflexivity).
  destruct (generate_sql_no_model Console.utf8_stdout Console.exn_type_name
              "" "" "" silent_rag false "count users" "" empty_world Hs Hk)
    as (H1 & _ & _ & H2 & _).
  split; [exact H1 | exact (H2 eq_refl)].
Defined.

(** C4, as stated, fails: without a model, when the history row cannot be
    saved the endpoint answers with the status "error" and an empty
    statement; and on a stdout with the ASCII encoding [generate_sql]
    raises on its first line. *)
Lemma no_model_counterexample :
  Console.generate_sql_endpoint Console.utf8_stdout Console.exn_type_name
    "" "" "" silent_rag None true "count users" "" empty_world
  = (Returns {| sql := ""; status := "error"; error := Some "commit" |},
     empty_world)
  /\ Console.generate_sql Console.ascii_stdout Console.exn_type_name "" "" ""
       silent_rag None "count users" "" empty_world
     = (Raises (UnicodeEncodeError
          "'ascii' codec can't encode character '\U0001f3af' in position 0: ordinal not in range(128)"),
        empty_world).
Proof. split; vm_compute; reflexivity. Qed.
